(** * Orion chat agent: OpenAPI tool extraction, tool execution and the
      tool-calling loop

    A shallow embedding of [src/mcp_server.py] (class [OpenAPIToolExtractor])
    and [src/orion.py] (classes [Tool] and [Orion]) together with the
    properties of the design document that can be stated over it. *)

From Stdlib Require Import String Ascii List ZArith Bool Lia.
From Stdlib Require Import Numbers.DecimalString.
Import ListNotations.
Open Scope string_scope.
Set Warnings "-register-all".

(** ** Python values

    The documents handled by the program come from [json.load] /
    [yaml.safe_load] and from the model's JSON replies.  Numbers are modelled
    as integers (the code only copies numbers or prints them).  A dictionary
    is an insertion-ordered association list with pairwise distinct keys;
    keys are the hashable scalars. *)

Inductive key : Type :=
| KNone
| KBool (b : bool)
| KInt (z : Z)
| KStr (s : string).

Inductive value : Type :=
| VNone
| VBool (b : bool)
| VInt (z : Z)
| VStr (s : string)
| VList (l : list value)
| VDict (d : list (key * value)).

Definition dict : Type := list (key * value).

(** ** Exceptions

    Only subclasses of Python's [Exception] are modelled.  [KeyError] carries
    the missing string key, [ValidationError] is pydantic's,
    [JSONDecodeError] is [json.JSONDecodeError], and
    [LibraryError] is an exception raised by a collaborator (language model,
    tool session, JSON codec) with its class name and its [str()]. *)

Inductive exn : Type :=
| ValueError (msg : string)
| RuntimeError (msg : string)
| KeyError (k : string)
| IndexError
| TypeError
| AttributeError
| ValidationError
| JSONDecodeError (msg : string)
| LibraryError (cls msg : string).

Inductive exc (A : Type) : Type :=
| Ret (a : A)
| Raise (e : exn).

Arguments Ret {A} a.
Arguments Raise {A} e.

Definition bind {A B : Type} (m : exc A) (f : A -> exc B) : exc B :=
  match m with
  | Ret a => f a
  | Raise e => Raise e
  end.

Notation "x <- m ;; k" := (bind m (fun x => k))
  (at level 61, m at next level, right associativity).

Definition is_ret {A : Type} (m : exc A) : bool :=
  match m with Ret _ => true | Raise _ => false end.

(** ** Strings *)

Definition chr (n : nat) : string := String (ascii_of_nat n) EmptyString.
Definition dquote : string := chr 34.
Definition nl : string := chr 10.

(** [sub in s] for two strings. *)
Fixpoint str_contains (sub s : string) : bool :=
  String.prefix sub s
  || match s with
     | EmptyString => false
     | String _ r => str_contains sub r
     end.

(** [s.replace(old, new)]: every non-overlapping occurrence, left to right. *)
Fixpoint replace_from (skip : nat) (old new s : string) : string :=
  match s with
  | EmptyString => EmptyString
  | String c r =>
      match skip with
      | S k => replace_from k old new r
      | O =>
          if String.prefix old s
          then new ++ replace_from (String.length old - 1) old new r
          else String c (replace_from 0 old new r)
      end
  end.

Fixpoint intersperse (new s : string) : string :=
  match s with
  | EmptyString => new
  | String c r => new ++ String c (intersperse new r)
  end.

Definition py_replace (old new s : string) : string :=
  match old with
  | EmptyString => intersperse new s
  | _ => replace_from 0 old new s
  end.

(** [s.find(c)] and [s.rfind(c)]: index of the first and of the last
    occurrence, [-1] when there is none. *)
Fixpoint find_from (i : Z) (sub s : string) : Z :=
  if String.prefix sub s then i
  else match s with
       | EmptyString => (-1)%Z
       | String _ r => find_from (i + 1) sub r
       end.

Definition py_find (sub s : string) : Z := find_from 0 sub s.

Fixpoint rfind_from (i : Z) (sub s : string) : Z :=
  let later := match s with
               | EmptyString => (-1)%Z
               | String _ r => rfind_from (i + 1) sub r
               end in
  if (later =? -1)%Z then (if String.prefix sub s then i else (-1)%Z) else later.

Definition py_rfind (sub s : string) : Z := rfind_from 0 sub s.

(** [s[i:j]] with Python's clamping of the two bounds. *)
Definition clamp (len i : Z) : Z :=
  if (i <? 0)%Z then Z.max (i + len) 0 else Z.min i len.

Definition py_slice (s : string) (i j : Z) : string :=
  let len := Z.of_nat (String.length s) in
  let a := clamp len i in
  let b := clamp len j in
  String.substring (Z.to_nat a) (Z.to_nat (b - a)) s.

(** [sep.join(parts)] *)
Fixpoint join (sep : string) (parts : list string) : string :=
  match parts with
  | [] => EmptyString
  | [p] => p
  | p :: rest => p ++ sep ++ join sep rest
  end.

Definition ascii_upper (c : ascii) : ascii :=
  let n := nat_of_ascii c in
  if ((97 <=? n) && (n <=? 122))%nat then ascii_of_nat (n - 32) else c.

Definition ascii_lower (c : ascii) : ascii :=
  let n := nat_of_ascii c in
  if ((65 <=? n) && (n <=? 90))%nat then ascii_of_nat (n + 32) else c.

Fixpoint str_map (f : ascii -> ascii) (s : string) : string :=
  match s with
  | EmptyString => EmptyString
  | String c r => String (f c) (str_map f r)
  end.

(** [s.upper()] and [s.lower()] (on the ASCII letters). *)
Definition py_upper : string -> string := str_map ascii_upper.
Definition py_lower : string -> string := str_map ascii_lower.

(** [s.rstrip('/')] *)
Fixpoint rstrip_slash (s : string) : string :=
  match s with
  | EmptyString => EmptyString
  | String c r =>
      match rstrip_slash r with
      | EmptyString => if Ascii.eqb c "/"%char then EmptyString else String c EmptyString
      | r' => String c r'
      end
  end.

(** ** Dictionaries *)

(** Python's [==] on hashable scalars: [True == 1] and [False == 0]. *)
Definition key_num (k : key) : option Z :=
  match k with
  | KBool b => Some (if b then 1 else 0)%Z
  | KInt z => Some z
  | _ => None
  end.

Definition key_eqb (a b : key) : bool :=
  match a, b with
  | KNone, KNone => true
  | KStr s, KStr t => String.eqb s t
  | _, _ =>
      match key_num a, key_num b with
      | Some x, Some y => Z.eqb x y
      | _, _ => false
      end
  end.

Fixpoint dict_get (k : key) (d : dict) : option value :=
  match d with
  | [] => None
  | (k', v) :: r => if key_eqb k k' then Some v else dict_get k r
  end.

Definition dict_mem (k : key) (d : dict) : bool :=
  match dict_get k d with Some _ => true | None => false end.

(** [d[k] = v]: an existing entry keeps its place (and its key object), a new
    one goes last. *)
Fixpoint dict_set (k : key) (v : value) (d : dict) : dict :=
  match d with
  | [] => [(k, v)]
  | (k', v') :: r =>
      if key_eqb k k' then (k', v) :: r else (k', v') :: dict_set k v r
  end.

(** [d.update(other)] for a dictionary [other]. *)
Definition dict_update (d other : dict) : dict :=
  fold_left (fun acc kv => dict_set (fst kv) (snd kv) acc) other d.

Definition dict_keys (d : dict) : list key := map fst d.

Definition of_key (k : key) : value :=
  match k with
  | KNone => VNone
  | KBool b => VBool b
  | KInt z => VInt z
  | KStr s => VStr s
  end.

(** Hashing a value: lists and dictionaries are unhashable. *)
Definition to_key (v : value) : exc key :=
  match v with
  | VNone => Ret KNone
  | VBool b => Ret (KBool b)
  | VInt z => Ret (KInt z)
  | VStr s => Ret (KStr s)
  | VList _ | VDict _ => Raise TypeError
  end.

(** [k == v] for a hashable [k]: only a scalar can be equal to it. *)
Definition key_eq_value (k : key) (v : value) : bool :=
  match to_key v with
  | Ret k' => key_eqb k k'
  | Raise _ => false
  end.

(** ** Dynamic operations on values *)

(** [bool(v)] *)
Definition truthy (v : value) : bool :=
  match v with
  | VNone => false
  | VBool b => b
  | VInt z => negb (Z.eqb z 0)
  | VStr s => negb (String.eqb s EmptyString)
  | VList l => match l with [] => false | _ => true end
  | VDict d => match d with [] => false | _ => true end
  end.

Fixpoint chars (s : string) : list value :=
  match s with
  | EmptyString => []
  | String c r => VStr (String c EmptyString) :: chars r
  end.

(** [for x in v]: the elements of a list, the keys of a dictionary, the
    characters of a string. *)
Definition py_iter (v : value) : exc (list value) :=
  match v with
  | VList l => Ret l
  | VDict d => Ret (map of_key (dict_keys d))
  | VStr s => Ret (chars s)
  | VNone | VBool _ | VInt _ => Raise TypeError
  end.

(** [v[k]] for a string [k]. *)
Definition py_getitem (v : value) (k : string) : exc value :=
  match v with
  | VDict d =>
      match dict_get (KStr k) d with
      | Some x => Ret x
      | None => Raise (KeyError k)
      end
  | _ => Raise TypeError
  end.

(** [v.get(k, default)] for a string [k]. *)
Definition py_get (v : value) (k : string) (default : value) : exc value :=
  match v with
  | VDict d =>
      match dict_get (KStr k) d with
      | Some x => Ret x
      | None => Ret default
      end
  | _ => Raise AttributeError
  end.

(** [k in v] for a hashable [k]; on a string only a string can be looked for. *)
Definition py_in (k : key) (v : value) : exc bool :=
  match v with
  | VDict d => Ret (dict_mem k d)
  | VList l => Ret (existsb (key_eq_value k) l)
  | VStr s =>
      match k with
      | KStr sub => Ret (str_contains sub s)
      | _ => Raise TypeError
      end
  | VNone | VBool _ | VInt _ => Raise TypeError
  end.

(** [v == s] for a string constant [s]. *)
Definition eq_str (v : value) (s : string) : bool :=
  match v with
  | VStr t => String.eqb t s
  | _ => false
  end.

(** The receiver of a [str] method ([upper], [replace], [rstrip]). *)
Definition as_str (v : value) : exc string :=
  match v with
  | VStr s => Ret s
  | _ => Raise AttributeError
  end.

(** [v.items()] *)
Definition py_items (v : value) : exc (list (key * value)) :=
  match v with
  | VDict d => Ret d
  | _ => Raise AttributeError
  end.

(** [v[0]] *)
Definition py_first (v : value) : exc value :=
  match v with
  | VList (x :: _) => Ret x
  | VList [] => Raise IndexError
  | VStr (String c _) => Ret (VStr (String c EmptyString))
  | VStr EmptyString => Raise IndexError
  | VDict d =>
      match dict_get (KInt 0) d with
      | Some x => Ret x
      | None => Raise (KeyError "0")
      end
  | VNone | VBool _ | VInt _ => Raise TypeError
  end.

(** A [for] loop threading a state, stopped by the first exception. *)
Fixpoint for_each {S A : Type} (step : S -> A -> exc S) (st : S) (l : list A)
  : exc S :=
  match l with
  | [] => Ret st
  | a :: r => st' <- step st a ;; for_each step st' r
  end.

(** ** [str()] and [repr()] *)

Definition Z_to_string (z : Z) : string := NilZero.string_of_int (Z.to_int z).

Definition squote : string := chr 39.
Definition backslash : string := chr 92.

Definition hex_digit (n : nat) : string :=
  String.substring n 1 "0123456789abcdef".

(** One character of [repr(s)] when [q] is the chosen quote character.  Bytes
    above 127 are kept: they encode printable characters. *)
Definition repr_char (q : ascii) (c : ascii) : string :=
  let n := nat_of_ascii c in
  if Ascii.eqb c (ascii_of_nat 92) then backslash ++ backslash
  else if Ascii.eqb c q then backslash ++ String c EmptyString
  else if (n =? 10)%nat then backslash ++ "n"
  else if (n =? 13)%nat then backslash ++ "r"
  else if (n =? 9)%nat then backslash ++ "t"
  else if ((n <? 32) || (n =? 127))%nat
       then backslash ++ "x" ++ hex_digit (n / 16) ++ hex_digit (n mod 16)
  else String c EmptyString.

Fixpoint repr_chars (q : ascii) (s : string) : string :=
  match s with
  | EmptyString => EmptyString
  | String c r => repr_char q c ++ repr_chars q r
  end.

(** [repr(s)]: single quotes, unless the string holds a single quote and no
    double quote. *)
Definition repr_str (s : string) : string :=
  if str_contains squote s && negb (str_contains dquote s)
  then dquote ++ repr_chars (ascii_of_nat 34) s ++ dquote
  else squote ++ repr_chars (ascii_of_nat 39) s ++ squote.

Definition repr_key (k : key) : string :=
  match k with
  | KNone => "None"
  | KBool true => "True"
  | KBool false => "False"
  | KInt z => Z_to_string z
  | KStr s => repr_str s
  end.

Fixpoint py_repr (v : value) : string :=
  match v with
  | VNone => "None"
  | VBool true => "True"
  | VBool false => "False"
  | VInt z => Z_to_string z
  | VStr s => repr_str s
  | VList l => "[" ++ join ", " (map py_repr l) ++ "]"
  | VDict d =>
      "{" ++ join ", " (map (fun kv : key * value =>
                               let (k, x) := kv in
                               repr_key k ++ ": " ++ py_repr x) d) ++ "}"
  end.

(** [str(v)], also what an f-string prints for [{v}]. *)
Definition py_str (v : value) : string :=
  match v with
  | VStr s => s
  | _ => py_repr v
  end.

(** The message of the [ValueError] of [dict.update] on a sequence element
    that is not a pair. *)
Definition nat_to_string (n : nat) : string := Z_to_string (Z.of_nat n).

Definition update_length_error (i len : nat) : exn :=
  ValueError ("dictionary update sequence element #" ++ nat_to_string i
              ++ " has length " ++ nat_to_string len ++ "; 2 is required").

(** [d.update(other)] when [other] is a sequence: every element in turn has
    to be a sequence of length two, a key and its value. *)
Fixpoint update_from_pairs (i : nat) (d : dict) (elems : list value) : exc dict :=
  match elems with
  | [] => Ret d
  | e :: r =>
      pair <- py_iter e ;;
      match pair with
      | [k; x] => k' <- to_key k ;; update_from_pairs (S i) (dict_set k' x d) r
      | _ => Raise (update_length_error i (List.length pair))
      end
  end.

(** [d.update(other)] for any value [other]. *)
Definition py_update (d : dict) (other : value) : exc dict :=
  match other with
  | VDict o => Ret (dict_update d o)
  | _ => elems <- py_iter other ;; update_from_pairs 0 d elems
  end.

(** * [mcp_server.py]: class [OpenAPIToolExtractor] *)

Module mcp_server.

(** ** Schema converter *)

(** [if k in param: schema[k] = param[k]] *)
Definition copy_key (k : string) (param : value) (schema : dict) : exc dict :=
  b <- py_in (KStr k) param ;;
  if b then x <- py_getitem param k ;; Ret (dict_set (KStr k) x schema)
  else Ret schema.

(** The seven keys copied as they are, in the order of the code. *)
Definition copy_plain_keys (param : value) : exc dict :=
  s <- copy_key "type" param [] ;;
  s <- copy_key "description" param s ;;
  s <- copy_key "enum" param s ;;
  s <- copy_key "default" param s ;;
  s <- copy_key "format" param s ;;
  s <- copy_key "minimum" param s ;;
  copy_key "maximum" param s.

(** [_convert_openapi_type_to_json_schema(param)].  The recursive call is on
    [param['items']]; the local [items_of] is that lookup, written so that the
    recursion is structural ([_convert_eq] below gives the equation in the
    shape of the code). *)
Fixpoint _convert_openapi_type_to_json_schema (param : value) : exc dict :=
  schema <- copy_plain_keys param ;;
  b <- py_in (KStr "items") param ;;
  if b then
    match param with
    | VDict d =>
        (fix items_of (d : list (key * value)) : exc dict :=
           match d with
           | [] => Raise (KeyError "items")
           | (k, x) :: r =>
               if key_eqb (KStr "items") k
               then items <- _convert_openapi_type_to_json_schema x ;;
                    Ret (dict_set (KStr "items") (VDict items) schema)
               else items_of r
           end) d
    | _ => Raise TypeError
    end
  else Ret schema.

(** ** Tool registry builder: the input schema of one operation *)

(** One round of [for param in operation.get('parameters', [])]. *)
Definition parameter_step (st : dict * list value) (param : value)
  : exc (dict * list value) :=
  let (properties, required) := st in
  param_name <- py_getitem param "name" ;;
  fragment <- py_get param "schema" param ;;
  schema <- _convert_openapi_type_to_json_schema fragment ;;
  k <- to_key param_name ;;
  let properties := dict_set k (VDict schema) properties in
  is_required <- py_get param "required" (VBool false) ;;
  Ret (properties,
       if truthy is_required then (required ++ [param_name])%list else required).

(** The body of [if 'application/json' in content]. *)
Definition merge_json_body (content : value) (st : dict * list value)
  : exc (dict * list value) :=
  let (properties, required) := st in
  media <- py_getitem content "application/json" ;;
  json_schema <- py_get media "schema" (VDict []) ;;
  has_properties <- py_in (KStr "properties") json_schema ;;
  if has_properties then
    body_properties <- py_getitem json_schema "properties" ;;
    properties <- py_update properties body_properties ;;
    has_required <- py_in (KStr "required") json_schema ;;
    if has_required then
      body_required <- py_getitem json_schema "required" ;;
      extra <- py_iter body_required ;;
      Ret (properties, (required ++ extra)%list)
    else Ret (properties, required)
  else Ret (properties, required).

(** The first half of the body of [if 'requestBody' in operation]: what the
    request body adds to the properties and to the required list. *)
Definition merge_request_body (request_body : value) (st : dict * list value)
  : exc (dict * list value) :=
  content <- py_get request_body "content" (VDict []) ;;
  has_json <- py_in (KStr "application/json") content ;;
  if has_json then merge_json_body content st else Ret st.

(** The second half: [if request_body.get('required', False) and not required]. *)
Definition require_everything (request_body : value) (st : dict * list value)
  : exc (dict * list value) :=
  let (properties, required) := st in
  body_required <- py_get request_body "required" (VBool false) ;;
  if truthy body_required && negb (truthy (VList required))
  then Ret (properties, map of_key (dict_keys properties))
  else Ret (properties, required).

Definition handle_request_body (request_body : value) (st : dict * list value)
  : exc (dict * list value) :=
  st <- merge_request_body request_body st ;;
  require_everything request_body st.

Definition make_input_schema (st : dict * list value) : value :=
  VDict [(KStr "type", VStr "object");
         (KStr "properties", VDict (fst st));
         (KStr "required", VList (snd st))].

(** [_extract_parameters(operation)] *)
Definition _extract_parameters (operation : value) : exc value :=
  parameters <- py_get operation "parameters" (VList []) ;;
  params <- py_iter parameters ;;
  st <- for_each parameter_step ([], []) params ;;
  has_body <- py_in (KStr "requestBody") operation ;;
  st <- (if has_body
         then request_body <- py_getitem operation "requestBody" ;;
              handle_request_body request_body st
         else Ret st) ;;
  Ret (make_input_schema st).

(** ** Tool registry builder: the walk over the document *)

Module mcp_types.

(** [mcp.types.Tool]: [name: str], [description: str | None],
    [inputSchema: dict]. *)
Record Tool : Type := {
  name : string;
  description : value;
  inputSchema : value
}.

End mcp_types.

(** An entry of [self.tools]. *)
Record tool_info : Type := {
  path : string;
  method : string;
  operation : value;
  input_schema : value
}.

Definition registry : Type := list (string * tool_info).

Fixpoint registry_get (k : string) (r : registry) : option tool_info :=
  match r with
  | [] => None
  | (k', t) :: r' => if String.eqb k k' then Some t else registry_get k r'
  end.

(** [self.tools[k] = t]: the last writer wins. *)
Fixpoint registry_set (k : string) (t : tool_info) (r : registry) : registry :=
  match r with
  | [] => [(k, t)]
  | (k', t') :: r' =>
      if String.eqb k k' then (k', t) :: r' else (k', t') :: registry_set k t r'
  end.

Definition eligible_methods : list string :=
  ["GET"; "POST"; "PUT"; "PATCH"; "DELETE"].

(** [Tool(name=..., description=..., inputSchema=...)]: the model validation
    refuses a description that is neither a string nor [None]. *)
Definition make_Tool (tool_name : string) (description input_schema : value)
  : exc mcp_types.Tool :=
  match description with
  | VStr _ | VNone =>
      Ret {| mcp_types.name := tool_name;
             mcp_types.description := description;
             mcp_types.inputSchema := input_schema |}
  | _ => Raise ValidationError
  end.

(** One round of [for method, operation in path_item.items()]. *)
Definition operation_step (path_key : key)
  (st : registry * list mcp_types.Tool) (entry : key * value)
  : exc (registry * list mcp_types.Tool) :=
  let (method_key, operation) := entry in
  let (tools, out) := st in
  method <- as_str (of_key method_key) ;;
  if negb (existsb (String.eqb (py_upper method)) eligible_methods) then Ret st
  else
    path <- as_str (of_key path_key) ;;
    let synthesized :=
      method ++ "_"
      ++ py_replace "}" "" (py_replace "{" "" (py_replace "/" "_" path)) in
    operation_id <- py_get operation "operationId" (VStr synthesized) ;;
    tool_name <- as_str operation_id ;;
    let tool_name := py_lower (py_replace "-" "_" tool_name) in
    fallback <- py_get operation "description"
                  (VStr (py_upper method ++ " " ++ path)) ;;
    description <- py_get operation "summary" fallback ;;
    input_schema <- _extract_parameters operation ;;
    let info := {| path := path; method := py_upper method;
                   operation := operation; input_schema := input_schema |} in
    tool <- make_Tool tool_name description input_schema ;;
    Ret (registry_set tool_name info tools, (out ++ [tool])%list).

(** One round of [for path, path_item in self.spec.get('paths', {}).items()]. *)
Definition path_step (st : registry * list mcp_types.Tool) (entry : key * value)
  : exc (registry * list mcp_types.Tool) :=
  let (path_key, path_item) := entry in
  operations <- py_items path_item ;;
  for_each (operation_step path_key) st operations.

(** [extract_tools()] on a loaded document, from the registry [tools]: the
    registry after the walk and the list of tools returned. *)
Definition extract_tools (spec : value) (tools : registry)
  : exc (registry * list mcp_types.Tool) :=
  paths <- py_get spec "paths" (VDict []) ;;
  entries <- py_items paths ;;
  for_each path_step (tools, []) entries.

(** ** Tool executor *)

(** The extractor object, with the module-level [token]. *)
Record extractor : Type := {
  base_url : value;
  spec : value;
  tools : registry;
  token : value
}.

(** [_get_base_url()] *)
Definition _get_base_url (self : extractor) : exc value :=
  if truthy (base_url self) then Ret (base_url self)
  else
    from_spec <-
      (if truthy (spec self) then
         has_servers <- py_in (KStr "servers") (spec self) ;;
         if has_servers
         then servers <- py_getitem (spec self) "servers" ;; Ret (truthy servers)
         else Ret false
       else Ret false) ;;
    if from_spec then
      servers <- py_getitem (spec self) "servers" ;;
      server <- py_first servers ;;
      py_getitem server "url"
    else Ret (VStr "http://localhost:8000").

(** What is handed to [self.client.request]. *)
Record http_request : Type := {
  rq_method : string;
  rq_url : string;
  rq_params : dict;
  rq_headers : dict;
  rq_json : option dict
}.

(** The response object as the code observes it: [raise_for_status()] raises
    an [HTTPStatusError] with the given message or returns, [json()] returns a
    value or raises. *)
Record response : Type := {
  status_code : Z;
  text : string;
  raise_for_status : option string;
  json : option value
}.

(** The outcome of [await self.client.request(...)]: a response, an
    [httpx.HTTPError] (with its message and the status code of its
    [response] attribute when it has one), or another exception. *)
Inductive transport_result : Type :=
| Responded (r : response)
| HTTPError (msg : string) (status : option Z)
| OtherError (msg : string).

Class HttpClient : Type := {
  client_request : http_request -> transport_result
}.

(** One round of [for param_name, param_value in arguments.items()]. *)
Definition substitute_path_param (url : string) (arg : key * value) : string :=
  let (param_name, param_value) := arg in
  let placeholder := "{" ++ py_str (of_key param_name) ++ "}" in
  if str_contains placeholder url
  then py_replace placeholder (py_str param_value) url
  else url.

(** One round of [for param in operation.get('parameters', [])]. *)
Definition place_parameter (arguments : dict) (st : dict * dict) (param : value)
  : exc (dict * dict) :=
  let (params, headers) := st in
  param_name <- py_getitem param "name" ;;
  k <- to_key param_name ;;
  match dict_get k arguments with
  | Some argument =>
      param_in <- py_get param "in" (VStr "query") ;;
      if eq_str param_in "query" then Ret (dict_set k argument params, headers)
      else if eq_str param_in "header"
           then Ret (params, dict_set k (VStr (py_str argument)) headers)
           else Ret st
  | None => Ret st
  end.

(** [any(p['name'] == k for p in parameters)] *)
Fixpoint declared (k : key) (parameters : list value) : exc bool :=
  match parameters with
  | [] => Ret false
  | p :: r =>
      n <- py_getitem p "name" ;;
      if key_eq_value k n then Ret true else declared k r
  end.

(** The dictionary comprehension of [remaining_args]. *)
Fixpoint remaining_args (parameters : value) (arguments : dict) : exc dict :=
  match arguments with
  | [] => Ret []
  | (k, v) :: r =>
      ps <- py_iter parameters ;;
      d <- declared k ps ;;
      rest <- remaining_args parameters r ;;
      Ret (if d then rest else (k, v) :: rest)
  end.

(** The part of [execute_tool] between the registry lookup and the [try]. *)
Definition build_request (self : extractor) (info : tool_info) (arguments : dict)
  : exc http_request :=
  base <- _get_base_url self ;;
  base <- as_str base ;;
  let url := rstrip_slash base ++ path info in
  let headers := [(KStr "Authorization", VStr ("Bearer " ++ py_str (token self)))] in
  let url := fold_left substitute_path_param arguments url in
  parameters <- py_get (operation info) "parameters" (VList []) ;;
  ps <- py_iter parameters ;;
  st <- for_each (place_parameter arguments) ([], headers) ps ;;
  let (params, headers) := st in
  has_body <- py_in (KStr "requestBody") (operation info) ;;
  json_data <-
    (if has_body then
       parameters <- py_get (operation info) "parameters" (VList []) ;;
       remaining <- remaining_args parameters arguments ;;
       Ret (if truthy (VDict remaining) then Some remaining else None)
     else Ret None) ;;
  Ret {| rq_method := method info; rq_url := url; rq_params := params;
         rq_headers := headers; rq_json := json_data |}.

Definition opt_int (o : option Z) : value :=
  match o with
  | Some z => VInt z
  | None => VNone
  end.

(** The [try] block of [execute_tool] and its two handlers. *)
Definition perform_request {client : HttpClient} (rq : http_request) : value :=
  match client_request rq with
  | Responded r =>
      match raise_for_status r with
      | Some msg =>
          VDict [(KStr "success", VBool false);
                 (KStr "error", VStr msg);
                 (KStr "status_code", VInt (status_code r))]
      | None =>
          let result :=
            match json r with
            | Some parsed => parsed
            | None => VDict [(KStr "content", VStr (text r));
                             (KStr "status_code", VInt (status_code r))]
            end in
          VDict [(KStr "success", VBool true);
                 (KStr "data", result);
                 (KStr "status_code", VInt (status_code r))]
      end
  | HTTPError msg status =>
      VDict [(KStr "success", VBool false);
             (KStr "error", VStr msg);
             (KStr "status_code", opt_int status)]
  | OtherError msg =>
      VDict [(KStr "success", VBool false);
             (KStr "error", VStr msg)]
  end.

(** [execute_tool(tool_name, arguments)] *)
Definition execute_tool {client : HttpClient} (self : extractor) (tool_name : string)
  (arguments : dict) : exc value :=
  match registry_get tool_name (tools self) with
  | None => Raise (ValueError ("Unknown tool: " ++ tool_name))
  | Some info =>
      rq <- build_request self info arguments ;;
      Ret (perform_request rq)
  end.

End mcp_server.

(** * [orion.py]: classes [Tool] and [Orion] *)

Module orion.

(** ** Tool catalog entry *)

Record Tool : Type := {
  name : string;
  description : value;
  input_schema : value
}.

(** One round of the loop of [format_for_llm]. *)
Definition describe_argument (schema : value) (lines : list string)
  (entry : key * value) : exc (list string) :=
  let (param_name, param_info) := entry in
  text <- py_get param_info "description" (VStr "No description") ;;
  let arg_desc := "- " ++ py_str (of_key param_name) ++ ": " ++ py_str text in
  required <- py_get schema "required" (VList []) ;;
  is_required <- py_in param_name required ;;
  let arg_desc := if is_required then arg_desc ++ " (required)" else arg_desc in
  Ret (lines ++ [arg_desc])%list.

(** [Tool.format_for_llm()] *)
Definition format_for_llm (self : Tool) : exc string :=
  has_properties <- py_in (KStr "properties") (input_schema self) ;;
  args_desc <-
    (if has_properties then
       properties <- py_getitem (input_schema self) "properties" ;;
       entries <- py_items properties ;;
       for_each (describe_argument (input_schema self)) [] entries
     else Ret []) ;;
  Ret (nl ++ "Tool: " ++ name self ++ nl
       ++ "Description: " ++ py_str (description self) ++ nl
       ++ "Arguments:" ++ nl
       ++ join nl args_desc ++ nl).

(** ** The agent *)

(** The fields of [Orion] that the loop reads: whether [self.session] and
    [self.llm] are set, and the catalog. *)
Record Orion : Type := {
  session : bool;
  tools : list Tool;
  llm : bool
}.

(** One part of a tool result: a part with a [text] attribute, or another
    part with its [str()]. *)
Inductive content_part : Type :=
| TextContent (text : string)
| OtherContent (str : string).

(** What [session.call_tool] returns: its [content] and its own [str()]. *)
Record call_tool_result : Type := {
  content : list content_part;
  result_str : string
}.

(** What [await self.session.call_tool(...)] does: it returns, or raises an
    exception whose [str()] is [msg]. *)
Inductive remote (A : Type) : Type :=
| Returned (a : A)
| Raised (msg : string).

Arguments Returned {A} a.
Arguments Raised {A} msg.

(** The calls that leave the process, in the order they are made. *)
Inductive event : Type :=
| Generate (prompt : string)
| CallTool (tool_name arguments : value).

Definition history : Type := list event.

(** The collaborators: the language model and the tool session answer from
    the calls made so far; [json.loads] and [json.dumps]. *)
Class Collaborators : Type := {
  llm_invoke : history -> string -> exc string;
  session_call_tool : history -> value -> value -> remote call_tool_result;
  json_loads : string -> exc value;
  json_dumps : value -> exc string
}.

(** A computation that may call out and may raise. *)
Definition turn (A : Type) : Type := history -> history * exc A.

Definition tret {A : Type} (a : A) : turn A := fun h => (h, Ret a).

Definition lift {A : Type} (m : exc A) : turn A := fun h => (h, m).

Definition tbind {A B : Type} (m : turn A) (f : A -> turn B) : turn B :=
  fun h =>
    let (h', r) := m h in
    match r with
    | Ret a => f a h'
    | Raise e => (h', Raise e)
    end.

Notation "x <~ m ;; k" := (tbind m (fun x => k))
  (at level 61, m at next level, right associativity).

(** [try: m except Exception: handler] *)
Definition try_except {A : Type} (m : turn A) (handler : exn -> turn A) : turn A :=
  fun h =>
    let (h', r) := m h in
    match r with
    | Ret a => (h', Ret a)
    | Raise e => handler e h'
    end.

(** [self.llm.invoke(prompt)] *)
Definition invoke {world : Collaborators} (prompt : string) : turn string :=
  fun h => ((h ++ [Generate prompt])%list, llm_invoke h prompt).

Definition tool_call_format : string :=
  nl ++ "To use a tool, respond with a JSON object in this format:" ++ nl
  ++ "{" ++ nl
  ++ "    " ++ dquote ++ "tool_call" ++ dquote ++ ": {" ++ nl
  ++ "        " ++ dquote ++ "name" ++ dquote ++ ": "
       ++ dquote ++ "tool_name" ++ dquote ++ "," ++ nl
  ++ "        " ++ dquote ++ "arguments" ++ dquote ++ ": {" ++ nl
  ++ "            " ++ dquote ++ "param1" ++ dquote ++ ": "
       ++ dquote ++ "value1" ++ dquote ++ "," ++ nl
  ++ "            " ++ dquote ++ "param2" ++ dquote ++ ": "
       ++ dquote ++ "value2" ++ dquote ++ nl
  ++ "        }" ++ nl
  ++ "    }" ++ nl
  ++ "}" ++ nl.

(** [_format_tools_for_prompt()] *)
Definition _format_tools_for_prompt (self : Orion) : exc string :=
  match tools self with
  | [] => Ret "No tools available."
  | _ =>
      tools_text <-
        for_each (fun acc tool => t <- format_for_llm tool ;; Ret (acc ++ t))
                 "Available tools:" (tools self) ;;
      Ret (tools_text ++ tool_call_format)
  end.

(** [call_tool(tool_name, arguments)] *)
Definition call_tool {world : Collaborators} (self : Orion) (tool_name arguments : value)
  : turn string :=
  fun h =>
    if negb (session self) then (h, Raise (RuntimeError "Session not initialized"))
    else
      let h' := (h ++ [CallTool tool_name arguments])%list in
      match session_call_tool h tool_name arguments with
      | Returned result =>
          match content result with
          | [] => (h', Ret (result_str result))
          | parts =>
              (h', Ret (join nl (map (fun c => match c with
                                               | TextContent t => t
                                               | OtherContent s => s
                                               end) parts)))
          end
      | Raised msg =>
          (h', Ret ("Error calling tool " ++ py_str tool_name ++ ": " ++ msg))
      end.

(** [_extract_tool_call(response)]; Python's [None] is [VNone]. *)
Definition _extract_tool_call {world : Collaborators} (response : string) : exc value :=
  let start := py_find "{" response in
  let end_ := py_rfind "}" response in
  let body :=
    if negb (start =? -1)%Z && negb (end_ =? -1)%Z then
      let json_str := py_slice response start (end_ + 1) in
      parsed <- json_loads json_str ;;
      has_call <- py_in (KStr "tool_call") parsed ;;
      if has_call then py_getitem parsed "tool_call" else Ret VNone
    else Ret VNone in
  match body with
  | Raise (JSONDecodeError _) => Ret VNone
  | r => r
  end.

Definition apology : string := "Sorry, something went wrong.".

Definition system_prompt_of (tools_text : string) : string :=
  "You are an awesome AI assistant with access to tools." ++ nl
  ++ nl
  ++ tools_text ++ nl
  ++ nl
  ++ "When you need to use a tool to answer a question, respond with the tool call JSON format shown above." ++ nl
  ++ "If you don't need tools, respond normally with a message." ++ nl.

Definition full_prompt_of (system_prompt query : string) : string :=
  system_prompt ++ nl ++ nl ++ "User: " ++ query ++ nl ++ nl ++ "Assistant:".

Definition follow_up_prompt_of (system_prompt query : string)
  (tool_name : value) (dumped tool_result : string) : string :=
  system_prompt ++ nl
  ++ nl
  ++ "User: " ++ query ++ nl
  ++ nl
  ++ "Tool call: " ++ py_str tool_name ++ "(" ++ dumped ++ ")" ++ nl
  ++ "Tool result: " ++ tool_result ++ nl
  ++ nl
  ++ "Now provide a natural language response to the user based on the tool result:"
  ++ nl.

(** The body of the [try] of [process_query]. *)
Definition attempt {world : Collaborators} (self : Orion) (system_prompt query : string)
  : turn string :=
  response <~ invoke (full_prompt_of system_prompt query) ;;
  tool_call <~ lift (_extract_tool_call response) ;;
  if truthy tool_call then
    tool_name <~ lift (py_get tool_call "name" VNone) ;;
    arguments <~ lift (py_get tool_call "arguments" (VDict [])) ;;
    tool_result <~ call_tool self tool_name arguments ;;
    dumped <~ lift (json_dumps arguments) ;;
    invoke (follow_up_prompt_of system_prompt query tool_name dumped tool_result)
  else tret response.

(** [process_query(query)] *)
Definition process_query {world : Collaborators} (self : Orion) (query : string)
  : turn string :=
  if negb (llm self) then tret "LLM not initialized. Connect to server first."
  else
    tools_text <~ lift (_format_tools_for_prompt self) ;;
    let system_prompt := system_prompt_of tools_text in
    try_except (attempt self system_prompt query) (fun _ => tret apology).

End orion.

(** * [orion_service.py]: class [OrionService] *)

Module orion_service.

(** Where a call of [chat] stands.  A call can be suspended at each [await]
    of the code; other calls run in between in any order. *)
Inductive pc : Type :=
| Waiting       (* at [async with self.lock], the lock not yet acquired *)
| Entered       (* in the block, before [if not self.connected] *)
| Connecting    (* in [await self.connect()] *)
| Querying      (* at [await self.orion.process_query(query)] *)
| CallingTool   (* in [await self.call_tool(...)] *)
| FollowingUp   (* before the follow-up generation *)
| Leaving       (* at the end of the block, the lock still held *)
| Finished.     (* out of the block *)

(** The service object and the calls in flight. *)
Record state : Type := {
  locked : bool;
  connected : bool;
  calls : nat -> pc
}.

(** What a call does in one step. *)
Inductive label : Type :=
| Acquire (i : nat)
| Internal (i : nat)
| Connect (i : nat)
| Generate (i : nat)
| CallTool (i : nat)
| Release (i : nat).

Definition set_call (i : nat) (p : pc) (calls : nat -> pc) : nat -> pc :=
  fun j => if Nat.eqb j i then p else calls j.

Definition move (s : state) (i : nat) (p : pc) : state :=
  {| locked := locked s; connected := connected s;
     calls := set_call i p (calls s) |}.

(** The steps of the call [i].  [asyncio.Lock] lets a call in only when the
    lock is free; the end of the [async with] block frees it, also when the
    block is left by an exception. *)
Inductive step : state -> label -> state -> Prop :=
| acquire s i :
    calls s i = Waiting -> locked s = false ->
    step s (Acquire i)
      {| locked := true; connected := connected s;
         calls := set_call i Entered (calls s) |}
| already_connected s i :
    calls s i = Entered -> connected s = true ->
    step s (Internal i) (move s i Querying)
| not_connected s i :
    calls s i = Entered -> connected s = false ->
    step s (Internal i) (move s i Connecting)
| connect_returns s i :
    calls s i = Connecting ->
    step s (Connect i)
      {| locked := locked s; connected := true;
         calls := set_call i Querying (calls s) |}
| connect_raises s i :
    calls s i = Connecting ->
    step s (Connect i) (move s i Leaving)
| query_without_generation s i :
    calls s i = Querying ->
    step s (Internal i) (move s i Leaving)
| generate_answer s i :
    calls s i = Querying ->
    step s (Generate i) (move s i Leaving)
| generate_tool_call s i :
    calls s i = Querying ->
    step s (Generate i) (move s i CallingTool)
| tool_returns s i :
    calls s i = CallingTool ->
    step s (CallTool i) (move s i FollowingUp)
| tool_raises s i :
    calls s i = CallingTool ->
    step s (Internal i) (move s i Leaving)
| generate_follow_up s i :
    calls s i = FollowingUp ->
    step s (Generate i) (move s i Leaving)
| release s i :
    calls s i = Leaving ->
    step s (Release i)
      {| locked := false; connected := connected s;
         calls := set_call i Finished (calls s) |}.

(** A run and the steps it took, the oldest first. *)
Inductive run : state -> list label -> state -> Prop :=
| run_nil s : run s [] s
| run_cons s l s' t s'' :
    step s l s' -> run s' t s'' -> run s (l :: t) s''.

(** All the calls are at the entry of [chat]. *)
Definition initial (is_connected : bool) : state :=
  {| locked := false; connected := is_connected; calls := fun _ => Waiting |}.

(** The call is inside the [async with] block. *)
Definition inside (p : pc) : bool :=
  match p with
  | Waiting | Finished => false
  | _ => true
  end.

End orion_service.

(** * Vocabulary of the statements *)

(** [r] is a key of the dictionary [properties]. *)
Definition is_property (properties : dict) (r : value) : bool :=
  match to_key r with
  | Ret k => dict_mem k properties
  | Raise _ => false
  end.

(** Every element of [schema['required']] is a key of
    [schema['properties']]. *)
Definition required_within_properties (schema : value) : bool :=
  match py_getitem schema "properties", py_getitem schema "required" with
  | Ret (VDict properties), Ret (VList required) =>
      forallb (is_property properties) required
  | _, _ => false
  end.

(** The schema of the JSON request body of an operation, where the code
    finds it. *)
Definition json_body_schema (operation : value) : exc value :=
  request_body <- py_getitem operation "requestBody" ;;
  content <- py_get request_body "content" (VDict []) ;;
  media <- py_getitem content "application/json" ;;
  py_get media "schema" (VDict []).

(** The [required] list of the JSON body schema names only properties of
    that schema. *)
Definition body_required_in_properties (operation : value) : Prop :=
  forall json_schema body_properties body_required names,
    json_body_schema operation = Ret json_schema ->
    py_getitem json_schema "properties" = Ret body_properties ->
    py_getitem json_schema "required" = Ret body_required ->
    py_iter body_required = Ret names ->
    exists d, body_properties = VDict d
              /\ forallb (is_property d) names = true.

(** The properties and the required names accumulated from the parameters and
    from the request body, before the code looks at the [required] mark of
    the body. *)
Definition accumulated (operation : value) : exc (dict * list value) :=
  parameters <- py_get operation "parameters" (VList []) ;;
  params <- py_iter parameters ;;
  st <- for_each mcp_server.parameter_step ([], []) params ;;
  request_body <- py_getitem operation "requestBody" ;;
  mcp_server.merge_request_body request_body st.

(** An input schema of the three keys [type], [properties], [required]. *)
Definition schema_of (properties : dict) (required : list value) : value :=
  VDict [(KStr "type", VStr "object");
         (KStr "properties", VDict properties);
         (KStr "required", VList required)].

(** The schemas held by the registry and by the returned tools are the ones
    [_extract_parameters] computes. *)
Definition extracted (st : mcp_server.registry * list mcp_server.mcp_types.Tool) : Prop :=
  (forall n info,
      In (n, info) (fst st) ->
      mcp_server._extract_parameters (mcp_server.operation info)
      = Ret (mcp_server.input_schema info))
  /\ (forall t,
        In t (snd st) ->
        exists operation,
          mcp_server._extract_parameters operation
          = Ret (mcp_server.mcp_types.inputSchema t)).

(** At most one call is inside the [async with] block, and none when the
    lock is free. *)
Definition exclusive (s : orion_service.state) : Prop :=
  (orion_service.locked s = false ->
   forall i, orion_service.inside (orion_service.calls s i) = false)
  /\ (forall i j,
        orion_service.inside (orion_service.calls s i) = true ->
        orion_service.inside (orion_service.calls s j) = true ->
        i = j).

(** The call that takes a step. *)
Definition actor (l : orion_service.label) : nat :=
  match l with
  | orion_service.Acquire i | orion_service.Internal i
  | orion_service.Connect i | orion_service.Generate i
  | orion_service.CallTool i | orion_service.Release i => i
  end.

(** The first call runs a whole turn with a tool call, then the second call
    enters. *)
Definition two_calls_trace : list orion_service.label :=
  [orion_service.Acquire 0; orion_service.Internal 0;
   orion_service.Generate 0; orion_service.CallTool 0;
   orion_service.Generate 0; orion_service.Release 0;
   orion_service.Acquire 1; orion_service.Internal 1].

(** The parameter has a name, and the name can be a dictionary key. *)
Definition well_named (p : value) : Prop :=
  exists n k, py_getitem p "name" = Ret n /\ to_key n = Ret k.

(** The parameter [p] is named [k]. *)
Definition named (p : value) (k : key) : Prop :=
  exists n, py_getitem p "name" = Ret n /\ key_eq_value k n = true.

(** The parameter [p] is declared [in: location]; [query] when it says
    nothing. *)
Definition located (p : value) (location : string) : Prop :=
  exists loc, py_get p "in" (VStr "query") = Ret loc
              /\ eq_str loc location = true.

(** The query parameters are values of the arguments. *)
Definition agrees (arguments params : dict) : Prop :=
  forall k v, dict_get k params = Some v -> dict_get k arguments = Some v.

(** ** Sample documents *)

Definition obj (fields : list (string * value)) : value :=
  VDict (map (fun kv => (KStr (fst kv), snd kv)) fields).

(** A required JSON body with the properties [a] and [b] and no [required]
    list of its own. *)
Definition op_required_body : value :=
  obj [("requestBody",
        obj [("required", VBool true);
             ("content",
              obj [("application/json",
                    obj [("schema",
                          obj [("properties",
                                obj [("a", obj [("type", VStr "integer")]);
                                     ("b", obj [("type", VStr "integer")])])])])])])].

(** A JSON body whose [required] list names [b], which is not one of its
    properties. *)
Definition op_dangling_required : value :=
  obj [("requestBody",
        obj [("content",
              obj [("application/json",
                    obj [("schema",
                          obj [("properties", obj [("a", obj [])]);
                               ("required", VList [VStr "b"])])])])])].

(** A required path parameter and a JSON body whose [required] list names one
    of its two properties. *)
Definition op_create_user : value :=
  obj [("parameters",
        VList [obj [("name", VStr "org"); ("in", VStr "path");
                    ("required", VBool true);
                    ("schema", obj [("type", VStr "string")])]]);
       ("requestBody",
        obj [("content",
              obj [("application/json",
                    obj [("schema",
                          obj [("properties",
                                obj [("name", obj [("type", VStr "string")]);
                                     ("email", obj [("type", VStr "string")])]);
                               ("required", VList [VStr "name"])])])])])].

(** [GET /users/{id}] with the declared query parameter [verbose]. *)
Definition op_get_user : value :=
  obj [("parameters",
        VList [obj [("name", VStr "verbose"); ("in", VStr "query")]])].

(** An extractor holding the one tool [get_user]. *)
Definition get_user_info : mcp_server.tool_info :=
  {| mcp_server.path := "/users/{id}";
     mcp_server.method := "GET";
     mcp_server.operation := op_get_user;
     mcp_server.input_schema := schema_of [(KStr "verbose", VDict [])] [] |}.

Definition sample_extractor : mcp_server.extractor :=
  {| mcp_server.base_url := VStr "http://api.test/";
     mcp_server.spec := VNone;
     mcp_server.tools := [("get_user", get_user_info)];
     mcp_server.token := VStr "secret" |}.

(** The same tool, served by an extractor without a configured base URL
    whose document has a [servers] entry without [url]. *)
Definition extractor_without_url : mcp_server.extractor :=
  {| mcp_server.base_url := VNone;
     mcp_server.spec := obj [("servers", VList [obj []])];
     mcp_server.tools := [("get_user", get_user_info)];
     mcp_server.token := VStr "secret" |}.

(** The arguments of the design document's example. *)
Definition get_user_arguments : dict :=
  [(KStr "id", VInt 42); (KStr "verbose", VBool true)].

(** A transport that cannot connect, and one that answers plain text. *)
Definition refusing_client : mcp_server.HttpClient :=
  {| mcp_server.client_request :=
       fun _ => mcp_server.HTTPError "All connection attempts failed" None |}.

Definition plain_text_client : mcp_server.HttpClient :=
  {| mcp_server.client_request :=
       fun _ => mcp_server.Responded
                  {| mcp_server.status_code := 200;
                     mcp_server.text := "pong";
                     mcp_server.raise_for_status := None;
                     mcp_server.json := None |} |}.

(** The text of a reply from its first opening brace to its last closing
    brace. *)
Definition between_braces (response : string) : string :=
  py_slice response (py_find "{" response) (py_rfind "}" response + 1).


(** ** Sample conversations *)

Definition quoted (s : string) : string := dquote ++ s ++ dquote.

Definition weather_arguments_json : string :=
  "{" ++ quoted "city" ++ ": " ++ quoted "Paris" ++ "}".

Definition weather_call_json : string :=
  "{" ++ quoted "tool_call" ++ ": {" ++ quoted "name" ++ ": "
  ++ quoted "get_weather" ++ ", " ++ quoted "arguments" ++ ": "
  ++ weather_arguments_json ++ "}}".

Definition weather_arguments : value := obj [("city", VStr "Paris")].

Definition weather_call : value :=
  obj [("tool_call",
        obj [("name", VStr "get_weather"); ("arguments", weather_arguments)])].

(** A JSON codec that knows the texts of the sample. *)
Definition sample_loads (s : string) : exc value :=
  if String.eqb s weather_call_json then Ret weather_call
  else Raise (JSONDecodeError "Expecting value").

Definition sample_dumps (v : value) : exc string :=
  Ret weather_arguments_json.

(** A model that first asks for the weather tool, with some prose after the
    JSON, and then words the tool result; a tool session that is down. *)
Definition session_down_world : orion.Collaborators :=
  {| orion.llm_invoke := fun h _ =>
       match h with
       | [] => Ret (weather_call_json ++ " Let me look that up.")
       | _ => Ret "I could not reach the weather service."
       end;
     orion.session_call_tool := fun _ _ _ => orion.Raised "Connection closed";
     orion.json_loads := sample_loads;
     orion.json_dumps := sample_dumps |}.

(** A model that answers by itself. *)
Definition plain_answer_world : orion.Collaborators :=
  {| orion.llm_invoke := fun _ _ => Ret "The answer is 5";
     orion.session_call_tool := fun _ _ _ => orion.Raised "not expected";
     orion.json_loads := sample_loads;
     orion.json_dumps := sample_dumps |}.

(** A model that is unreachable. *)
Definition model_down_world : orion.Collaborators :=
  {| orion.llm_invoke := fun _ _ => Raise (LibraryError "ConnectError" "refused");
     orion.session_call_tool := fun _ _ _ => orion.Raised "not expected";
     orion.json_loads := sample_loads;
     orion.json_dumps := sample_dumps |}.

(** A connected agent with an empty catalog. *)
Definition connected_agent : orion.Orion :=
  {| orion.session := true; orion.tools := []; orion.llm := true |}.

(** The prompts of a turn of [connected_agent]. *)
Definition sample_system_prompt : string :=
  orion.system_prompt_of "No tools available.".

(** The required names gathered so far are keys of the properties gathered
    so far. *)
Definition within (st : dict * list value) : Prop :=
  forallb (is_property (fst st)) (snd st) = true.

(** ** The walk over the document *)

(** The method, as a key of a path item, is one of the five that give a
    tool. *)
Definition is_eligible (method_key : key) : bool :=
  match method_key with
  | KStr m => existsb (String.eqb (py_upper m)) mcp_server.eligible_methods
  | _ => false
  end.

(** The operations of a path item, and of the paths of a document, that give
    a tool, in the order of the document. *)
Definition eligible_in (path_item : value) : list value :=
  match path_item with
  | VDict operations =>
      map snd (filter (fun entry => is_eligible (fst entry)) operations)
  | _ => []
  end.

Definition eligible_operations (entries : list (key * value)) : list value :=
  flat_map (fun entry => eligible_in (snd entry)) entries.

(** The name of a tool as the builder stores it. *)
Definition normalize (tool_name : string) : string :=
  py_lower (py_replace "-" "_" tool_name).

(** A name that the normalisation leaves alone: no upper-case letter and no
    hyphen. *)
Definition normalized (tool_name : string) : Prop :=
  py_lower tool_name = tool_name /\ str_contains "-" tool_name = false.

(** The registry holds one entry per name, and the names stored are the
    names of the tools returned. *)
Definition registry_matches (st : mcp_server.registry * list mcp_server.mcp_types.Tool)
  : Prop :=
  NoDup (map fst (fst st))
  /\ (forall t,
        In t (snd st) ->
        exists info,
          mcp_server.registry_get (mcp_server.mcp_types.name t) (fst st)
          = Some info)
  /\ (forall n info,
        In (n, info) (fst st) ->
        exists t,
          In t (snd st)
          /\ mcp_server.mcp_types.name t = n
          /\ mcp_server.mcp_types.inputSchema t = mcp_server.input_schema info).

(** A document with two operations of the same derived name, a method that
    gives no tool and an operation identified by a mixed-case name. *)
Definition sample_document : value :=
  obj [("paths",
        obj [("/users/{id}",
              obj [("get", obj [("operationId", VStr "Get-User")]);
                   ("options", obj []);
                   ("put", obj [("operationId", VStr "get_user");
                                ("parameters",
                                 VList [obj [("name", VStr "id");
                                             ("in", VStr "path");
                                             ("required", VBool true)]])])]);
             ("/health", obj [("get", obj [("summary", VStr "Ping")])])])].

(** ** The schema converter *)

(** The keys that the converter copies as they are, and all the keys it can
    put in a schema. *)
Definition plain_keys : list string :=
  ["type"; "description"; "enum"; "default"; "format"; "minimum"; "maximum"].

Definition converter_keys : list string := (plain_keys ++ ["items"])%list.

(** A parameter schema with a nested array and entries that the converter
    does not know. *)
Definition nested_array_schema : value :=
  obj [("type", VStr "array");
       ("style", VStr "form");
       ("items",
        obj [("type", VStr "array");
             ("items", obj [("type", VStr "integer"); ("minimum", VInt 0);
                            ("example", VInt 7)])])].

(** ** Parameters and body properties *)

(** The name [k] is listed in [required]. *)
Definition listed (required : list value) (k : key) : bool :=
  existsb (key_eq_value k) required.

(** The parameter [p] has its property in [properties], and its name in
    [required] when it is marked required. *)
Definition covered (properties : dict) (required : list value) (p : value)
  : Prop :=
  exists n k,
    py_getitem p "name" = Ret n
    /\ to_key n = Ret k
    /\ dict_mem k properties = true
    /\ (forall mark,
           py_get p "required" (VBool false) = Ret mark ->
           truthy mark = true ->
           listed required k = true).

(** The keys of the association list are pairwise different, as the keys of
    a dictionary are. *)
Fixpoint distinct_keys (d : dict) : bool :=
  match d with
  | [] => true
  | (k, _) :: r => negb (dict_mem k r) && distinct_keys r
  end.

(** A parameter and a body property of the same name. *)
Definition op_shadowed_parameter : value :=
  obj [("parameters",
        VList [obj [("name", VStr "name"); ("in", VStr "query");
                    ("required", VBool true);
                    ("schema", obj [("type", VStr "integer")])];
               obj [("name", VStr "page"); ("in", VStr "query")]]);
       ("requestBody",
        obj [("content",
              obj [("application/json",
                    obj [("schema",
                          obj [("properties",
                                obj [("name", obj [("type", VStr "string")]);
                                     ("email", VBool true)])])])])])].

(** ** The request *)

(** What the loop over the declared parameters keeps true of the headers:
    [Authorization] is there, with the bearer token unless an argument of
    this name was given, and every value is a string. *)
Definition headers_kept (bearer : string) (arguments headers : dict) : Prop :=
  dict_mem (KStr "Authorization") headers = true
  /\ (dict_get (KStr "Authorization") arguments = None ->
      dict_get (KStr "Authorization") headers = Some (VStr bearer))
  /\ (forall k v, dict_get k headers = Some v -> exists s, v = VStr s).

(** [POST /users/{id}/notes]: a query parameter, a header parameter and a
    request body. *)
Definition op_add_note : value :=
  obj [("parameters",
        VList [obj [("name", VStr "notify"); ("in", VStr "query")];
               obj [("name", VStr "X-Trace"); ("in", VStr "header")]]);
       ("requestBody", obj [("required", VBool true)])].

Definition add_note_info : mcp_server.tool_info :=
  {| mcp_server.path := "/users/{id}/notes";
     mcp_server.method := "POST";
     mcp_server.operation := op_add_note;
     mcp_server.input_schema :=
       schema_of [(KStr "notify", VDict []); (KStr "X-Trace", VDict [])]
         [VStr "notify"; VStr "X-Trace"] |}.

Definition add_note_arguments : dict :=
  [(KStr "id", VInt 7); (KStr "notify", VBool false);
   (KStr "X-Trace", VInt 12); (KStr "text", VStr "hello")].

(** ** The catalog and the turn *)

(** Every property is a dictionary, as the properties made from the declared
    parameters are. *)
Definition dict_valued (properties : dict) : Prop :=
  forall k v, In (k, v) properties -> exists d, v = VDict d.

(** The calls that one turn can add to the history: nothing, one generation,
    one generation and one tool call, or these and the follow-up
    generation. *)
Definition turn_shape (events : list orion.event) : bool :=
  match events with
  | [] => true
  | [orion.Generate _] => true
  | [orion.Generate _; orion.CallTool _ _] => true
  | [orion.Generate _; orion.CallTool _ _; orion.Generate _] => true
  | _ => false
  end.


(** The schema of the catalog entry was made by [_extract_parameters] from
    an operation without a request body. *)
Definition generated (t : orion.Tool) : Prop :=
  exists operation,
    mcp_server._extract_parameters operation = Ret (orion.input_schema t)
    /\ py_in (KStr "requestBody") operation = Ret false.

(** A connected agent whose catalog holds the tool of [op_get_user]. *)
Definition get_user_agent : orion.Orion :=
  {| orion.session := true;
     orion.tools :=
       [{| orion.name := "get_user";
           orion.description := VNone;
           orion.input_schema := schema_of [(KStr "verbose", VDict [])] [] |}];
     orion.llm := true |}.

(** A model that asks for the weather tool and then words the tool result; a
    tool session that answers with a text part and a part of another kind. *)
Definition weather_result : orion.call_tool_result :=
  {| orion.content := [orion.TextContent "18 C"; orion.OtherContent "<image>"];
     orion.result_str := "CallToolResult" |}.

Definition weather_world : orion.Collaborators :=
  {| orion.llm_invoke := fun h _ =>
       match h with
       | [] => Ret ("Sure. " ++ weather_call_json ++ " Let me look that up.")
       | _ => Ret "It is 18 degrees in Paris."
       end;
     orion.session_call_tool := fun _ _ _ => orion.Returned weather_result;
     orion.json_loads := sample_loads;
     orion.json_dumps := sample_dumps |}.

(** Replies whose [tool_call] is [null], and is a string. *)
Definition null_call_json : string :=
  "{" ++ quoted "tool_call" ++ ": null}".

Definition text_call_json : string :=
  "{" ++ quoted "tool_call" ++ ": " ++ quoted "get_weather" ++ "}".

Definition odd_loads (s : string) : exc value :=
  if String.eqb s null_call_json then Ret (obj [("tool_call", VNone)])
  else if String.eqb s text_call_json
       then Ret (obj [("tool_call", VStr "get_weather")])
       else Raise (JSONDecodeError "Expecting value").

Definition odd_call_world (reply : string) : orion.Collaborators :=
  {| orion.llm_invoke := fun _ _ => Ret reply;
     orion.session_call_tool := fun _ _ _ => orion.Raised "not expected";
     orion.json_loads := odd_loads;
     orion.json_dumps := sample_dumps |}.

(** ** The service *)

(** No call is in [await self.connect()]. *)
Definition settled (s : orion_service.state) : Prop :=
  orion_service.connected s = true
  /\ forall i, orion_service.calls s i <> orion_service.Connecting.

(** A [Connect] step of some call. *)
Definition is_connect (l : orion_service.label) : bool :=
  match l with
  | orion_service.Connect _ => true
  | _ => false
  end.

(** The steps by which the call at [p] leaves the block, when it is in it:
    the shortest way out, on which whatever is awaited raises. *)
Definition way_out (is_connected : bool) (i : nat) (p : orion_service.pc)
  : list orion_service.label :=
  match p with
  | orion_service.Waiting | orion_service.Finished => []
  | orion_service.Entered =>
      if is_connected
      then [orion_service.Internal i; orion_service.Internal i;
            orion_service.Release i]
      else [orion_service.Internal i; orion_service.Connect i;
            orion_service.Release i]
  | orion_service.Connecting =>
      [orion_service.Connect i; orion_service.Release i]
  | orion_service.Querying =>
      [orion_service.Internal i; orion_service.Release i]
  | orion_service.CallingTool =>
      [orion_service.Internal i; orion_service.Release i]
  | orion_service.FollowingUp =>
      [orion_service.Generate i; orion_service.Release i]
  | orion_service.Leaving => [orion_service.Release i]
  end.

(** ** From the document to the request *)

(** A document with one operation, and the extractor that serves it. *)
Definition notes_document : value :=
  obj [("paths",
        obj [("/users/{id}/notes", obj [("post", op_add_note)])])].

Definition notes_extractor : mcp_server.extractor :=
  {| mcp_server.base_url := VStr "http://api.test/";
     mcp_server.spec := notes_document;
     mcp_server.tools := [("post__users_id_notes", add_note_info)];
     mcp_server.token := VStr "secret" |}.

(** ** Tactics *)

Ltac ret_inv H := inversion H; subst; clear H.

Ltac step_cases H :=
  destruct H as
    [st who Hpc Hl | st who Hpc Hc | st who Hpc Hc | st who Hpc | st who Hpc
    | st who Hpc | st who Hpc | st who Hpc | st who Hpc | st who Hpc
    | st who Hpc | st who Hpc];
  simpl in *.

(** * Properties *)

(** ** The prelude on small inputs *)

Example py_str_int : py_str (VInt 42) = "42".
Proof. reflexivity. Qed.

Example py_str_neg : py_str (VInt (-7)) = "-7".
Proof. reflexivity. Qed.

Example py_str_list :
  py_str (VList [VInt 0; VStr "a'b"; VBool true; VDict [(KStr "k", VNone)]])
  = "[0, " ++ dquote ++ "a'b" ++ dquote ++ ", True, {'k': None}]".
Proof. reflexivity. Qed.

Example py_replace_all : py_replace "{id}" "42" "/u/{id}/x/{id}" = "/u/42/x/42".
Proof. reflexivity. Qed.

Example py_find_rfind :
  py_find "{" "a{b}c}" = 1%Z /\ py_rfind "}" "a{b}c}" = 5%Z
  /\ py_find "{" "abc" = (-1)%Z /\ py_rfind "}" "abc" = (-1)%Z
  /\ py_slice "a{b}c}d" 1 6 = "{b}c}" /\ py_slice "}a{" 2 1 = "".
Proof. repeat split; reflexivity. Qed.

Example rstrip_slash_ex : rstrip_slash "http://h/api//" = "http://h/api".
Proof. reflexivity. Qed.

(** ** Keys and dictionaries *)

Lemma key_eqb_refl (k : key) : key_eqb k k = true.
Proof.
  destruct k as [| b | z | s]; simpl.
  - reflexivity.
  - destruct b; reflexivity.
  - apply Z.eqb_refl.
  - apply String.eqb_refl.
Qed.

Lemma key_eqb_sym (a b : key) : key_eqb a b = key_eqb b a.
Proof.
  destruct a as [| x | x | x], b as [| y | y | y]; simpl;
    try reflexivity; try apply Z.eqb_sym; try apply String.eqb_sym.
Qed.

Lemma key_eqb_trans (a b c : key) :
  key_eqb a b = true -> key_eqb b c = true -> key_eqb a c = true.
Proof.
  destruct a as [| x | x | x], b as [| y | y | y], c as [| z | z | z];
    simpl; try discriminate; try reflexivity;
    rewrite ?Z.eqb_eq, ?String.eqb_eq; intros; subst; congruence.
Qed.

(** Two equal keys look up the same entry. *)
Lemma key_eqb_compat (a b c : key) :
  key_eqb a b = true -> key_eqb c a = key_eqb c b.
Proof.
  intros Hab.
  destruct (key_eqb c a) eqn:Hca, (key_eqb c b) eqn:Hcb; try reflexivity.
  - rewrite (key_eqb_trans c a b Hca Hab) in Hcb. discriminate.
  - rewrite key_eqb_sym in Hab.
    rewrite (key_eqb_trans c b a Hcb Hab) in Hca. discriminate.
Qed.

Lemma dict_get_set (k k' : key) (v : value) (d : dict) :
  dict_get k (dict_set k' v d) = if key_eqb k k' then Some v else dict_get k d.
Proof.
  induction d as [| [k0 v0] r IH]; simpl.
  - reflexivity.
  - destruct (key_eqb k' k0) eqn:E; simpl.
    + rewrite (key_eqb_compat k' k0 k E).
      destruct (key_eqb k k0); reflexivity.
    + rewrite IH. destruct (key_eqb k k0) eqn:E0; [| reflexivity].
      destruct (key_eqb k k') eqn:E1; [| reflexivity].
      rewrite key_eqb_sym in E1.
      rewrite (key_eqb_trans k' k k0 E1 E0) in E. discriminate.
Qed.

Lemma dict_mem_set (k k' : key) (v : value) (d : dict) :
  dict_mem k (dict_set k' v d) = key_eqb k k' || dict_mem k d.
Proof.
  unfold dict_mem. rewrite dict_get_set.
  destruct (key_eqb k k'); reflexivity.
Qed.

Lemma dict_mem_update (k : key) (other d : dict) :
  dict_mem k (dict_update d other) = dict_mem k d || dict_mem k other.
Proof.
  unfold dict_update. revert d.
  induction other as [| [k0 v0] r IH]; intros d; simpl.
  - unfold dict_mem at 3. simpl. now rewrite orb_false_r.
  - rewrite IH, dict_mem_set. unfold dict_mem at 4. simpl.
    destruct (key_eqb k k0); simpl.
    + now rewrite orb_true_r.
    + reflexivity.
Qed.

Lemma dict_mem_key (k : key) (d : dict) :
  In k (dict_keys d) -> dict_mem k d = true.
Proof.
  unfold dict_mem.
  induction d as [| [k0 v0] r IH]; simpl; intros H.
  - contradiction.
  - destruct H as [-> | H].
    + now rewrite key_eqb_refl.
    + destruct (key_eqb k k0); [reflexivity | now apply IH].
Qed.

Lemma to_key_of_key (k : key) : to_key (of_key k) = Ret k.
Proof. destruct k; reflexivity. Qed.

(** ** Loops *)

Lemma bind_ret_inv {A B : Type} (m : exc A) (f : A -> exc B) (b : B) :
  bind m f = Ret b -> exists a, m = Ret a /\ f a = Ret b.
Proof.
  destruct m as [a | e]; simpl; intros H.
  - now exists a.
  - discriminate.
Qed.

Ltac bind_inv H :=
  let a := fresh "x" in
  let Ha := fresh "E" in
  apply bind_ret_inv in H; destruct H as [a [Ha H]].

(** What every round preserves holds when the loop ends normally. *)
Lemma for_each_invariant {S A : Type} (P : S -> Prop)
  (step : S -> A -> exc S) (l : list A) :
  (forall st a st', In a l -> P st -> step st a = Ret st' -> P st') ->
  forall st st', P st -> for_each step st l = Ret st' -> P st'.
Proof.
  induction l as [| a r IH]; simpl; intros Hstep st st' HP H.
  - now inversion H; subst.
  - apply bind_ret_inv in H. destruct H as [st1 [H1 H2]].
    apply (IH (fun st a st' Hin => Hstep st a st' (or_intror Hin)) st1 st');
      [| exact H2].
    apply (Hstep st a st1); auto.
Qed.

(** ** The schema converter *)

(** The converter in the shape of the code: the entries copied as they are,
    then [schema['items'] = convert(param['items'])]. *)
Lemma _convert_eq (param : value) :
  mcp_server._convert_openapi_type_to_json_schema param
  = (schema <- mcp_server.copy_plain_keys param ;;
     b <- py_in (KStr "items") param ;;
     if b then
       x <- py_getitem param "items" ;;
       items <- mcp_server._convert_openapi_type_to_json_schema x ;;
       Ret (dict_set (KStr "items") (VDict items) schema)
     else Ret schema).
Proof.
  destruct param as [| b | z | str | l | d]; try reflexivity;
    cbn [mcp_server._convert_openapi_type_to_json_schema];
    (match goal with
     | |- context [mcp_server.copy_plain_keys ?v] =>
         destruct (mcp_server.copy_plain_keys v) as [schema |];
         [| reflexivity]
     end);
    cbn [bind];
    (match goal with
     | |- context [py_in ?k ?v] => destruct (py_in k v) as [[|] |]
     end);
    try reflexivity.
  cbn [bind py_getitem]. clear.
  induction d as [| [k x] r IH].
  - reflexivity.
  - cbn [dict_get]. destruct (key_eqb (KStr "items") k).
    + reflexivity.
    + exact IH.
Qed.

(** An array of integers keeps its item type and loses what the converter
    does not know. *)
Example convert_array :
  mcp_server._convert_openapi_type_to_json_schema
    (obj [("type", VStr "array"); ("explode", VBool true);
          ("items", obj [("type", VStr "integer"); ("minimum", VInt 1);
                         ("title", VStr "n")])])
  = Ret [(KStr "type", VStr "array");
         (KStr "items", VDict [(KStr "type", VStr "integer");
                               (KStr "minimum", VInt 1)])].
Proof. reflexivity. Qed.

(** ** The input schema of an operation *)

Lemma is_property_set (k : key) (v r : value) (d : dict) :
  is_property d r = true -> is_property (dict_set k v d) r = true.
Proof.
  unfold is_property. destruct (to_key r); [| discriminate].
  rewrite dict_mem_set. intros ->. apply orb_true_r.
Qed.

Lemma is_property_update (other d : dict) (r : value) :
  is_property d r = true \/ is_property other r = true ->
  is_property (dict_update d other) r = true.
Proof.
  unfold is_property. destruct (to_key r).
  - rewrite dict_mem_update. intros [-> | ->]; auto using orb_true_r.
  - intros [H | H]; discriminate.
Qed.

Lemma forallb_impl {A : Type} (f g : A -> bool) (l : list A) :
  (forall a, f a = true -> g a = true) ->
  forallb f l = true -> forallb g l = true.
Proof.
  intros Hfg. rewrite !forallb_forall. auto.
Qed.

Lemma parameter_step_within (st st' : dict * list value) (param : value) :
  within st -> mcp_server.parameter_step st param = Ret st' -> within st'.
Proof.
  unfold within, mcp_server.parameter_step.
  destruct st as [properties required]; simpl. intros Hin H.
  bind_inv H. bind_inv H. bind_inv H. bind_inv H. bind_inv H. ret_inv H. simpl.
  assert (Hold : forallb (is_property
                   (dict_set x2 (VDict x1) properties)) required = true).
  { revert Hin. apply forallb_impl. intros a. apply is_property_set. }
  destruct (truthy x3); [| exact Hold].
  rewrite forallb_app, Hold. simpl.
  unfold is_property. rewrite E2, dict_mem_set, key_eqb_refl. reflexivity.
Qed.

Lemma update_from_pairs_mono (r : value) (elems : list value) :
  forall (i : nat) (d d' : dict),
    update_from_pairs i d elems = Ret d' ->
    is_property d r = true -> is_property d' r = true.
Proof.
  induction elems as [| e rest IH]; simpl; intros i d d' H Hr.
  - now ret_inv H.
  - bind_inv H.
    destruct x as [| k [| v [| ? ?]]]; try discriminate.
    bind_inv H. apply (IH _ _ _ H). now apply is_property_set.
Qed.

(** [update] only adds keys. *)
Lemma py_update_mono (r other : value) (d d' : dict) :
  py_update d other = Ret d' ->
  is_property d r = true -> is_property d' r = true.
Proof.
  unfold py_update. intros H Hr.
  destruct other as [| b | z | str | l | o];
    try (bind_inv H; now apply (update_from_pairs_mono r _ _ _ _ H)).
  ret_inv H. apply is_property_update. now left.
Qed.

Lemma merge_json_body_within (content : value) (st st' : dict * list value) :
  (forall media json_schema body_properties body_required names,
      py_getitem content "application/json" = Ret media ->
      py_get media "schema" (VDict []) = Ret json_schema ->
      py_getitem json_schema "properties" = Ret body_properties ->
      py_getitem json_schema "required" = Ret body_required ->
      py_iter body_required = Ret names ->
      exists d, body_properties = VDict d
                /\ forallb (is_property d) names = true) ->
  within st -> mcp_server.merge_json_body content st = Ret st' -> within st'.
Proof.
  unfold within, mcp_server.merge_json_body.
  destruct st as [properties required]; simpl.
  intros Hbody Hin H.
  bind_inv H. bind_inv H.
  bind_inv H. destruct x1; [| now ret_inv H].
  bind_inv H. bind_inv H. bind_inv H.
  assert (Hold : forallb (is_property x2) required = true).
  { revert Hin. apply forallb_impl. intros a. now apply py_update_mono with x1. }
  destruct x3.
  - bind_inv H. bind_inv H. ret_inv H. simpl.
    destruct (Hbody x x0 x1 x3 x4 E E0 E2 E5 E6) as [d [-> Hnames]].
    rewrite forallb_app, Hold. simpl in E3. ret_inv E3. simpl.
    revert Hnames. apply forallb_impl. intros a Ha.
    apply is_property_update. now right.
  - now ret_inv H.
Qed.

Lemma require_everything_within (request_body : value)
  (st st' : dict * list value) :
  within st -> mcp_server.require_everything request_body st = Ret st' ->
  within st'.
Proof.
  unfold within, mcp_server.require_everything.
  destruct st as [properties required]; simpl. intros Hin H.
  bind_inv H.
  match type of H with
  | (if ?c then _ else _) = _ => destruct c
  end; ret_inv H; simpl.
  - apply forallb_forall. intros r Hr.
    apply in_map_iff in Hr. destruct Hr as [k [<- Hk]].
    unfold is_property. rewrite to_key_of_key. now apply dict_mem_key.
  - exact Hin.
Qed.

Lemma for_each_parameters_within (params : list value)
  (st : dict * list value) :
  for_each mcp_server.parameter_step ([], []) params = Ret st -> within st.
Proof.
  apply (for_each_invariant within).
  - intros s a s' _. apply parameter_step_within.
  - reflexivity.
Qed.

(** The result of [_extract_parameters], whenever it returns, is the
    dictionary built from a final pair of properties and required names. *)
Lemma _extract_parameters_inv (operation schema : value) :
  mcp_server._extract_parameters operation = Ret schema ->
  exists params st0 st,
    for_each mcp_server.parameter_step ([], []) params = Ret st0
    /\ schema = mcp_server.make_input_schema st
    /\ ((py_in (KStr "requestBody") operation = Ret false /\ st = st0)
        \/ exists request_body,
             py_in (KStr "requestBody") operation = Ret true
             /\ py_getitem operation "requestBody" = Ret request_body
             /\ mcp_server.handle_request_body request_body st0 = Ret st).
Proof.
  unfold mcp_server._extract_parameters. intros H.
  bind_inv H. bind_inv H. bind_inv H. bind_inv H. bind_inv H. ret_inv H.
  exists x0, x1, x3. split; [exact E1 |]. split; [reflexivity |].
  destruct x2.
  - right. bind_inv E3. exists x2. auto.
  - left. ret_inv E3. auto.
Qed.

(** C3, as amended: the names of [required] are keys of [properties] for
    every operation whose JSON body schema lists as required only properties
    of its own (an operation without a JSON body schema is one of them). *)
Theorem required_names_are_properties (operation schema : value) :
  body_required_in_properties operation ->
  mcp_server._extract_parameters operation = Ret schema ->
  required_within_properties schema = true.
Proof.
  intros Hbody H.
  destruct (_extract_parameters_inv _ _ H) as [params [st0 [st [H0 [-> Hst]]]]].
  assert (W0 : within st0) by exact (for_each_parameters_within _ _ H0).
  assert (W : within st); [| exact W].
  destruct Hst as [[_ ->] | [request_body [_ [Hrb Hh]]]]; [exact W0 |].
  unfold mcp_server.handle_request_body in Hh. bind_inv Hh.
  apply (require_everything_within request_body x); [| exact Hh].
  unfold mcp_server.merge_request_body in E. bind_inv E. bind_inv E.
  destruct x1; [| now ret_inv E].
  apply (merge_json_body_within x0 st0); [| exact W0 | exact E].
  intros media json_schema bp br names Hm Hs Hp Hr Hn.
  apply (Hbody json_schema bp br names); try assumption.
  unfold json_body_schema. rewrite Hrb. simpl. rewrite E0. simpl.
  rewrite Hm. simpl. exact Hs.
Qed.

Lemma op_create_user_body : body_required_in_properties op_create_user.
Proof.
  intros json_schema bp br names H1 H2 H3 H4.
  vm_compute in H1. ret_inv H1.
  vm_compute in H2. ret_inv H2.
  vm_compute in H3. ret_inv H3.
  vm_compute in H4. ret_inv H4.
  eexists. split; reflexivity.
Defined.

Lemma required_names_are_properties_witness :
  required_within_properties
    (schema_of [(KStr "org", obj [("type", VStr "string")]);
                (KStr "name", obj [("type", VStr "string")]);
                (KStr "email", obj [("type", VStr "string")])]
               [VStr "org"; VStr "name"]) = true.
Proof.
  apply (required_names_are_properties op_create_user).
  - exact op_create_user_body.
  - reflexivity.
Defined.

(** C3, as stated, fails: a body schema may list as required a name that is
    not among the properties. *)
Lemma required_name_outside_properties :
  mcp_server._extract_parameters op_dangling_required
  = Ret (schema_of [(KStr "a", VDict [])] [VStr "b"])
  /\ required_within_properties
       (schema_of [(KStr "a", VDict [])] [VStr "b"]) = false.
Proof. split; reflexivity. Qed.

(** C9: whenever the registry builder produces the input schema of an
    operation, it is a dictionary of exactly the keys [type] (always
    ["object"]), [properties] and [required], in this order, empty or not. *)
Theorem input_schema_has_three_keys (operation schema : value) :
  mcp_server._extract_parameters operation = Ret schema ->
  exists properties required,
    schema = VDict [(KStr "type", VStr "object");
                    (KStr "properties", VDict properties);
                    (KStr "required", VList required)].
Proof.
  intros H.
  destruct (_extract_parameters_inv _ _ H) as [_ [_ [[properties required] [_ [-> _]]]]].
  now exists properties, required.
Qed.

Lemma input_schema_has_three_keys_witness :
  exists properties required,
    schema_of [] [] = VDict [(KStr "type", VStr "object");
                              (KStr "properties", VDict properties);
                              (KStr "required", VList required)].
Proof.
  apply (input_schema_has_three_keys (VDict [])). reflexivity.
Defined.

(** The schema of an operation without parameters and without a body keeps
    its two empty entries. *)
Example input_schema_of_bare_operation :
  mcp_server._extract_parameters (obj [("summary", VStr "ping")])
  = Ret (schema_of [] []).
Proof. reflexivity. Qed.

(** C5: when the request body is marked required and the required list
    accumulated from the parameters and the body schema is empty, the
    required list of the built schema is the list of all property names. *)
Theorem required_body_requires_every_property
  (operation request_body mark : value) (properties : dict) :
  py_getitem operation "requestBody" = Ret request_body ->
  py_get request_body "required" (VBool false) = Ret mark ->
  truthy mark = true ->
  accumulated operation = Ret (properties, []) ->
  mcp_server._extract_parameters operation
  = Ret (schema_of properties (map of_key (dict_keys properties))).
Proof.
  intros Hrb Hmark Htrue Hacc.
  unfold accumulated in Hacc.
  bind_inv Hacc. bind_inv Hacc. bind_inv Hacc. bind_inv Hacc.
  rewrite Hrb in E2. ret_inv E2.
  unfold mcp_server._extract_parameters.
  rewrite E. simpl. rewrite E0. simpl. rewrite E1. simpl.
  assert (Hin : py_in (KStr "requestBody") operation = Ret true).
  { destruct operation; try discriminate. simpl in *. unfold dict_mem.
    destruct (dict_get (KStr "requestBody") d); [reflexivity | discriminate]. }
  rewrite Hin. simpl. rewrite Hrb. simpl.
  unfold mcp_server.handle_request_body. rewrite Hacc. simpl.
  rewrite Hmark. simpl. rewrite Htrue. reflexivity.
Qed.

(** The operation of the design document: a required body with the
    properties [a] and [b] and no [required] list gets [required = [a, b]]. *)
Lemma required_body_requires_every_property_witness :
  mcp_server._extract_parameters op_required_body
  = Ret (schema_of [(KStr "a", obj [("type", VStr "integer")]);
                    (KStr "b", obj [("type", VStr "integer")])]
                   [VStr "a"; VStr "b"]).
Proof.
  refine (required_body_requires_every_property op_required_body _ (VBool true)
            [(KStr "a", obj [("type", VStr "integer")]);
             (KStr "b", obj [("type", VStr "integer")])] _ _ _ _);
    reflexivity.
Defined.

(** A body that is not marked required leaves the accumulated list alone. *)
Example optional_body_keeps_required_empty :
  mcp_server._extract_parameters
    (obj [("requestBody",
           obj [("content",
                 obj [("application/json",
                       obj [("schema",
                             obj [("properties", obj [("a", obj [])])])])])])])
  = Ret (schema_of [(KStr "a", VDict [])] []).
Proof. reflexivity. Qed.

(** ** The registry *)

Lemma registry_set_in (k n : string) (t info : mcp_server.tool_info)
  (r : mcp_server.registry) :
  In (n, info) (mcp_server.registry_set k t r) ->
  In (n, info) r \/ info = t.
Proof.
  induction r as [| [k' t'] r' IH]; simpl.
  - intros [H | []]. ret_inv H. now right.
  - destruct (String.eqb k k'); simpl.
    + intros [H | H]; [ret_inv H; now right | left; now right].
    + intros [H | H]; [left; now left |].
      destruct (IH H) as [H' | H']; [left; now right | now right].
Qed.

Lemma operation_step_extracted (path_key : key)
  (st st' : mcp_server.registry * list mcp_server.mcp_types.Tool) (entry : key * value) :
  extracted st -> mcp_server.operation_step path_key st entry = Ret st' ->
  extracted st'.
Proof.
  unfold mcp_server.operation_step.
  destruct entry as [method_key operation], st as [tools out].
  intros [Hreg Hout] H. bind_inv H.
  match type of H with
  | (if ?c then _ else _) = _ => destruct c
  end; [ret_inv H; now split |].
  bind_inv H. bind_inv H. bind_inv H. bind_inv H. bind_inv H. bind_inv H.
  bind_inv H. ret_inv H.
  assert (Hschema : mcp_server.mcp_types.inputSchema x6 = x5).
  { unfold mcp_server.make_Tool in E6.
    destruct x4; try discriminate; now ret_inv E6. }
  split; simpl.
  - intros n info Hin. apply registry_set_in in Hin.
    destruct Hin as [Hin | ->]; [now apply (Hreg n) | exact E5].
  - intros t Hin. apply in_app_or in Hin.
    destruct Hin as [Hin | [<- | []]]; [now apply Hout |].
    exists operation. now rewrite Hschema.
Qed.

(** Every schema that [extract_tools] stores or returns comes from
    [_extract_parameters]. *)
Lemma extract_tools_extracted (spec : value)
  (st : mcp_server.registry * list mcp_server.mcp_types.Tool) :
  mcp_server.extract_tools spec [] = Ret st -> extracted st.
Proof.
  unfold mcp_server.extract_tools. intros H. bind_inv H. bind_inv H.
  revert H. apply (for_each_invariant extracted).
  - intros s [path_key path_item] s' _ Hs Hstep.
    unfold mcp_server.path_step in Hstep. bind_inv Hstep.
    revert Hstep. apply (for_each_invariant extracted); [| exact Hs].
    intros s0 entry s1 _. apply operation_step_extracted.
  - split; simpl; intros; contradiction.
Qed.

(** Every descriptor that the registry builder generates from a document,
    stored or returned, has a schema of the three keys. *)
Corollary generated_schemas_have_three_keys (spec : value)
  (reg : mcp_server.registry) (out : list mcp_server.mcp_types.Tool) :
  mcp_server.extract_tools spec [] = Ret (reg, out) ->
  (forall n info,
      In (n, info) reg ->
      exists properties required,
        mcp_server.input_schema info = schema_of properties required)
  /\ (forall t,
        In t out ->
        exists properties required,
          mcp_server.mcp_types.inputSchema t = schema_of properties required).
Proof.
  intros H. destruct (extract_tools_extracted _ _ H) as [Hreg Hout].
  simpl in Hreg, Hout. split.
  - intros n info Hin.
    destruct (_extract_parameters_inv _ _ (Hreg n info Hin))
      as [_ [_ [[properties required] [_ [-> _]]]]].
    now exists properties, required.
  - intros t Hin. destruct (Hout t Hin) as [operation Hop].
    destruct (_extract_parameters_inv _ _ Hop)
      as [_ [_ [[properties required] [_ [-> _]]]]].
    now exists properties, required.
Qed.

(** ** The tool executor *)

(** C1, as amended: for a name that is absent from the registry
    [execute_tool] raises [ValueError("Unknown tool: <name>")], before any
    request is built or sent. *)
Theorem unknown_tool_raises {client : mcp_server.HttpClient}
  (self : mcp_server.extractor) (tool_name : string) (arguments : dict) :
  mcp_server.registry_get tool_name (mcp_server.tools self) = None ->
  mcp_server.execute_tool self tool_name arguments
  = Raise (ValueError ("Unknown tool: " ++ tool_name)).
Proof.
  intros H. unfold mcp_server.execute_tool. now rewrite H.
Qed.

Lemma unknown_tool_raises_witness :
  mcp_server.execute_tool (client := plain_text_client)
    sample_extractor "get_weather" [(KStr "city", VStr "Paris")]
  = Raise (ValueError "Unknown tool: get_weather").
Proof.
  apply (unknown_tool_raises (client := plain_text_client)
           sample_extractor "get_weather").
  reflexivity.
Defined.

(** C1, as stated, fails: the call on an unknown name returns no result at
    all, it raises. *)
Lemma unknown_tool_returns_no_result :
  ~ exists result,
      mcp_server.execute_tool (client := plain_text_client)
        sample_extractor "get_weather" [] = Ret result.
Proof.
  intros [result H]. vm_compute in H. discriminate.
Qed.

(** *** Building the request of a registered tool *)

Lemma parameters_well_named (ps : list value) :
  forall st st',
    for_each mcp_server.parameter_step st ps = Ret st' ->
    Forall well_named ps.
Proof.
  induction ps as [| p r IH]; simpl; intros st st' H.
  - constructor.
  - bind_inv H. constructor; [| now apply (IH x st')].
    unfold mcp_server.parameter_step in E. destruct st as [properties required].
    bind_inv E. bind_inv E. bind_inv E. bind_inv E.
    now exists x0, x3.
Qed.

Lemma place_parameters_return (arguments : dict) (ps : list value) :
  Forall well_named ps ->
  forall st, exists st',
    for_each (mcp_server.place_parameter arguments) st ps = Ret st'.
Proof.
  induction 1 as [| p r [n [k [Hn Hk]]] _ IH]; simpl; intros st.
  - now exists st.
  - assert (Hstep : exists st1,
               mcp_server.place_parameter arguments st p = Ret st1).
    { unfold mcp_server.place_parameter. destruct st as [params headers].
      rewrite Hn. simpl. rewrite Hk. simpl.
      destruct (dict_get k arguments) as [argument |]; [| now eexists].
      destruct p; try discriminate. simpl.
      destruct (dict_get (KStr "in") d); simpl;
        repeat match goal with
               | |- context [if ?c then _ else _] => destruct c
               end; now eexists. }
    destruct Hstep as [st1 ->]. simpl. apply IH.
Qed.

Lemma declared_returns (k : key) (ps : list value) :
  Forall well_named ps -> exists b, mcp_server.declared k ps = Ret b.
Proof.
  induction 1 as [| p r [n [k' [Hn _]]] _ IH]; simpl.
  - now eexists.
  - rewrite Hn. simpl. destruct (key_eq_value k n); [now eexists | exact IH].
Qed.

Lemma remaining_args_return (parameters : value) (ps : list value)
  (arguments : dict) :
  py_iter parameters = Ret ps -> Forall well_named ps ->
  exists body, mcp_server.remaining_args parameters arguments = Ret body.
Proof.
  intros Hps Hwf. induction arguments as [| [k v] r [body IH]]; simpl.
  - now eexists.
  - rewrite Hps. simpl.
    destruct (declared_returns k ps Hwf) as [b ->]. simpl.
    rewrite IH. simpl. now eexists.
Qed.

(** For an operation that went through [_extract_parameters], as every
    operation of the registry did, the request is built without an exception
    as soon as the base URL is a string. *)
Lemma build_request_returns (self : mcp_server.extractor)
  (info : mcp_server.tool_info) (arguments : dict) (schema : value)
  (base : string) :
  mcp_server._extract_parameters (mcp_server.operation info) = Ret schema ->
  bind (mcp_server._get_base_url self) as_str = Ret base ->
  exists rq, mcp_server.build_request self info arguments = Ret rq.
Proof.
  intros Hop Hbase. unfold mcp_server._extract_parameters in Hop.
  bind_inv Hop. bind_inv Hop. bind_inv Hop. bind_inv Hop.
  assert (Hwf : Forall well_named x0) by exact (parameters_well_named _ _ _ E1).
  unfold mcp_server.build_request.
  bind_inv Hbase. rewrite E3. cbn [bind]. rewrite Hbase. cbn [bind].
  rewrite E. cbn [bind]. rewrite E0. cbn [bind].
  destruct (place_parameters_return arguments x0 Hwf
              ([], [(KStr "Authorization",
                     VStr ("Bearer " ++ py_str (mcp_server.token self)))]))
    as [[params headers] ->].
  cbn [bind]. rewrite E2. cbn [bind]. destruct x2.
  - cbn [bind].
    destruct (remaining_args_return x x0 arguments E0 Hwf) as [body ->].
    cbn [bind]. now eexists.
  - cbn [bind]. now eexists.
Qed.

(** C7, as amended: for a tool of the registry, whose operation went through
    [_extract_parameters], and a base URL that resolves to a string, the
    request is built and nothing raised by it leaves [execute_tool]: an
    [httpx.HTTPError] gives a failure with the message and the status code
    if there is one, any other exception a failure with the message and no
    [status_code] entry, and a body that is not JSON a success whose data
    hold the raw text and the status code. *)
Theorem request_failures_become_results {client : mcp_server.HttpClient}
  (self : mcp_server.extractor) (tool_name : string) (arguments : dict)
  (info : mcp_server.tool_info) (base : string) :
  mcp_server.registry_get tool_name (mcp_server.tools self) = Some info ->
  mcp_server._extract_parameters (mcp_server.operation info)
  = Ret (mcp_server.input_schema info) ->
  bind (mcp_server._get_base_url self) as_str = Ret base ->
  exists rq,
    mcp_server.build_request self info arguments = Ret rq
    /\ (exists result,
          mcp_server.execute_tool self tool_name arguments = Ret result)
    /\ (forall msg status,
          mcp_server.client_request rq = mcp_server.HTTPError msg status ->
          mcp_server.execute_tool self tool_name arguments
          = Ret (VDict [(KStr "success", VBool false);
                        (KStr "error", VStr msg);
                        (KStr "status_code", mcp_server.opt_int status)]))
    /\ (forall r msg,
          mcp_server.client_request rq = mcp_server.Responded r ->
          mcp_server.raise_for_status r = Some msg ->
          mcp_server.execute_tool self tool_name arguments
          = Ret (VDict [(KStr "success", VBool false);
                        (KStr "error", VStr msg);
                        (KStr "status_code",
                         VInt (mcp_server.status_code r))]))
    /\ (forall msg,
          mcp_server.client_request rq = mcp_server.OtherError msg ->
          mcp_server.execute_tool self tool_name arguments
          = Ret (VDict [(KStr "success", VBool false);
                        (KStr "error", VStr msg)]))
    /\ (forall r,
          mcp_server.client_request rq = mcp_server.Responded r ->
          mcp_server.raise_for_status r = None ->
          mcp_server.json r = None ->
          mcp_server.execute_tool self tool_name arguments
          = Ret (VDict [(KStr "success", VBool true);
                        (KStr "data",
                         VDict [(KStr "content", VStr (mcp_server.text r));
                                (KStr "status_code",
                                 VInt (mcp_server.status_code r))]);
                        (KStr "status_code",
                         VInt (mcp_server.status_code r))])).
Proof.
  intros Hinfo Hop Hbase.
  destruct (build_request_returns self info arguments _ base Hop Hbase)
    as [rq Hrq].
  exists rq. split; [exact Hrq |].
  unfold mcp_server.execute_tool.
  rewrite Hinfo, Hrq. simpl. unfold mcp_server.perform_request.
  repeat split.
  - eexists. reflexivity.
  - intros msg status ->. reflexivity.
  - intros r msg -> ->. reflexivity.
  - intros msg ->. reflexivity.
  - intros r -> -> ->. reflexivity.
Qed.

Lemma request_failures_become_results_witness :
  mcp_server.execute_tool (client := refusing_client)
    sample_extractor "get_user" get_user_arguments
  = Ret (VDict [(KStr "success", VBool false);
                (KStr "error", VStr "All connection attempts failed");
                (KStr "status_code", VNone)]).
Proof.
  destruct (request_failures_become_results (client := refusing_client)
              sample_extractor "get_user" get_user_arguments get_user_info
              "http://api.test/" eq_refl eq_refl eq_refl)
    as [rq [_ [_ [H _]]]].
  apply (H "All connection attempts failed" None). reflexivity.
Defined.

(** C7, as stated, fails: what is raised before the [try] is not turned
    into a result.  For a registered tool, when the base URL has to come from
    a [servers] entry that has no [url], [execute_tool] raises [KeyError]. *)
Lemma base_url_failure_leaves_the_executor :
  mcp_server.registry_get "get_user" (mcp_server.tools extractor_without_url)
  = Some get_user_info
  /\ mcp_server._extract_parameters (mcp_server.operation get_user_info)
     = Ret (mcp_server.input_schema get_user_info)
  /\ mcp_server._get_base_url extractor_without_url = Raise (KeyError "url")
  /\ mcp_server.execute_tool (client := plain_text_client)
       extractor_without_url "get_user" get_user_arguments
     = Raise (KeyError "url").
Proof. repeat split; reflexivity. Qed.

(** A reply that is not JSON comes back as text with its status code. *)
Example plain_text_reply :
  mcp_server.execute_tool (client := plain_text_client)
    sample_extractor "get_user" get_user_arguments
  = Ret (VDict [(KStr "success", VBool true);
                (KStr "data", VDict [(KStr "content", VStr "pong");
                                     (KStr "status_code", VInt 200)]);
                (KStr "status_code", VInt 200)]).
Proof. reflexivity. Qed.

(** ** Placement of the arguments *)

Lemma dict_get_compat (a b : key) (d : dict) :
  key_eqb a b = true -> dict_get a d = dict_get b d.
Proof.
  intros Hab. induction d as [| [k v] r IH]; simpl.
  - reflexivity.
  - rewrite (key_eqb_sym a k), (key_eqb_sym b k), (key_eqb_compat a b k Hab).
    now rewrite IH.
Qed.

Lemma place_parameter_query (arguments : dict) (st st' : dict * dict)
  (p : value) :
  agrees arguments (fst st) ->
  mcp_server.place_parameter arguments st p = Ret st' ->
  agrees arguments (fst st')
  /\ forall k v,
       dict_get k (fst st') = Some v <->
       dict_get k (fst st) = Some v
       \/ (dict_get k arguments = Some v /\ named p k /\ located p "query").
Proof.
  unfold mcp_server.place_parameter.
  destruct st as [params headers]; simpl. intros Hag H.
  bind_inv H. bind_inv H.
  assert (Hnamed : forall k, named p k <-> key_eqb k x0 = true).
  { intros k. unfold named, key_eq_value. split.
    - intros [n [Hn Hk]]. rewrite E in Hn. ret_inv Hn. now rewrite E0 in Hk.
    - intros Hk. exists x. now rewrite E0. }
  assert (Hsame : forall st0, st0 = (params, headers) ->
            agrees arguments (fst st0)
            /\ (located p "query" -> dict_get x0 arguments = None) ->
            agrees arguments (fst st0)
            /\ forall k v,
                 dict_get k (fst st0) = Some v <->
                 dict_get k params = Some v
                 \/ (dict_get k arguments = Some v /\ named p k
                     /\ located p "query")).
  { intros st0 -> [Ha Hnone]. split; [exact Ha |]. simpl. intros k v. split.
    - now left.
    - intros [Hk | [Hk [Hn Hl]]]; [exact Hk |].
      apply Hnamed in Hn. rewrite (dict_get_compat k x0 _ Hn) in Hk.
      rewrite (Hnone Hl) in Hk. discriminate. }
  destruct (dict_get x0 arguments) as [argument |] eqn:Harg.
  - bind_inv H.
    assert (Hloc : forall location,
               located p location <-> eq_str x1 location = true).
    { intros location. unfold located. split.
      - intros [loc [Hl He]]. rewrite E1 in Hl. now ret_inv Hl.
      - intros He. now exists x1. }
    destruct (eq_str x1 "query") eqn:Hq.
    + ret_inv H. simpl. split.
      * intros k v. rewrite dict_get_set.
        destruct (key_eqb k x0) eqn:Hk.
        -- intros Hv. ret_inv Hv. now rewrite (dict_get_compat k x0 _ Hk).
        -- apply Hag.
      * intros k v. rewrite dict_get_set.
        destruct (key_eqb k x0) eqn:Hk.
        -- rewrite (dict_get_compat k x0 arguments Hk), Harg. split.
           ++ intros Hv. right. split; [exact Hv |].
              split; [now apply Hnamed | now apply Hloc].
           ++ intros [Hv | [Hv _]]; [| exact Hv].
              apply Hag in Hv. rewrite (dict_get_compat k x0 _ Hk) in Hv.
              now rewrite Harg in Hv.
        -- split.
           ++ now left.
           ++ intros [Hv | [_ [Hn _]]]; [exact Hv |].
              apply Hnamed in Hn. rewrite Hn in Hk. discriminate.
    + assert (Hno : ~ located p "query").
      { intros Hl. apply Hloc in Hl. rewrite Hl in Hq. discriminate. }
      destruct (eq_str x1 "header"); ret_inv H; simpl.
      * split; [exact Hag |]. intros k v. split.
        -- now left.
        -- intros [Hv | [_ [_ Hl]]]; [exact Hv | contradiction].
      * split; [exact Hag |]. intros k v. split.
        -- now left.
        -- intros [Hv | [_ [_ Hl]]]; [exact Hv | contradiction].
  - ret_inv H. apply (Hsame (params, headers) eq_refl). split; auto.
Qed.

Lemma place_parameters_query (arguments : dict) (ps : list value) :
  forall st st',
    agrees arguments (fst st) ->
    for_each (mcp_server.place_parameter arguments) st ps = Ret st' ->
    agrees arguments (fst st')
    /\ forall k v,
         dict_get k (fst st') = Some v <->
         dict_get k (fst st) = Some v
         \/ (dict_get k arguments = Some v
             /\ exists p, In p ps /\ named p k /\ located p "query").
Proof.
  induction ps as [| p r IH]; simpl; intros st st' Hag H.
  - ret_inv H. split; [exact Hag |]. intros k v. split.
    + now left.
    + intros [Hv | [_ [p [[] _]]]]. exact Hv.
  - bind_inv H.
    destruct (place_parameter_query arguments st x p Hag E) as [Hag1 Hone].
    destruct (IH x st' Hag1 H) as [Hag2 Hrest].
    split; [exact Hag2 |]. intros k v. rewrite Hrest, Hone. split.
    + intros [[Hv | [Hv [Hn Hl]]] | [Hv [q [Hq [Hn Hl]]]]].
      * now left.
      * right. split; [exact Hv |]. exists p. auto.
      * right. split; [exact Hv |]. exists q. auto.
    + intros [Hv | [Hv [q [[<- | Hq] [Hn Hl]]]]].
      * left. now left.
      * left. right. auto.
      * right. split; [exact Hv |]. exists q. auto.
Qed.

Lemma remaining_args_spec (parameters : value) (ps : list value)
  (arguments body : dict) :
  py_iter parameters = Ret ps ->
  mcp_server.remaining_args parameters arguments = Ret body ->
  forall k v,
    In (k, v) body <->
    In (k, v) arguments /\ mcp_server.declared k ps = Ret false.
Proof.
  intros Hps. revert body.
  induction arguments as [| [k0 v0] r IH]; simpl; intros body H k v.
  - ret_inv H. simpl. tauto.
  - rewrite Hps in H. simpl in H. bind_inv H. bind_inv H. ret_inv H.
    specialize (IH x0 E0 k v).
    destruct x; simpl; rewrite IH; split.
    + intros [Hin Hd]. auto.
    + intros [[Heq | Hin] Hd]; [| auto].
      ret_inv Heq. rewrite E in Hd. discriminate.
    + intros [Heq | [Hin Hd]]; [| auto]. ret_inv Heq. auto.
    + intros [[Heq | Hin] Hd]; auto.
Qed.

(** C2, as amended.  The URL is the base URL and the path template in which
    every argument, in turn, replaces the occurrences of its placeholder; a
    substituted argument stays an argument for what follows.  The query string
    holds exactly the arguments named by a declared parameter that is [in:
    query] (or says nothing).  Without a [requestBody] in the operation no
    body is sent; with one, the body holds exactly the arguments that no
    declared parameter names, and is sent only when there is one. *)
Theorem arguments_placement (self : mcp_server.extractor)
  (info : mcp_server.tool_info) (arguments : dict)
  (rq : mcp_server.http_request) :
  mcp_server.build_request self info arguments = Ret rq ->
  exists base ps,
    bind (mcp_server._get_base_url self) as_str = Ret base
    /\ bind (py_get (mcp_server.operation info) "parameters" (VList []))
            py_iter = Ret ps
    /\ mcp_server.rq_url rq
       = fold_left mcp_server.substitute_path_param arguments
           (rstrip_slash base ++ mcp_server.path info)
    /\ (forall k v,
          dict_get k (mcp_server.rq_params rq) = Some v <->
          dict_get k arguments = Some v
          /\ exists p, In p ps /\ named p k /\ located p "query")
    /\ (py_in (KStr "requestBody") (mcp_server.operation info) = Ret false ->
        mcp_server.rq_json rq = None)
    /\ (py_in (KStr "requestBody") (mcp_server.operation info) = Ret true ->
        exists remaining,
          (forall k v,
              In (k, v) remaining <->
              In (k, v) arguments /\ mcp_server.declared k ps = Ret false)
          /\ mcp_server.rq_json rq
             = match remaining with
               | [] => None
               | _ => Some remaining
               end).
Proof.
  unfold mcp_server.build_request. intros H.
  bind_inv H. bind_inv H. bind_inv H. bind_inv H. bind_inv H.
  destruct x3 as [params headers].
  bind_inv H. bind_inv H. ret_inv H. simpl.
  assert (Hempty : agrees arguments []) by (intros k v Hk; discriminate).
  destruct (place_parameters_query arguments x2 (_, _) _ Hempty E3) as [_ Hq].
  simpl in Hq.
  exists x0, x2. rewrite E, E1. simpl.
  split; [exact E0 |]. split; [exact E2 |]. split; [reflexivity |].
  split; [| split].
  - intros k v. rewrite Hq. split.
    + intros [Hv | Hv]; [discriminate | exact Hv].
    + intros Hv. now right.
  - intros Hb. rewrite Hb in E4. ret_inv E4. now ret_inv E5.
  - intros Hb. rewrite Hb in E4. ret_inv E4.
    bind_inv E5. bind_inv E5. ret_inv E5.
    rewrite E4 in E1. ret_inv E1.
    exists x5. split.
    + now apply remaining_args_spec with x1.
    + now destruct x5.
Qed.

(** The example of the design document, for an operation without a request
    body: [/users/{id}] with [{id: 42, verbose: true}] is sent to
    [.../users/42] with the query parameter [verbose] and without a body. *)
Lemma arguments_placement_witness :
  exists rq,
    mcp_server.build_request sample_extractor get_user_info get_user_arguments
    = Ret rq
    /\ mcp_server.rq_url rq = "http://api.test/users/42"
    /\ mcp_server.rq_params rq = [(KStr "verbose", VBool true)]
    /\ mcp_server.rq_json rq = None.
Proof.
  eexists. split; [reflexivity |]. split; [reflexivity |].
  split; [reflexivity |].
  destruct (arguments_placement sample_extractor get_user_info
              get_user_arguments _ eq_refl)
    as [base [ps [_ [_ [_ [_ [Hnone _]]]]]]].
  apply Hnone. reflexivity.
Defined.

(** C2, as stated, fails: the argument [note] is named by no declared
    parameter and has no placeholder in the URL, yet it is not put in a JSON
    body, because the operation declares no request body. *)
Lemma undeclared_argument_is_not_sent :
  exists rq,
    mcp_server.build_request sample_extractor get_user_info
      (get_user_arguments ++ [(KStr "note", VStr "urgent")])%list = Ret rq
    /\ mcp_server.rq_json rq = None
    /\ dict_get (KStr "note") (mcp_server.rq_params rq) = None
    /\ dict_get (KStr "note") (mcp_server.rq_headers rq) = None
    /\ mcp_server.declared (KStr "note")
         [obj [("name", VStr "verbose"); ("in", VStr "query")]] = Ret false
    /\ str_contains "{note}" "http://api.test/users/{id}" = false.
Proof.
  eexists. repeat split; reflexivity.
Qed.

(** A substituted argument is not removed: declared [in: query] it goes to
    the query string as well, and undeclared it goes to the body of an
    operation that has one. *)
Example path_argument_is_placed_again :
  mcp_server.build_request sample_extractor
    {| mcp_server.path := "/users/{id}";
       mcp_server.method := "PUT";
       mcp_server.operation :=
         obj [("parameters", VList [obj [("name", VStr "id")]])];
       mcp_server.input_schema := VNone |}
    [(KStr "id", VInt 42)]
  = Ret {| mcp_server.rq_method := "PUT";
           mcp_server.rq_url := "http://api.test/users/42";
           mcp_server.rq_params := [(KStr "id", VInt 42)];
           mcp_server.rq_headers :=
             [(KStr "Authorization", VStr "Bearer secret")];
           mcp_server.rq_json := None |}
  /\ mcp_server.build_request sample_extractor
       {| mcp_server.path := "/users/{id}";
          mcp_server.method := "PUT";
          mcp_server.operation := obj [("requestBody", obj [])];
          mcp_server.input_schema := VNone |}
       [(KStr "id", VInt 42)]
     = Ret {| mcp_server.rq_method := "PUT";
              mcp_server.rq_url := "http://api.test/users/42";
              mcp_server.rq_params := [];
              mcp_server.rq_headers :=
                [(KStr "Authorization", VStr "Bearer secret")];
              mcp_server.rq_json := Some [(KStr "id", VInt 42)] |}.
Proof. split; reflexivity. Qed.

(** ** Brace scanning *)

Lemma prefix_empty (s : string) : String.prefix EmptyString s = true.
Proof. now destruct s. Qed.

Lemma prefix_char (a c : ascii) (s : string) :
  String.prefix (String a EmptyString) (String c s)
  = if ascii_dec a c then true else false.
Proof.
  simpl. destruct (ascii_dec a c); [apply prefix_empty | reflexivity].
Qed.

Lemma find_from_first (sub_char : ascii) (rest pre : string) :
  forall i : Z,
    str_contains (String sub_char EmptyString) pre = false ->
    find_from i (String sub_char EmptyString) (pre ++ String sub_char rest)
    = (i + Z.of_nat (String.length pre))%Z.
Proof.
  induction pre as [| c p IH]; intros i H.
  - simpl. destruct (ascii_dec sub_char sub_char) as [_ | N];
      [rewrite prefix_empty; lia | now elim N].
  - cbn [str_contains] in H. apply orb_false_iff in H. destruct H as [Hp Hc].
    rewrite prefix_char in Hp.
    cbn [append find_from]. rewrite prefix_char, Hp, (IH (i + 1)%Z Hc).
    cbn [String.length]. lia.
Qed.

Lemma rfind_from_absent (sub_char : ascii) (s : string) :
  forall i : Z,
    str_contains (String sub_char EmptyString) s = false ->
    rfind_from i (String sub_char EmptyString) s = (-1)%Z.
Proof.
  induction s as [| c r IH]; intros i H.
  - reflexivity.
  - cbn [str_contains] in H. apply orb_false_iff in H. destruct H as [Hp Hc].
    cbn [rfind_from]. rewrite (IH (i + 1)%Z Hc), Hp. reflexivity.
Qed.

Lemma rfind_from_last (sub_char : ascii) (post before : string) :
  forall i : Z,
    (0 <= i)%Z ->
    str_contains (String sub_char EmptyString) post = false ->
    rfind_from i (String sub_char EmptyString) (before ++ String sub_char post)
    = (i + Z.of_nat (String.length before))%Z.
Proof.
  induction before as [| c b IH]; intros i Hi H.
  - cbn [append rfind_from]. rewrite (rfind_from_absent _ _ _ H). simpl.
    destruct (ascii_dec sub_char sub_char) as [_ | N];
      [rewrite prefix_empty; lia | now elim N].
  - cbn [append rfind_from]. rewrite (IH (i + 1)%Z ltac:(lia) H).
    cbn [String.length].
    destruct (i + 1 + Z.of_nat (String.length b) =? -1)%Z eqn:E.
    + apply Z.eqb_eq in E. lia.
    + lia.
Qed.

Lemma substring_skip (pre s : string) (n : nat) :
  String.substring (String.length pre) n (pre ++ s) = String.substring 0 n s.
Proof.
  induction pre as [| c p IH]; simpl.
  - reflexivity.
  - exact IH.
Qed.

Lemma substring_take (body post : string) :
  String.substring 0 (String.length body) (body ++ post) = body.
Proof.
  induction body as [| c b IH]; simpl.
  - now destruct post.
  - now rewrite IH.
Qed.

Lemma length_append (a b : string) :
  String.length (a ++ b) = (String.length a + String.length b)%nat.
Proof.
  induction a as [| c r IH]; simpl; [reflexivity | now rewrite IH].
Qed.

Lemma append_assoc (a b c : string) : (a ++ b) ++ c = a ++ b ++ c.
Proof.
  induction a as [| x r IH]; simpl; [reflexivity | now rewrite IH].
Qed.

(** What is parsed is the text from the first opening brace to the last
    closing brace, both included. *)
Lemma between_braces_spec (pre mid post : string) :
  str_contains "{" pre = false ->
  str_contains "}" post = false ->
  between_braces (pre ++ "{" ++ mid ++ "}" ++ post) = "{" ++ mid ++ "}".
Proof.
  intros Hpre Hpost. unfold between_braces, py_find, py_rfind.
  change (pre ++ "{" ++ mid ++ "}" ++ post)
    with (pre ++ String "{" (mid ++ String "}" post)).
  rewrite (find_from_first _ _ _ 0%Z Hpre).
  replace (pre ++ String "{" (mid ++ String "}" post))
    with ((pre ++ String "{" mid) ++ String "}" post)
    by (now rewrite append_assoc).
  rewrite (rfind_from_last _ _ _ 0%Z ltac:(lia) Hpost).
  unfold py_slice, clamp.
  rewrite !length_append. cbn [String.length].
  repeat match goal with
         | |- context [(?a <? 0)%Z] =>
             let E := fresh in destruct (a <? 0)%Z eqn:E;
             [apply Z.ltb_lt in E; lia | clear E]
         end.
  rewrite !Z.min_l by lia.
  replace (Z.to_nat (0 + Z.of_nat (String.length pre)))
    with (String.length pre) by lia.
  replace (Z.to_nat (0 + Z.of_nat (String.length pre + S (String.length mid))
                     + 1 - (0 + Z.of_nat (String.length pre))))
    with (String.length ("{" ++ mid ++ "}"))
    by (rewrite length_append; cbn [String.length]; rewrite length_append;
        cbn [String.length]; lia).
  rewrite append_assoc.
  change (pre ++ String "{" mid ++ String "}" post)
    with (pre ++ ("{" ++ mid) ++ String "}" post).
  replace (pre ++ ("{" ++ mid) ++ String "}" post)
    with (pre ++ ("{" ++ mid ++ "}") ++ post).
  - rewrite substring_skip. apply substring_take.
  - f_equal. rewrite !append_assoc. reflexivity.
Qed.

(** ** The tool-calling loop *)





(** A reply with braces that is not JSON is also the answer. *)
Example malformed_tool_call_is_the_answer :
  let world :=
    {| orion.llm_invoke := fun _ _ => Ret "Use {tool} with care}";
       orion.session_call_tool := fun _ _ _ => orion.Raised "not expected";
       orion.json_loads := sample_loads;
       orion.json_dumps := sample_dumps |} in
  between_braces "Use {tool} with care}" = "{tool} with care}"
  /\ orion.process_query (world := world) connected_agent "help" []
     = ([orion.Generate (orion.full_prompt_of sample_system_prompt "help")],
        Ret "Use {tool} with care}").
Proof. split; reflexivity. Qed.



Lemma process_query_catches {world : orion.Collaborators}
  (self : orion.Orion) (query : string) (h : orion.history)
  (tools_text : string) :
  orion.llm self = true ->
  orion._format_tools_for_prompt self = Ret tools_text ->
  orion.process_query self query h
  = let (h', r) :=
      orion.attempt self (orion.system_prompt_of tools_text) query h in
    match r with
    | Ret answer => (h', Ret answer)
    | Raise _ => (h', Ret orion.apology)
    end.
Proof.
  intros Hllm Htools. unfold orion.process_query. rewrite Hllm. simpl.
  unfold orion.tbind, orion.lift. rewrite Htools.
  unfold orion.try_except, orion.tret.
  destruct (orion.attempt self (orion.system_prompt_of tools_text) query h)
    as [h' [answer | e]]; reflexivity.
Qed.

(** C4, as amended.  Once the system prompt is rendered, [process_query]
    returns a string and never raises; whatever is raised inside the turn
    gives the apology: by the first generation, by [call_tool] itself when
    there is no session, by the follow-up generation, and by anything else in
    the turn.  (What the remote invocation raises does not reach the turn:
    [call_tool] turns it into a tool result.) *)
Theorem turn_exceptions_become_the_apology {world : orion.Collaborators}
  (self : orion.Orion) (query : string) (h : orion.history)
  (tools_text : string) :
  let system_prompt := orion.system_prompt_of tools_text in
  let first_prompt := orion.full_prompt_of system_prompt query in
  let h1 := (h ++ [orion.Generate first_prompt])%list in
  orion.llm self = true ->
  orion._format_tools_for_prompt self = Ret tools_text ->
  (exists h' answer, orion.process_query self query h = (h', Ret answer))
  /\ (forall h' e,
        orion.attempt self system_prompt query h = (h', Raise e) ->
        orion.process_query self query h = (h', Ret orion.apology))
  /\ (forall e,
        orion.llm_invoke h first_prompt = Raise e ->
        orion.process_query self query h = (h1, Ret orion.apology))
  /\ (forall response tool_call tool_name arguments,
        orion.llm_invoke h first_prompt = Ret response ->
        orion._extract_tool_call response = Ret tool_call ->
        truthy tool_call = true ->
        py_get tool_call "name" VNone = Ret tool_name ->
        py_get tool_call "arguments" (VDict []) = Ret arguments ->
        (orion.session self = false ->
         orion.process_query self query h = (h1, Ret orion.apology))
        /\ (forall h2 tool_result dumped e,
              orion.call_tool self tool_name arguments h1
              = (h2, Ret tool_result) ->
              orion.json_dumps arguments = Ret dumped ->
              orion.llm_invoke h2
                (orion.follow_up_prompt_of system_prompt query tool_name
                   dumped tool_result) = Raise e ->
              snd (orion.process_query self query h) = Ret orion.apology)).
Proof.
  intros system_prompt first_prompt h1 Hllm Htools.
  rewrite (process_query_catches self query h tools_text Hllm Htools).
  fold system_prompt.
  split; [| split; [| split]].
  - destruct (orion.attempt self system_prompt query h) as [h' [answer | e]];
      eexists; eexists; reflexivity.
  - intros h' e ->. reflexivity.
  - intros e He. unfold orion.attempt, orion.tbind, orion.invoke.
    fold first_prompt. rewrite He. reflexivity.
  - intros response tool_call tool_name arguments
      Hreply Hcall Htruthy Hname Hargs.
    assert (Hattempt :
      orion.attempt self system_prompt query h
      = let (h2, r) := orion.call_tool self tool_name arguments h1 in
        match r with
        | Ret tool_result =>
            match orion.json_dumps arguments with
            | Ret dumped =>
                orion.invoke
                  (orion.follow_up_prompt_of system_prompt query tool_name
                     dumped tool_result) h2
            | Raise e => (h2, Raise e)
            end
        | Raise e => (h2, Raise e)
        end).
    { unfold orion.attempt.
      unfold orion.tbind at 1. unfold orion.invoke at 1.
      fold first_prompt. rewrite Hreply. fold h1.
      unfold orion.tbind at 1. unfold orion.lift at 1. rewrite Hcall, Htruthy.
      unfold orion.tbind at 1. unfold orion.lift at 1. rewrite Hname.
      unfold orion.tbind at 1. unfold orion.lift at 1. rewrite Hargs.
      unfold orion.tbind at 1.
      destruct (orion.call_tool self tool_name arguments h1)
        as [h2 [tool_result | e]]; [| reflexivity].
      unfold orion.tbind, orion.lift.
      destruct (orion.json_dumps arguments); reflexivity. }
    rewrite Hattempt. split.
    + intros Hsession. unfold orion.call_tool. rewrite Hsession. reflexivity.
    + intros h2 tool_result dumped e Htool Hdumps Hfollow.
      rewrite Htool, Hdumps. unfold orion.invoke. rewrite Hfollow.
      reflexivity.
Qed.

Lemma turn_exceptions_become_the_apology_witness :
  orion.process_query (world := model_down_world) connected_agent "Hello" []
  = ([orion.Generate (orion.full_prompt_of sample_system_prompt "Hello")],
     Ret orion.apology).
Proof.
  destruct (turn_exceptions_become_the_apology (world := model_down_world)
              connected_agent "Hello" [] "No tools available."
              eq_refl eq_refl) as [_ [_ [H _]]].
  apply (H (LibraryError "ConnectError" "refused")). reflexivity.
Defined.

(** C4, as stated, fails: an exception raised while the tool is executed is
    not turned into the apology; the turn ends with the follow-up reply. *)
Lemma remote_tool_exception_is_not_the_apology :
  orion.session_call_tool (Collaborators := session_down_world)
    [orion.Generate
       (orion.full_prompt_of sample_system_prompt "Weather in Paris?")]
    (VStr "get_weather") weather_arguments
  = orion.Raised "Connection closed"
  /\ snd (orion.process_query (world := session_down_world) connected_agent
            "Weather in Paris?" [])
     = Ret "I could not reach the weather service."
  /\ snd (orion.process_query (world := session_down_world) connected_agent
            "Weather in Paris?" [])
     <> Ret orion.apology.
Proof.
  split; [reflexivity |]. split; [reflexivity |].
  vm_compute. discriminate.
Qed.

(** Rendering the catalog happens before the [try]: a catalog entry whose
    property is described by something else than a dictionary makes
    [process_query] raise. *)
Example malformed_catalog_raises :
  snd (orion.process_query (world := plain_answer_world)
         {| orion.session := true;
            orion.tools :=
              [{| orion.name := "get_user";
                  orion.description := VStr "Get a user";
                  orion.input_schema :=
                    schema_of [(KStr "id", VBool true)] [] |}];
            orion.llm := true |}
         "Hello" [])
  = Raise AttributeError.
Proof. reflexivity. Qed.

(** ** Concurrent calls of [chat] *)

Import orion_service.

Lemma set_call_same (i : nat) (p : pc) (c : nat -> pc) : set_call i p c i = p.
Proof. unfold set_call. now rewrite Nat.eqb_refl. Qed.

Lemma set_call_other (i j : nat) (p : pc) (c : nat -> pc) :
  j <> i -> set_call i p c j = c j.
Proof.
  intros H. unfold set_call. apply Nat.eqb_neq in H. now rewrite H.
Qed.

(** A step inside the block by the call that holds the lock. *)
Lemma exclusive_move (s : state) (i : nat) (p : pc) (c : bool) :
  exclusive s -> inside (calls s i) = true -> inside p = true ->
  exclusive {| locked := locked s; connected := c;
               calls := set_call i p (calls s) |}.
Proof.
  intros [Hfree Hone] Hi Hp. split; simpl.
  - intros Hl. rewrite (Hfree Hl i) in Hi. discriminate.
  - intros a b Ha Hb.
    destruct (Nat.eq_dec a i) as [-> | Na], (Nat.eq_dec b i) as [-> | Nb].
    + reflexivity.
    + rewrite set_call_other in Hb by exact Nb. symmetry. now apply Hone.
    + rewrite set_call_other in Ha by exact Na. now apply Hone.
    + rewrite set_call_other in Ha by exact Na.
      rewrite set_call_other in Hb by exact Nb. now apply Hone.
Qed.

Lemma step_exclusive (s s' : state) (l : label) :
  exclusive s -> step s l s' -> exclusive s'.
Proof.
  intros Hex Hstep.
  destruct Hstep as
    [s i Hpc Hl | s i Hpc Hc | s i Hpc Hc | s i Hpc | s i Hpc | s i Hpc
    | s i Hpc | s i Hpc | s i Hpc | s i Hpc | s i Hpc | s i Hpc];
    try (apply exclusive_move; [exact Hex | now rewrite Hpc | reflexivity]).
  - destruct Hex as [Hfree Hone]. split; simpl; [discriminate |].
    intros a b Ha Hb.
    destruct (Nat.eq_dec a i) as [-> | Na], (Nat.eq_dec b i) as [-> | Nb];
      try reflexivity.
    + rewrite set_call_other in Hb by exact Nb.
      rewrite (Hfree Hl b) in Hb. discriminate.
    + rewrite set_call_other in Ha by exact Na.
      rewrite (Hfree Hl a) in Ha. discriminate.
    + rewrite set_call_other in Ha by exact Na.
      rewrite (Hfree Hl a) in Ha. discriminate.
  - destruct Hex as [Hfree Hone].
    assert (Hout : forall k,
               inside (set_call i Finished (calls s) k) = false).
    { intros k. destruct (Nat.eq_dec k i) as [-> | Nk].
      - now rewrite set_call_same.
      - rewrite set_call_other by exact Nk.
        destruct (inside (calls s k)) eqn:Hk; [| reflexivity].
        elim Nk. apply Hone; [exact Hk | now rewrite Hpc]. }
    split; simpl.
    + intros _. exact Hout.
    + intros a b Ha. now rewrite Hout in Ha.
Qed.

Lemma run_exclusive (s s' : state) (t : list label) :
  run s t s' -> exclusive s -> exclusive s'.
Proof.
  induction 1 as [s | s l s1 t s2 Hstep _ IH]; intros Hex.
  - exact Hex.
  - apply IH. now apply (step_exclusive s s1 l).
Qed.

Lemma initial_exclusive (c : bool) : exclusive (initial c).
Proof. split; simpl; [reflexivity | discriminate]. Qed.


(** A step changes the place of its own call only. *)
Lemma step_other (s s' : state) (l : label) (k : nat) :
  step s l s' -> k <> actor l -> calls s' k = calls s k.
Proof.
  intros H Hk. step_cases H; now apply set_call_other.
Qed.

(** A call that is out of the block takes no step. *)
Lemma finished_is_idle (s s' : state) (l : label) (i : nat) :
  step s l s' -> calls s i = Finished -> actor l <> i.
Proof.
  intros H Hf Ha. step_cases H; subst; rewrite Hf in Hpc; discriminate.
Qed.

Lemma step_keeps_entered (s s' : state) (l : label) (i : nat) :
  step s l s' -> calls s i <> Waiting -> calls s' i <> Waiting.
Proof.
  intros H Hw.
  destruct (Nat.eq_dec i (actor l)) as [-> | Ni].
  - step_cases H; rewrite set_call_same; discriminate.
  - now rewrite (step_other s s' l i H Ni).
Qed.

(** After its [Acquire] a call never waits for the lock again. *)
Lemma run_keeps_entered (s s' : state) (t : list label) (i : nat) :
  run s t s' ->
  calls s i <> Waiting \/ In (Acquire i) t ->
  calls s' i <> Waiting.
Proof.
  induction 1 as [s | s l s1 t s2 Hstep _ IH]; intros H.
  - destruct H as [H | []]. exact H.
  - apply IH. destruct H as [H | [H | H]].
    + left. now apply (step_keeps_entered s s1 l).
    + left. subst l. inversion Hstep; subst. simpl.
      rewrite set_call_same. discriminate.
    + now right.
Qed.

(** A call is out of the block only after its [Release]. *)
Lemma run_finished_released (s s' : state) (t : list label) (i : nat) :
  run s t s' ->
  calls s' i = Finished ->
  calls s i = Finished \/ In (Release i) t.
Proof.
  induction 1 as [s | s l s1 t s2 Hstep _ IH]; intros Hf.
  - now left.
  - destruct (IH Hf) as [H1 | H1]; [| right; now right].
    destruct (Nat.eq_dec i (actor l)) as [-> | Ni].
    + right. left.
      step_cases Hstep; rewrite set_call_same in H1;
        try discriminate; reflexivity.
    + left. now rewrite <- (step_other s s1 l i Hstep Ni).
Qed.

(** C8: in every interleaving of calls of [chat] on one service, when a call
    begins a generation, every other call that has acquired the lock before
    has released it: its whole turn, with its follow-up generation if any, is
    over, and it takes no further step. *)
Theorem concurrent_chats_are_serialized (is_connected : bool)
  (t : list label) (s s' : state) (i j : nat) :
  run (initial is_connected) t s ->
  step s (Generate j) s' ->
  i <> j ->
  In (Acquire i) t ->
  In (Release i) t
  /\ calls s i = Finished
  /\ forall t' s'', run s t' s'' -> forall l, In l t' -> actor l <> i.
Proof.
  intros Hrun Hgen Hij Hacq.
  assert (Hex : exclusive s)
    by exact (run_exclusive _ _ _ Hrun (initial_exclusive is_connected)).
  assert (Hin : inside (calls s j) = true).
  { inversion Hgen; subst; match goal with
                           | H : calls s j = _ |- _ => now rewrite H
                           end. }
  assert (Hout : inside (calls s i) = false).
  { destruct (inside (calls s i)) eqn:Hi; [| reflexivity].
    elim Hij. now apply (proj2 Hex). }
  assert (Hentered : calls s i <> Waiting)
    by (apply (run_keeps_entered _ _ _ i Hrun); now right).
  assert (Hfin : calls s i = Finished)
    by (destruct (calls s i); try discriminate; [now elim Hentered | reflexivity]).
  split; [| split; [exact Hfin |]].
  - destruct (run_finished_released _ _ _ i Hrun Hfin) as [H | H];
      [discriminate | exact H].
  - clear Hgen Hin Hout Hentered Hex Hrun.
    intros t' s'' Hrun'. revert Hfin.
    induction Hrun' as [s0 | s0 l0 s1 t0 s2 Hstep _ IH]; intros Hfin l Hl.
    + contradiction.
    + destruct Hl as [<- | Hl].
      * now apply (finished_is_idle s0 s1 l0 i Hstep).
      * apply IH; [| exact Hl].
        rewrite (step_other s0 s1 l0 i Hstep); [exact Hfin |].
        intros E. now apply (finished_is_idle s0 s1 l0 i Hstep Hfin).
Qed.

Lemma concurrent_chats_are_serialized_witness :
  In (Release 0) two_calls_trace.
Proof.
  eapply (fun s s' R G =>
            proj1 (concurrent_chats_are_serialized true two_calls_trace s s'
                     0 1 R G (fun E : 0 = 1 => O_S 0 E) (or_introl eq_refl))).
  - unfold two_calls_trace.
    eapply run_cons; [apply acquire; reflexivity |].
    eapply run_cons; [apply already_connected; reflexivity |].
    eapply run_cons; [apply generate_tool_call; reflexivity |].
    eapply run_cons; [apply tool_returns; reflexivity |].
    eapply run_cons; [apply generate_follow_up; reflexivity |].
    eapply run_cons; [apply release; reflexivity |].
    eapply run_cons; [apply acquire; reflexivity |].
    eapply run_cons; [apply already_connected; reflexivity |].
    apply run_nil.
  - apply generate_answer. reflexivity.
Defined.

(** Without the lock held by the first call, the second call cannot enter:
    while a call is inside the block no [Acquire] step is possible. *)
Lemma no_acquire_while_inside (c : bool) (t : list label) (s s' : state)
  (i j : nat) :
  run (initial c) t s -> inside (calls s i) = true ->
  ~ step s (Acquire j) s'.
Proof.
  intros Hrun Hi Hstep.
  destruct (run_exclusive _ _ _ Hrun (initial_exclusive c)) as [Hfree _].
  inversion Hstep; subst.
  match goal with
  | H : locked s = false |- _ => rewrite (Hfree H i) in Hi
  end.
  discriminate.
Qed.

(** * Further properties *)

(** ** The registry builder *)

Lemma as_str_of_key (k : key) (s : string) :
  as_str (of_key k) = Ret s -> k = KStr s.
Proof.
  destruct k; simpl; intros H; try discriminate. now ret_inv H.
Qed.

Lemma existsb_eqb_in (s : string) (l : list string) :
  existsb (String.eqb s) l = true -> In s l.
Proof.
  intros H. apply existsb_exists in H. destruct H as [x [Hin Heq]].
  apply String.eqb_eq in Heq. now subst.
Qed.

(** What one round of the walk does: nothing for a method that gives no
    tool, one registry entry and one tool otherwise. *)
Lemma operation_step_inv (path_key method_key : key) (operation : value)
  (tools : mcp_server.registry) (out : list mcp_server.mcp_types.Tool)
  (st' : mcp_server.registry * list mcp_server.mcp_types.Tool) :
  mcp_server.operation_step path_key (tools, out) (method_key, operation)
  = Ret st' ->
  (is_eligible method_key = false /\ st' = (tools, out))
  \/ (is_eligible method_key = true
      /\ exists m p tool_name description schema,
          method_key = KStr m
          /\ path_key = KStr p
          /\ In (py_upper m) mcp_server.eligible_methods
          /\ mcp_server._extract_parameters operation = Ret schema
          /\ st'
             = (mcp_server.registry_set (normalize tool_name)
                  {| mcp_server.path := p;
                     mcp_server.method := py_upper m;
                     mcp_server.operation := operation;
                     mcp_server.input_schema := schema |} tools,
                (out ++ [{| mcp_server.mcp_types.name := normalize tool_name;
                            mcp_server.mcp_types.description := description;
                            mcp_server.mcp_types.inputSchema := schema |}])%list)).
Proof.
  unfold mcp_server.operation_step. intros H. bind_inv H.
  apply as_str_of_key in E. subst method_key.
  change (is_eligible (KStr x))
    with (existsb (String.eqb (py_upper x)) mcp_server.eligible_methods).
  destruct (existsb (String.eqb (py_upper x)) mcp_server.eligible_methods)
    eqn:Hel; cbn [negb] in H.
  - right. split; [reflexivity |].
    bind_inv H. apply as_str_of_key in E. subst path_key.
    bind_inv H. bind_inv H. bind_inv H. bind_inv H. bind_inv H. bind_inv H.
    ret_inv H.
    exists x, x0, x2, x4, x5.
    split; [reflexivity |]. split; [reflexivity |].
    split; [now apply existsb_eqb_in |]. split; [exact E3 |].
    unfold mcp_server.make_Tool in E4.
    destruct x4; try discriminate; now ret_inv E4.
  - left. split; [reflexivity |]. now ret_inv H.
Qed.

(** What every round of the inner loop preserves holds for the registry and
    the tools that [extract_tools] returns. *)
Lemma extract_tools_invariant
  (P : mcp_server.registry * list mcp_server.mcp_types.Tool -> Prop)
  (spec : value) (st : mcp_server.registry * list mcp_server.mcp_types.Tool) :
  (forall path_key s entry s',
      P s -> mcp_server.operation_step path_key s entry = Ret s' -> P s') ->
  P ([], []) ->
  mcp_server.extract_tools spec [] = Ret st -> P st.
Proof.
  intros Hstep Hinit H. unfold mcp_server.extract_tools in H.
  bind_inv H. bind_inv H. revert H.
  apply (for_each_invariant P); [| exact Hinit].
  intros s [path_key path_item] s' _ Hs Hp.
  unfold mcp_server.path_step in Hp. bind_inv Hp.
  revert Hp. apply (for_each_invariant P); [| exact Hs].
  intros s0 entry s1 _. apply Hstep.
Qed.

Lemma registry_set_cases (k n : string) (t info : mcp_server.tool_info)
  (r : mcp_server.registry) :
  In (n, info) (mcp_server.registry_set k t r) ->
  In (n, info) r \/ (n = k /\ info = t).
Proof.
  induction r as [| [k' t'] r' IH]; simpl.
  - intros [H | []]. ret_inv H. now right.
  - destruct (String.eqb k k') eqn:E; simpl.
    + apply String.eqb_eq in E. subst k'.
      intros [H | H]; [ret_inv H; now right | left; now right].
    + intros [H | H]; [left; now left |].
      destruct (IH H) as [H' | H']; [left; now right | now right].
Qed.

(** X1: every entry of the registry that [extract_tools] builds has one of
    the methods GET, POST, PUT, PATCH, DELETE, in upper case. *)
Theorem registry_methods_are_eligible (spec : value)
  (reg : mcp_server.registry) (out : list mcp_server.mcp_types.Tool) :
  mcp_server.extract_tools spec [] = Ret (reg, out) ->
  forall n info,
    In (n, info) reg ->
    In (mcp_server.method info) mcp_server.eligible_methods.
Proof.
  intros H.
  apply (extract_tools_invariant
           (fun st => forall n info,
                In (n, info) (fst st) ->
                In (mcp_server.method info) mcp_server.eligible_methods)
           spec (reg, out)); [| intros n info [] | exact H].
  intros path_key [tools0 out0] [method_key operation] s' IH Hstep.
  destruct (operation_step_inv _ _ _ _ _ _ Hstep)
    as [[_ ->] | [_ [m [p [tn [d [schema [_ [_ [Hm [_ ->]]]]]]]]]]];
    [exact IH |].
  simpl. intros n info Hin. apply registry_set_cases in Hin.
  destruct Hin as [Hin | [_ ->]]; [now apply (IH n) | exact Hm].
Qed.

Lemma registry_methods_are_eligible_witness :
  exists reg out,
    mcp_server.extract_tools sample_document [] = Ret (reg, out)
    /\ forall n info,
         In (n, info) reg ->
         In (mcp_server.method info) mcp_server.eligible_methods.
Proof.
  eexists. eexists. split; [reflexivity |].
  eapply (registry_methods_are_eligible sample_document). reflexivity.
Defined.

(** *** Names *)

Lemma ascii_lower_idempotent (c : ascii) :
  ascii_lower (ascii_lower c) = ascii_lower c.
Proof.
  destruct c as [[] [] [] [] [] [] [] []]; reflexivity.
Qed.

Lemma ascii_lower_hyphen (c : ascii) :
  (if ascii_dec "-" (ascii_lower c) then true else false)
  = (if ascii_dec "-" c then true else false).
Proof.
  destruct c as [[] [] [] [] [] [] [] []]; reflexivity.
Qed.

Lemma py_lower_idempotent (s : string) : py_lower (py_lower s) = py_lower s.
Proof.
  unfold py_lower. induction s as [| c r IH]; simpl.
  - reflexivity.
  - now rewrite ascii_lower_idempotent, IH.
Qed.

Lemma py_lower_keeps_hyphens (s : string) :
  str_contains "-" (py_lower s) = str_contains "-" s.
Proof.
  unfold py_lower. induction s as [| c r IH].
  - reflexivity.
  - cbn [str_map str_contains]. rewrite !prefix_char, ascii_lower_hyphen, IH.
    reflexivity.
Qed.

Lemma replace_hyphens (s : string) :
  str_contains "-" (py_replace "-" "_" s) = false.
Proof.
  unfold py_replace. induction s as [| c r IH].
  - reflexivity.
  - cbn [replace_from]. rewrite prefix_char.
    destruct (ascii_dec "-" c) as [E | N].
    + cbn [String.length Nat.sub append str_contains].
      rewrite prefix_char, IH. reflexivity.
    + cbn [str_contains]. rewrite prefix_char, IH.
      destruct (ascii_dec "-" c); [contradiction | reflexivity].
Qed.

Lemma normalize_normalized (tool_name : string) :
  normalized (normalize tool_name).
Proof.
  unfold normalized, normalize. split.
  - apply py_lower_idempotent.
  - rewrite py_lower_keeps_hyphens. apply replace_hyphens.
Qed.

(** X2: the names under which [extract_tools] stores and returns the tools
    hold no upper-case letter and no hyphen, whether they come from an
    [operationId] or from the method and the path. *)
Theorem tool_names_are_normalized (spec : value)
  (reg : mcp_server.registry) (out : list mcp_server.mcp_types.Tool) :
  mcp_server.extract_tools spec [] = Ret (reg, out) ->
  (forall n info, In (n, info) reg -> normalized n)
  /\ (forall t, In t out -> normalized (mcp_server.mcp_types.name t)).
Proof.
  intros H.
  apply (extract_tools_invariant
           (fun st =>
              (forall n info, In (n, info) (fst st) -> normalized n)
              /\ (forall t, In t (snd st) ->
                            normalized (mcp_server.mcp_types.name t)))
           spec (reg, out));
    [| split; [intros n info [] | intros t []] | exact H].
  intros path_key [tools0 out0] [method_key operation] s' [IHr IHo] Hstep.
  destruct (operation_step_inv _ _ _ _ _ _ Hstep)
    as [[_ ->] | [_ [m [p [tn [d [schema [_ [_ [_ [_ ->]]]]]]]]]]];
    [now split |].
  simpl. split.
  - intros n info Hin. apply registry_set_cases in Hin.
    destruct Hin as [Hin | [-> _]];
      [now apply (IHr n info) | apply normalize_normalized].
  - intros t Hin. apply in_app_or in Hin.
    destruct Hin as [Hin | [<- | []]];
      [now apply IHo | apply normalize_normalized].
Qed.

Lemma tool_names_are_normalized_witness :
  exists reg out,
    mcp_server.extract_tools sample_document [] = Ret (reg, out)
    /\ (forall n info, In (n, info) reg -> normalized n)
    /\ (forall t, In t out -> normalized (mcp_server.mcp_types.name t)).
Proof.
  eexists. eexists. split; [reflexivity |].
  apply (tool_names_are_normalized sample_document). reflexivity.
Defined.

(** *** The registry and the returned tools *)

Lemma registry_get_set (k k' : string) (t : mcp_server.tool_info)
  (r : mcp_server.registry) :
  mcp_server.registry_get k' (mcp_server.registry_set k t r)
  = if String.eqb k' k then Some t else mcp_server.registry_get k' r.
Proof.
  induction r as [| [k0 t0] r' IH]; simpl.
  - reflexivity.
  - destruct (String.eqb k k0) eqn:E; simpl.
    + apply String.eqb_eq in E. subst k0.
      destruct (String.eqb k' k); reflexivity.
    + rewrite IH. destruct (String.eqb k' k0) eqn:E0; [| reflexivity].
      destruct (String.eqb k' k) eqn:E1; [| reflexivity].
      apply String.eqb_eq in E0, E1. subst.
      rewrite String.eqb_refl in E. discriminate.
Qed.

Lemma registry_set_keys (k : string) (t : mcp_server.tool_info)
  (r : mcp_server.registry) :
  map fst (mcp_server.registry_set k t r)
  = if existsb (String.eqb k) (map fst r) then map fst r
    else (map fst r ++ [k])%list.
Proof.
  induction r as [| [k0 t0] r' IH]; simpl.
  - reflexivity.
  - destruct (String.eqb k k0); simpl; [reflexivity |].
    rewrite IH. now destruct (existsb (String.eqb k) (map fst r')).
Qed.

Lemma registry_set_nodup (k : string) (t : mcp_server.tool_info)
  (r : mcp_server.registry) :
  NoDup (map fst r) -> NoDup (map fst (mcp_server.registry_set k t r)).
Proof.
  intros H. rewrite registry_set_keys.
  destruct (existsb (String.eqb k) (map fst r)) eqn:E; [exact H |].
  apply NoDup_app; [exact H | constructor; [intros [] | constructor] |].
  intros x Hx [-> | []].
  assert (Hex : existsb (String.eqb x) (map fst r) = true).
  { apply existsb_exists. exists x. split; [exact Hx | apply String.eqb_refl]. }
  rewrite Hex in E. discriminate.
Qed.

(** X3: the registry that [extract_tools] builds holds one entry per name;
    every returned tool has an entry under its name, and every entry is the
    one of a returned tool with the same name and the same input schema.
    (Two operations of the same derived name give two tools and one entry.) *)
Theorem registry_matches_returned_tools (spec : value)
  (reg : mcp_server.registry) (out : list mcp_server.mcp_types.Tool) :
  mcp_server.extract_tools spec [] = Ret (reg, out) ->
  registry_matches (reg, out).
Proof.
  apply (extract_tools_invariant registry_matches).
  - intros path_key [tools0 out0] [method_key operation] s'
      [Hnd [Hout Hreg]] Hstep.
    simpl in Hnd, Hout, Hreg.
    destruct (operation_step_inv _ _ _ _ _ _ Hstep)
      as [[_ ->] | [_ [m [p [tn [d [schema [_ [_ [_ [_ ->]]]]]]]]]]];
      [now split |].
    split; [| split]; simpl.
    + now apply registry_set_nodup.
    + intros t Hin. rewrite registry_get_set.
      destruct (String.eqb (mcp_server.mcp_types.name t) (normalize tn))
        eqn:Hname; [now eexists |].
      apply in_app_or in Hin. destruct Hin as [Hin | [<- | []]].
      * now apply Hout.
      * simpl in Hname. rewrite String.eqb_refl in Hname. discriminate.
    + intros n info Hin. apply registry_set_cases in Hin.
      destruct Hin as [Hin | [-> ->]].
      * destruct (Hreg n info Hin) as [t [Ht [Hn Hs]]].
        exists t. split; [apply in_or_app; now left | now split].
      * eexists. split; [apply in_or_app; right; now left |]. now split.
  - split; [constructor | split]; simpl.
    + intros t [].
    + intros n info [].
Qed.

Lemma registry_matches_returned_tools_witness :
  exists reg out,
    mcp_server.extract_tools sample_document [] = Ret (reg, out)
    /\ List.length reg = 2 /\ List.length out = 3
    /\ registry_matches (reg, out).
Proof.
  eexists. eexists. split; [reflexivity |].
  split; [reflexivity |]. split; [reflexivity |].
  apply (registry_matches_returned_tools sample_document). reflexivity.
Defined.

(** *** One tool for every operation of an eligible method *)

Lemma operation_steps_in_order (path_key : key)
  (operations : list (key * value)) :
  forall (st st' : mcp_server.registry * list mcp_server.mcp_types.Tool),
    for_each (mcp_server.operation_step path_key) st operations = Ret st' ->
    exists added,
      snd st' = (snd st ++ added)%list
      /\ Forall2 (fun operation t =>
                    mcp_server._extract_parameters operation
                    = Ret (mcp_server.mcp_types.inputSchema t))
           (map snd (filter (fun entry => is_eligible (fst entry)) operations))
           added.
Proof.
  induction operations as [| [method_key operation] r IH]; simpl;
    intros st st' H.
  - ret_inv H. exists []. split; [now rewrite app_nil_r | constructor].
  - bind_inv H. destruct st as [tools0 out0].
    destruct (IH x st' H) as [added [Hout Hall]].
    destruct (operation_step_inv _ _ _ _ _ _ E)
      as [[Hel ->] | [Hel [m [p [tn [d [schema [_ [_ [_ [Hs ->]]]]]]]]]]];
      rewrite Hel.
    + exists added. now split.
    + simpl in Hout. rewrite <- app_assoc in Hout.
      eexists. split; [exact Hout |].
      simpl. constructor; [exact Hs | exact Hall].
Qed.

Lemma path_steps_in_order (entries : list (key * value)) :
  forall (st st' : mcp_server.registry * list mcp_server.mcp_types.Tool),
    for_each mcp_server.path_step st entries = Ret st' ->
    exists added,
      snd st' = (snd st ++ added)%list
      /\ Forall2 (fun operation t =>
                    mcp_server._extract_parameters operation
                    = Ret (mcp_server.mcp_types.inputSchema t))
           (eligible_operations entries) added.
Proof.
  induction entries as [| [path_key path_item] r IH]; simpl; intros st st' H.
  - ret_inv H. exists []. split; [now rewrite app_nil_r | constructor].
  - bind_inv H. unfold mcp_server.path_step in E. bind_inv E.
    destruct path_item; try discriminate. simpl in E0. ret_inv E0.
    destruct (operation_steps_in_order _ _ _ _ E) as [a1 [H1 F1]].
    destruct (IH x st' H) as [a2 [H2 F2]].
    exists (a1 ++ a2)%list. split.
    + now rewrite H2, H1, app_assoc.
    + simpl. now apply Forall2_app.
Qed.

(** X4: when [extract_tools] returns, it returns exactly one tool for every
    operation of an eligible method, in the order of the document, and each
    of these operations went through [_extract_parameters] without an
    exception: one operation that cannot be extracted leaves no registry at
    all. *)
Theorem one_tool_per_eligible_operation (spec : value)
  (reg : mcp_server.registry) (out : list mcp_server.mcp_types.Tool) :
  mcp_server.extract_tools spec [] = Ret (reg, out) ->
  exists entries,
    bind (py_get spec "paths" (VDict [])) py_items = Ret entries
    /\ Forall2 (fun operation t =>
                  mcp_server._extract_parameters operation
                  = Ret (mcp_server.mcp_types.inputSchema t))
         (eligible_operations entries) out.
Proof.
  unfold mcp_server.extract_tools. intros H. bind_inv H. bind_inv H.
  exists x0. rewrite E. simpl. split; [exact E0 |].
  destruct (path_steps_in_order _ _ _ H) as [added [Hout Hall]].
  simpl in Hout. now subst.
Qed.

Lemma one_tool_per_eligible_operation_witness :
  exists out,
    List.length out = 3
    /\ Forall2 (fun operation t =>
                  mcp_server._extract_parameters operation
                  = Ret (mcp_server.mcp_types.inputSchema t))
         [obj [("operationId", VStr "Get-User")];
          obj [("operationId", VStr "get_user");
               ("parameters",
                VList [obj [("name", VStr "id"); ("in", VStr "path");
                            ("required", VBool true)]])];
          obj [("summary", VStr "Ping")]]
         out.
Proof.
  destruct (one_tool_per_eligible_operation sample_document _ _ eq_refl)
    as [entries [He Hall]].
  vm_compute in He. ret_inv He.
  eexists. split; [| exact Hall]. reflexivity.
Defined.

(** An operation whose parameter has no name stops the whole walk. *)
Example unnamed_parameter_stops_the_walk :
  mcp_server.extract_tools
    (obj [("paths",
           obj [("/ok", obj [("get", obj [])]);
                ("/broken",
                 obj [("get",
                       obj [("parameters",
                             VList [obj [("in", VStr "query")]])])])])])
    []
  = Raise (KeyError "name").
Proof. reflexivity. Qed.

(** ** The schema converter, continued *)

Lemma value_nested_ind (P : value -> Prop) :
  P VNone ->
  (forall b, P (VBool b)) ->
  (forall z, P (VInt z)) ->
  (forall s, P (VStr s)) ->
  (forall l, Forall P l -> P (VList l)) ->
  (forall d, Forall (fun kv => P (snd kv)) d -> P (VDict d)) ->
  forall v, P v.
Proof.
  intros Hnone Hbool Hint Hstr Hlist Hdict.
  fix IH 1. intros [| b | z | s | l | d].
  - exact Hnone.
  - apply Hbool.
  - apply Hint.
  - apply Hstr.
  - apply Hlist. induction l as [| a r IHl]; constructor;
      [apply IH | exact IHl].
  - apply Hdict. induction d as [| [k a] r IHd]; constructor;
      [apply IH | exact IHd].
Qed.

Lemma dict_get_in (k : key) (d : dict) (x : value) :
  dict_get k d = Some x -> exists k', In (k', x) d.
Proof.
  induction d as [| [k0 v0] r IH]; simpl; intros H.
  - discriminate.
  - destruct (key_eqb k k0).
    + ret_inv H. exists k0. now left.
    + destruct (IH H) as [k' Hk]. exists k'. now right.
Qed.

Lemma dict_set_keys (k q : key) (x : value) (d : dict) :
  In q (dict_keys (dict_set k x d)) -> In q (dict_keys d) \/ q = k.
Proof.
  unfold dict_keys. induction d as [| [k0 v0] r IH]; simpl.
  - intros [H | []]. now right.
  - destruct (key_eqb k k0); simpl.
    + intros [H | H]; left; [now left | now right].
    + intros [H | H]; [left; now left |].
      destruct (IH H) as [H' | H']; [left; now right | now right].
Qed.

(** On a dictionary [copy_key] is a lookup followed by an assignment. *)
Lemma copy_key_dict (k : string) (d schema : dict) :
  mcp_server.copy_key k (VDict d) schema
  = Ret (match dict_get (KStr k) d with
         | Some x => dict_set (KStr k) x schema
         | None => schema
         end).
Proof.
  unfold mcp_server.copy_key. simpl. unfold dict_mem.
  destruct (dict_get (KStr k) d); reflexivity.
Qed.

Lemma copy_key_keys (k : string) (param : value) (schema schema' : dict)
  (q : key) :
  mcp_server.copy_key k param schema = Ret schema' ->
  In q (dict_keys schema') -> In q (dict_keys schema) \/ q = KStr k.
Proof.
  unfold mcp_server.copy_key. intros H. bind_inv H.
  destruct x.
  - bind_inv H. ret_inv H. apply dict_set_keys.
  - ret_inv H. now left.
Qed.

Lemma copy_plain_keys_keys (param : value) (schema : dict) (q : key) :
  mcp_server.copy_plain_keys param = Ret schema ->
  In q (dict_keys schema) -> exists k, In k plain_keys /\ q = KStr k.
Proof.
  unfold mcp_server.copy_plain_keys. intros H Hq.
  do 6 (bind_inv H).
  repeat match goal with
         | E : mcp_server.copy_key ?k _ _ = Ret ?s,
           Hin : In q (dict_keys ?s) |- _ =>
             destruct (copy_key_keys _ _ _ _ q E Hin) as [? | ->];
             [clear Hin; clear E |
              exists k; split; [simpl; tauto | reflexivity]]
         end.
  contradiction.
Qed.

(** The entries copied from two dictionaries that agree on the plain keys
    are the same. *)
Lemma copy_plain_keys_ext (d1 d2 : dict) :
  (forall k, In k plain_keys -> dict_get (KStr k) d1 = dict_get (KStr k) d2) ->
  mcp_server.copy_plain_keys (VDict d1) = mcp_server.copy_plain_keys (VDict d2).
Proof.
  intros H. unfold mcp_server.copy_plain_keys.
  repeat (rewrite !copy_key_dict; cbn [bind]).
  rewrite (H "type"), (H "description"), (H "enum"), (H "default"),
    (H "format"), (H "minimum"), (H "maximum") by (simpl; tauto).
  reflexivity.
Qed.

Lemma copy_plain_keys_lookup (d schema : dict) (k : string) :
  mcp_server.copy_plain_keys (VDict d) = Ret schema ->
  In k plain_keys ->
  dict_get (KStr k) schema = dict_get (KStr k) d.
Proof.
  unfold mcp_server.copy_plain_keys. intros H Hk.
  repeat (rewrite copy_key_dict in H; cbn [bind] in H).
  ret_inv H.
  simpl in Hk.
  repeat (destruct Hk as [<- | Hk];
          [ repeat match goal with
                   | |- context [match dict_get (KStr ?q) d with _ => _ end] =>
                       destruct (dict_get (KStr q) d)
                   end; reflexivity
          | ]).
  contradiction.
Qed.

Lemma dict_mem_keys_inv (q : key) (d : dict) :
  dict_mem q d = true -> exists k, In k (dict_keys d) /\ key_eqb q k = true.
Proof.
  unfold dict_mem, dict_keys. induction d as [| [k0 v0] r IH]; simpl.
  - discriminate.
  - destruct (key_eqb q k0) eqn:E.
    + intros _. exists k0. split; [now left | exact E].
    + intros H. destruct (IH H) as [k [Hk Hq]]. exists k.
      split; [now right | exact Hq].
Qed.

Lemma plain_key_is_not_items (k : string) :
  In k plain_keys -> key_eqb (KStr k) (KStr "items") = false.
Proof.
  simpl. intros H.
  repeat (destruct H as [<- | H]; [reflexivity |]). contradiction.
Qed.

(** The two ways in which the converter returns on a dictionary. *)
Lemma _convert_dict_inv (d s : dict) :
  mcp_server._convert_openapi_type_to_json_schema (VDict d) = Ret s ->
  exists plain,
    mcp_server.copy_plain_keys (VDict d) = Ret plain
    /\ ((dict_mem (KStr "items") d = false /\ s = plain)
        \/ exists x items,
             dict_get (KStr "items") d = Some x
             /\ mcp_server._convert_openapi_type_to_json_schema x = Ret items
             /\ s = dict_set (KStr "items") (VDict items) plain).
Proof.
  intros H. rewrite _convert_eq in H. bind_inv H. bind_inv H.
  exists x. split; [exact E |]. simpl in E0. ret_inv E0.
  unfold dict_mem in *.
  destruct (dict_get (KStr "items") d) as [v |] eqn:Hitems.
  - right. bind_inv H. bind_inv H. ret_inv H.
    simpl in E0. rewrite Hitems in E0. ret_inv E0.
    now exists x0, x1.
  - left. now ret_inv H.
Qed.

(** X5: on a dictionary, the schema that the converter returns holds the
    entries [type], [description], [enum], [default], [format], [minimum]
    and [maximum] of the fragment with their values, holds [items] exactly
    when the fragment does, and holds nothing else. *)
Theorem converter_keeps_the_known_entries (d s : dict) :
  mcp_server._convert_openapi_type_to_json_schema (VDict d) = Ret s ->
  (forall k, In k plain_keys -> dict_get (KStr k) s = dict_get (KStr k) d)
  /\ dict_mem (KStr "items") s = dict_mem (KStr "items") d
  /\ (forall q, In q (dict_keys s) ->
                exists k, In k converter_keys /\ q = KStr k).
Proof.
  intros H.
  destruct (_convert_dict_inv d s H)
    as [plain [Hplain [[Hno ->] | [x [items [Hx [_ ->]]]]]]].
  - split; [| split].
    + intros k Hk. now apply copy_plain_keys_lookup.
    + rewrite Hno. destruct (dict_mem (KStr "items") plain) eqn:Hm;
        [| reflexivity].
      apply dict_mem_keys_inv in Hm. destruct Hm as [k [Hk Hq]].
      destruct (copy_plain_keys_keys _ _ k Hplain Hk) as [k' [Hk' ->]].
      rewrite key_eqb_sym, (plain_key_is_not_items k' Hk') in Hq.
      discriminate.
    + intros q Hq.
      destruct (copy_plain_keys_keys _ _ q Hplain Hq) as [k [Hk ->]].
      exists k. split; [apply in_or_app; now left | reflexivity].
  - split; [| split].
    + intros k Hk.
      rewrite dict_get_set, (plain_key_is_not_items k Hk).
      now apply copy_plain_keys_lookup.
    + rewrite dict_mem_set. simpl. unfold dict_mem. now rewrite Hx.
    + intros q Hq. apply dict_set_keys in Hq. destruct Hq as [Hq | ->].
      * destruct (copy_plain_keys_keys _ _ q Hplain Hq) as [k [Hk ->]].
        exists k. split; [apply in_or_app; now left | reflexivity].
      * exists "items". split; [apply in_or_app; right; now left |].
        reflexivity.
Qed.

Lemma converter_keeps_the_known_entries_witness :
  dict_mem (KStr "items")
    [(KStr "type", VStr "array");
     (KStr "items",
      VDict [(KStr "type", VStr "array");
             (KStr "items", VDict [(KStr "type", VStr "integer");
                                   (KStr "minimum", VInt 0)])])]
  = true.
Proof.
  destruct (converter_keeps_the_known_entries
              [(KStr "type", VStr "array");
               (KStr "style", VStr "form");
               (KStr "items",
                obj [("type", VStr "array");
                     ("items", obj [("type", VStr "integer");
                                    ("minimum", VInt 0);
                                    ("example", VInt 7)])])]
              _ eq_refl) as [_ [H _]].
  exact H.
Defined.

Lemma copy_key_other (k : string) (param : value) (schema schema' : dict) :
  (forall d, param <> VDict d) ->
  mcp_server.copy_key k param schema = Ret schema' -> schema' = schema.
Proof.
  unfold mcp_server.copy_key. intros Hp H. bind_inv H. destruct x.
  - bind_inv H. destruct param; try discriminate. now elim (Hp d).
  - now ret_inv H.
Qed.

Lemma convert_other (param : value) (s : dict) :
  (forall d, param <> VDict d) ->
  mcp_server._convert_openapi_type_to_json_schema param = Ret s -> s = [].
Proof.
  intros Hp H. rewrite _convert_eq in H. bind_inv H. bind_inv H.
  assert (Hx : x = []).
  { unfold mcp_server.copy_plain_keys in E. do 6 (bind_inv E).
    repeat match goal with
           | Hc : mcp_server.copy_key _ param _ = Ret _ |- _ =>
               apply (copy_key_other _ _ _ _ Hp) in Hc; subst
           end.
    reflexivity. }
  subst x. destruct x0.
  - bind_inv H. destruct param; try discriminate. now elim (Hp d).
  - now ret_inv H.
Qed.

Lemma convert_dict_again (d s : dict) :
  (forall x items,
      dict_get (KStr "items") d = Some x ->
      mcp_server._convert_openapi_type_to_json_schema x = Ret items ->
      mcp_server._convert_openapi_type_to_json_schema (VDict items)
      = Ret items) ->
  mcp_server._convert_openapi_type_to_json_schema (VDict d) = Ret s ->
  mcp_server._convert_openapi_type_to_json_schema (VDict s) = Ret s.
Proof.
  intros IH H.
  destruct (_convert_dict_inv d s H)
    as [plain [Hplain [[Hno ->] | [x [items [Hx [Hitems ->]]]]]]].
  - assert (Hagain : mcp_server.copy_plain_keys (VDict plain) = Ret plain).
    { rewrite <- Hplain. apply copy_plain_keys_ext. intros k Hk.
      now apply copy_plain_keys_lookup. }
    rewrite _convert_eq, Hagain. cbn [bind py_in].
    destruct (dict_mem (KStr "items") plain) eqn:Hm; [| reflexivity].
    apply dict_mem_keys_inv in Hm. destruct Hm as [k [Hk Hq]].
    destruct (copy_plain_keys_keys _ _ k Hplain Hk) as [k' [Hk' ->]].
    rewrite key_eqb_sym, (plain_key_is_not_items k' Hk') in Hq.
    discriminate.
  - assert (Hagain :
      mcp_server.copy_plain_keys
        (VDict (dict_set (KStr "items") (VDict items) plain)) = Ret plain).
    { rewrite <- Hplain. apply copy_plain_keys_ext. intros k Hk.
      rewrite dict_get_set, (plain_key_is_not_items k Hk).
      now apply copy_plain_keys_lookup. }
    rewrite _convert_eq, Hagain. cbn [bind py_in].
    rewrite dict_mem_set, key_eqb_refl. cbn [orb py_getitem].
    rewrite dict_get_set, key_eqb_refl. cbn [bind].
    rewrite (IH x items Hx Hitems). reflexivity.
Qed.

(** X6: the converter is idempotent: converting a schema that it returned
    gives this schema back, at every depth of [items]. *)
Theorem converter_is_idempotent (param : value) (s : dict) :
  mcp_server._convert_openapi_type_to_json_schema param = Ret s ->
  mcp_server._convert_openapi_type_to_json_schema (VDict s) = Ret s.
Proof.
  revert s.
  induction param as [| b | z | str | l IHl | d IHd] using value_nested_ind;
    intros res Hres;
    try (assert (Hempty : res = [])
           by (revert Hres; apply convert_other; discriminate);
         subst res; reflexivity).
  apply (convert_dict_again d res); [| exact Hres].
  intros x items Hx Hitems.
  destruct (dict_get_in _ _ _ Hx) as [k' Hin].
  rewrite Forall_forall in IHd. exact (IHd (k', x) Hin items Hitems).
Qed.

Lemma converter_is_idempotent_witness :
  mcp_server._convert_openapi_type_to_json_schema
    (VDict [(KStr "type", VStr "array");
            (KStr "items",
             VDict [(KStr "type", VStr "array");
                    (KStr "items", VDict [(KStr "type", VStr "integer");
                                          (KStr "minimum", VInt 0)])])])
  = Ret [(KStr "type", VStr "array");
         (KStr "items",
          VDict [(KStr "type", VStr "array");
                 (KStr "items", VDict [(KStr "type", VStr "integer");
                                       (KStr "minimum", VInt 0)])])].
Proof.
  apply (converter_is_idempotent nested_array_schema). reflexivity.
Defined.

(** ** The input schema of an operation, continued *)

Lemma listed_keys (k : key) (d : dict) :
  dict_mem k d = true -> listed (map of_key (dict_keys d)) k = true.
Proof.
  intros H. apply dict_mem_keys_inv in H. destruct H as [k' [Hk' Hq]].
  unfold listed. apply existsb_exists. exists (of_key k'). split.
  - now apply in_map.
  - unfold key_eq_value. now rewrite to_key_of_key.
Qed.

Lemma listed_app (k : key) (a b : list value) :
  listed a k = true -> listed (a ++ b) k = true.
Proof.
  unfold listed. rewrite existsb_app. intros ->. reflexivity.
Qed.

Lemma covered_grows (p : value) (properties properties' : dict)
  (required required' : list value) :
  (forall k, dict_mem k properties = true -> dict_mem k properties' = true) ->
  (forall k, dict_mem k properties' = true ->
             listed required k = true -> listed required' k = true) ->
  covered properties required p -> covered properties' required' p.
Proof.
  intros Hp Hr [n [k [Hn [Hk [Hm Hreq]]]]].
  exists n, k. split; [exact Hn |]. split; [exact Hk |].
  split; [now apply Hp |].
  intros mark Hmark Ht. apply Hr; [now apply Hp | now apply (Hreq mark)].
Qed.

Lemma parameter_step_grows (st st' : dict * list value) (p : value) :
  mcp_server.parameter_step st p = Ret st' ->
  (forall k, dict_mem k (fst st) = true -> dict_mem k (fst st') = true)
  /\ (forall k, listed (snd st) k = true -> listed (snd st') k = true)
  /\ covered (fst st') (snd st') p.
Proof.
  unfold mcp_server.parameter_step. destruct st as [properties required].
  intros H. bind_inv H. bind_inv H. bind_inv H. bind_inv H. bind_inv H.
  ret_inv H. simpl. split; [| split].
  - intros k Hk. rewrite dict_mem_set, Hk. apply orb_true_r.
  - intros k Hk. destruct (truthy x3); [now apply listed_app | exact Hk].
  - exists x, x2. split; [exact E |]. split; [exact E2 |]. split.
    + now rewrite dict_mem_set, key_eqb_refl.
    + intros mark Hmark Ht. rewrite E3 in Hmark. ret_inv Hmark. rewrite Ht.
      unfold listed. rewrite existsb_app. simpl.
      unfold key_eq_value. rewrite E2, key_eqb_refl.
      now rewrite orb_true_r.
Qed.

Lemma parameters_covered (ps : list value) :
  forall st st',
    for_each mcp_server.parameter_step st ps = Ret st' ->
    (forall k, dict_mem k (fst st) = true -> dict_mem k (fst st') = true)
    /\ (forall k, listed (snd st) k = true -> listed (snd st') k = true)
    /\ forall p, In p ps -> covered (fst st') (snd st') p.
Proof.
  induction ps as [| p r IH]; simpl; intros st st' H.
  - ret_inv H. repeat split; auto. intros p [].
  - bind_inv H.
    destruct (parameter_step_grows st x p E) as [Hp1 [Hr1 Hc1]].
    destruct (IH x st' H) as [Hp2 [Hr2 Hc2]].
    split; [auto | split; [auto |]].
    intros q [<- | Hq]; [| now apply Hc2].
    apply (covered_grows p (fst x) (fst st') (snd x) (snd st')); auto.
Qed.

Lemma dict_mem_is_property (k : key) (d : dict) :
  dict_mem k d = is_property d (of_key k).
Proof. unfold is_property. now rewrite to_key_of_key. Qed.

(** What the request body does to the properties and to the required names:
    the properties only grow, and a name that was listed stays listed. *)
Lemma handle_request_body_grows (request_body : value)
  (st st' : dict * list value) :
  mcp_server.handle_request_body request_body st = Ret st' ->
  (forall k, dict_mem k (fst st) = true -> dict_mem k (fst st') = true)
  /\ (forall k, dict_mem k (fst st') = true ->
                listed (snd st) k = true -> listed (snd st') k = true).
Proof.
  unfold mcp_server.handle_request_body. intros H. bind_inv H.
  assert (Hmerge :
    (forall k, dict_mem k (fst st) = true -> dict_mem k (fst x) = true)
    /\ (forall k, listed (snd st) k = true -> listed (snd x) k = true)).
  { unfold mcp_server.merge_request_body in E. bind_inv E. bind_inv E.
    destruct x1; [| ret_inv E; now split].
    unfold mcp_server.merge_json_body in E. destruct st as [properties required].
    bind_inv E. bind_inv E. bind_inv E.
    destruct x3; [| ret_inv E; now split].
    bind_inv E. bind_inv E. bind_inv E.
    assert (Hup : forall k, dict_mem k properties = true ->
                            dict_mem k x4 = true).
    { intros k. rewrite !dict_mem_is_property.
      now apply py_update_mono with x3. }
    destruct x5.
    - bind_inv E. bind_inv E. ret_inv E. simpl.
      split; [exact Hup |]. intros k. apply listed_app.
    - ret_inv E. now split. }
  destruct Hmerge as [Hp Hr].
  unfold mcp_server.require_everything in H. destruct x as [properties required].
  bind_inv H.
  match type of H with
  | (if ?c then _ else _) = _ => destruct c
  end; ret_inv H; simpl in *.
  - split; [exact Hp |]. intros k Hk _. now apply listed_keys.
  - split; [exact Hp |]. intros k _. apply Hr.
Qed.

(** X7: in the schema of an operation, every declared parameter has its
    property, whatever the request body adds, and every parameter marked
    required has its name in [required]. *)
Theorem declared_parameters_are_in_the_schema (operation schema : value) :
  mcp_server._extract_parameters operation = Ret schema ->
  exists params properties required,
    bind (py_get operation "parameters" (VList [])) py_iter = Ret params
    /\ schema = schema_of properties required
    /\ forall p, In p params -> covered properties required p.
Proof.
  intros H. unfold mcp_server._extract_parameters in H.
  bind_inv H. bind_inv H. bind_inv H. bind_inv H. bind_inv H. ret_inv H.
  exists x0, (fst x3), (snd x3). rewrite E. simpl.
  split; [exact E0 |]. split; [reflexivity |].
  destruct (parameters_covered x0 _ _ E1) as [_ [_ Hc]].
  intros p Hp. specialize (Hc p Hp).
  destruct x2.
  - bind_inv E3.
    destruct (handle_request_body_grows _ _ _ E3) as [Hg Hl].
    revert Hc. apply covered_grows; auto.
  - ret_inv E3. exact Hc.
Qed.

Lemma declared_parameters_are_in_the_schema_witness :
  exists properties required,
    mcp_server._extract_parameters op_shadowed_parameter
    = Ret (schema_of properties required)
    /\ covered properties required
         (obj [("name", VStr "name"); ("in", VStr "query");
               ("required", VBool true);
               ("schema", obj [("type", VStr "integer")])]).
Proof.
  destruct (declared_parameters_are_in_the_schema op_shadowed_parameter
              _ eq_refl) as [params [properties [required [Hp [Hs Hc]]]]].
  vm_compute in Hp. ret_inv Hp.
  exists properties, required. split.
  - now rewrite <- Hs.
  - apply Hc. now left.
Defined.

(** *** Body properties *)

Ltac bind_as H a Ha :=
  apply bind_ret_inv in H; destruct H as [a [Ha H]].

Lemma dict_get_update (k : key) (other : dict) :
  distinct_keys other = true ->
  forall d,
    dict_get k (dict_update d other)
    = match dict_get k other with
      | Some v => Some v
      | None => dict_get k d
      end.
Proof.
  unfold dict_update.
  induction other as [| [k0 v0] r IH]; simpl; intros Hd d.
  - reflexivity.
  - apply andb_true_iff in Hd. destruct Hd as [Hk0 Hr].
    rewrite (IH Hr), dict_get_set.
    destruct (key_eqb k k0) eqn:E; [| reflexivity].
    apply negb_true_iff in Hk0. unfold dict_mem in Hk0.
    rewrite (dict_get_compat k k0 r E).
    now destruct (dict_get k0 r).
Qed.

(** X8: the properties of a JSON request body replace the properties of the
    parameters of the same name: in the built schema every body property is
    found with the value that the body gives it, unconverted. *)
Theorem body_properties_replace_parameters
  (operation schema json_schema : value) (body_properties : dict) :
  mcp_server._extract_parameters operation = Ret schema ->
  json_body_schema operation = Ret json_schema ->
  py_getitem json_schema "properties" = Ret (VDict body_properties) ->
  distinct_keys body_properties = true ->
  exists properties required,
    schema = schema_of properties required
    /\ forall k v,
         dict_get k body_properties = Some v ->
         dict_get k properties = Some v.
Proof.
  intros H Hjs Hbp Hd.
  unfold json_body_schema in Hjs.
  bind_as Hjs request_body Hrb. bind_as Hjs content Hcontent.
  bind_as Hjs media Hmedia.
  destruct (_extract_parameters_inv _ _ H)
    as [params [st0 [st [_ [-> Hst]]]]].
  exists (fst st), (snd st). split; [reflexivity |].
  destruct Hst as [[Hno _] | [request_body' [_ [Hrb' Hh]]]].
  { destruct operation; try discriminate. simpl in Hrb, Hno.
    unfold dict_mem in Hno.
    destruct (dict_get (KStr "requestBody") d); discriminate. }
  rewrite Hrb in Hrb'. ret_inv Hrb'.
  unfold mcp_server.handle_request_body in Hh. bind_as Hh merged Hmerge.
  assert (Hmerged : fst merged = dict_update (fst st0) body_properties).
  { unfold mcp_server.merge_request_body in Hmerge.
    rewrite Hcontent in Hmerge. cbn [bind] in Hmerge.
    bind_as Hmerge has_json Hjson.
    assert (has_json = true) as ->.
    { destruct content; try discriminate. simpl in Hmedia, Hjson.
      ret_inv Hjson. unfold dict_mem.
      now destruct (dict_get (KStr "application/json") d). }
    unfold mcp_server.merge_json_body in Hmerge.
    destruct st0 as [properties required].
    rewrite Hmedia in Hmerge. cbn [bind] in Hmerge.
    rewrite Hjs in Hmerge. cbn [bind] in Hmerge.
    bind_as Hmerge has_properties Hprops.
    assert (has_properties = true) as ->.
    { destruct json_schema; try discriminate. simpl in Hbp, Hprops.
      ret_inv Hprops. unfold dict_mem.
      now destruct (dict_get (KStr "properties") d). }
    rewrite Hbp in Hmerge. cbn [bind py_update] in Hmerge.
    bind_as Hmerge has_required Hreq. destruct has_required.
    - bind_as Hmerge body_required Hbr. bind_as Hmerge names Hnames.
      now ret_inv Hmerge.
    - now ret_inv Hmerge. }
  assert (Hfinal : fst st = fst merged).
  { unfold mcp_server.require_everything in Hh.
    destruct merged as [properties required].
    bind_as Hh mark Hmark.
    match type of Hh with
    | (if ?c then _ else _) = _ => destruct c
    end; now ret_inv Hh. }
  intros k v Hk.
  rewrite Hfinal, Hmerged, (dict_get_update k _ Hd), Hk. reflexivity.
Qed.

Lemma body_properties_replace_parameters_witness :
  exists properties required,
    mcp_server._extract_parameters op_shadowed_parameter
    = Ret (schema_of properties required)
    /\ dict_get (KStr "name") properties = Some (obj [("type", VStr "string")])
    /\ dict_get (KStr "email") properties = Some (VBool true).
Proof.
  destruct (body_properties_replace_parameters op_shadowed_parameter
              _ _ [(KStr "name", obj [("type", VStr "string")]);
                   (KStr "email", VBool true)]
              eq_refl eq_refl eq_refl eq_refl)
    as [properties [required [Hs Hall]]].
  exists properties, required. split; [now rewrite <- Hs |].
  split; apply Hall; reflexivity.
Defined.

(** ** The tool executor, continued *)

Lemma place_parameter_headers (bearer : string) (arguments : dict)
  (st st' : dict * dict) (p : value) :
  headers_kept bearer arguments (snd st) ->
  mcp_server.place_parameter arguments st p = Ret st' ->
  headers_kept bearer arguments (snd st').
Proof.
  unfold mcp_server.place_parameter. destruct st as [params headers]; simpl.
  intros Hk H. bind_as H n Hn. bind_as H k Hkey.
  destruct (dict_get k arguments) as [argument |] eqn:Harg;
    [| now ret_inv H].
  bind_as H loc Hloc.
  destruct (eq_str loc "query"); [now ret_inv H |].
  destruct (eq_str loc "header"); [| now ret_inv H].
  ret_inv H. simpl. destruct Hk as [Hmem [Hbearer Hstr]].
  split; [| split].
  - rewrite dict_mem_set, Hmem. apply orb_true_r.
  - intros Hnone. rewrite dict_get_set.
    destruct (key_eqb (KStr "Authorization") k) eqn:E; [| now apply Hbearer].
    rewrite (dict_get_compat _ _ arguments E), Harg in Hnone. discriminate.
  - intros q v. rewrite dict_get_set. destruct (key_eqb q k).
    + intros Hv. ret_inv Hv. now eexists.
    + apply Hstr.
Qed.

Lemma place_parameters_headers (bearer : string) (arguments : dict)
  (ps : list value) (st st' : dict * dict) :
  headers_kept bearer arguments (snd st) ->
  for_each (mcp_server.place_parameter arguments) st ps = Ret st' ->
  headers_kept bearer arguments (snd st').
Proof.
  intros Hk H. revert H.
  apply (for_each_invariant
           (fun s => headers_kept bearer arguments (snd s))); [| exact Hk].
  intros s a s' _. apply place_parameter_headers.
Qed.

(** The request of [build_request], with the state of the loop over the
    declared parameters and the body that it was built from. *)
Lemma build_request_inv (self : mcp_server.extractor)
  (info : mcp_server.tool_info) (arguments : dict)
  (rq : mcp_server.http_request) :
  mcp_server.build_request self info arguments = Ret rq ->
  exists parameters ps,
    py_get (mcp_server.operation info) "parameters" (VList [])
    = Ret parameters
    /\ py_iter parameters = Ret ps
    /\ for_each (mcp_server.place_parameter arguments)
         ([], [(KStr "Authorization",
                VStr ("Bearer " ++ py_str (mcp_server.token self)))])
         ps
       = Ret (mcp_server.rq_params rq, mcp_server.rq_headers rq)
    /\ (forall body,
           mcp_server.rq_json rq = Some body ->
           mcp_server.remaining_args parameters arguments = Ret body).
Proof.
  unfold mcp_server.build_request. intros H.
  bind_as H base0 Hbase0. bind_as H base Hbase.
  bind_as H parameters Hparameters. bind_as H ps Hps.
  bind_as H st Hst. destruct st as [params headers].
  bind_as H has_body Hbody. bind_as H json_data Hjson. ret_inv H. simpl.
  exists parameters, ps. repeat split; auto.
  intros body ->. destruct has_body; [| discriminate Hjson].
  rewrite Hparameters in Hjson. cbn [bind] in Hjson.
  bind_as Hjson remaining Hrem.
  destruct (truthy (VDict remaining)); [| discriminate Hjson].
  now ret_inv Hjson.
Qed.

(** X9: every request carries an [Authorization] header; it is the bearer
    token of the process unless the arguments hold an [Authorization] of
    their own; and every header value is a string. *)
Theorem authorization_header_is_always_sent (self : mcp_server.extractor)
  (info : mcp_server.tool_info) (arguments : dict)
  (rq : mcp_server.http_request) :
  mcp_server.build_request self info arguments = Ret rq ->
  dict_mem (KStr "Authorization") (mcp_server.rq_headers rq) = true
  /\ (dict_get (KStr "Authorization") arguments = None ->
      dict_get (KStr "Authorization") (mcp_server.rq_headers rq)
      = Some (VStr ("Bearer " ++ py_str (mcp_server.token self))))
  /\ (forall k v,
         dict_get k (mcp_server.rq_headers rq) = Some v ->
         exists s, v = VStr s).
Proof.
  intros H.
  destruct (build_request_inv _ _ _ _ H) as [parameters [ps [_ [_ [Hst _]]]]].
  apply (place_parameters_headers
           ("Bearer " ++ py_str (mcp_server.token self)) arguments ps _ _)
    in Hst; [exact Hst |].
  split; [reflexivity | split].
  - intros _. reflexivity.
  - intros k v. simpl.
    destruct (key_eqb k (KStr "Authorization")); [| discriminate].
    intros Hv. ret_inv Hv. now eexists.
Qed.

Lemma authorization_header_is_always_sent_witness :
  exists rq,
    mcp_server.build_request sample_extractor add_note_info add_note_arguments
    = Ret rq
    /\ mcp_server.rq_headers rq
       = [(KStr "Authorization", VStr "Bearer secret");
          (KStr "X-Trace", VStr "12")]
    /\ dict_mem (KStr "Authorization") (mcp_server.rq_headers rq) = true.
Proof.
  eexists. split; [reflexivity |]. split; [reflexivity |].
  apply (authorization_header_is_always_sent sample_extractor add_note_info
           add_note_arguments _ eq_refl).
Defined.

(** *** The query string and the body *)

Lemma dict_mem_in (k : key) (d : dict) :
  dict_mem k d = true -> exists k' v, In (k', v) d /\ key_eqb k k' = true.
Proof.
  unfold dict_mem. induction d as [| [k0 v0] r IH]; simpl.
  - discriminate.
  - destruct (key_eqb k k0) eqn:E.
    + intros _. exists k0, v0. split; [now left | exact E].
    + intros H. destruct (IH H) as [k' [v [Hin Hk]]].
      exists k', v. split; [now right | exact Hk].
Qed.

Lemma key_eq_value_compat (a b : key) (n : value) :
  key_eqb a b = true -> key_eq_value a n = key_eq_value b n.
Proof.
  intros H. unfold key_eq_value. destruct (to_key n); [| reflexivity].
  rewrite (key_eqb_sym a a0), (key_eqb_sym b a0).
  now apply key_eqb_compat.
Qed.

Lemma declared_false_inv (k : key) (ps : list value) :
  mcp_server.declared k ps = Ret false ->
  forall p, In p ps -> ~ named p k.
Proof.
  induction ps as [| q r IH]; simpl; intros H p Hp.
  - contradiction.
  - bind_as H n Hn. destruct (key_eq_value k n) eqn:E; [discriminate |].
    destruct Hp as [<- | Hp]; [| now apply IH].
    intros [n' [Hn' Hk]]. rewrite Hn in Hn'. ret_inv Hn'.
    rewrite E in Hk. discriminate.
Qed.

(** X10: the query string and the JSON body of a request share no key: an
    argument that is put in the query string is never in the JSON body of
    the same request.  (The URL and the headers are another matter: an
    argument substituted in the URL is placed again, and two parameters of
    one name can put an argument in the query string and in a header.) *)
Theorem query_and_body_are_disjoint (self : mcp_server.extractor)
  (info : mcp_server.tool_info) (arguments : dict)
  (rq : mcp_server.http_request) (body : dict) :
  mcp_server.build_request self info arguments = Ret rq ->
  mcp_server.rq_json rq = Some body ->
  forall k,
    dict_mem k (mcp_server.rq_params rq) = true -> dict_mem k body = false.
Proof.
  intros H Hbody k Hq.
  destruct (build_request_inv _ _ _ _ H)
    as [parameters [ps [_ [Hps [Hst Hrem]]]]].
  specialize (Hrem body Hbody).
  assert (Hempty : agrees arguments []) by (intros q v Hv; discriminate).
  destruct (place_parameters_query arguments ps (_, _) _ Hempty Hst)
    as [_ Hquery].
  simpl in Hquery.
  unfold dict_mem in Hq.
  destruct (dict_get k (mcp_server.rq_params rq)) as [v |] eqn:Hv;
    [| discriminate].
  apply Hquery in Hv. destruct Hv as [Hv | [_ [p [Hp [Hnamed _]]]]];
    [discriminate |].
  destruct (dict_mem k body) eqn:Hm; [| reflexivity].
  apply dict_mem_in in Hm. destruct Hm as [k' [v' [Hin Hk]]].
  apply (remaining_args_spec parameters ps arguments body Hps Hrem) in Hin.
  destruct Hin as [_ Hdecl].
  elim (declared_false_inv k' ps Hdecl p Hp).
  destruct Hnamed as [n [Hn Hkn]]. exists n. split; [exact Hn |].
  now rewrite <- (key_eq_value_compat k k' n Hk).
Qed.

Lemma query_and_body_are_disjoint_witness :
  exists rq,
    mcp_server.build_request sample_extractor add_note_info add_note_arguments
    = Ret rq
    /\ mcp_server.rq_params rq = [(KStr "notify", VBool false)]
    /\ mcp_server.rq_json rq
       = Some [(KStr "id", VInt 7); (KStr "text", VStr "hello")]
    /\ dict_mem (KStr "notify")
         [(KStr "id", VInt 7); (KStr "text", VStr "hello")] = false.
Proof.
  eexists. split; [reflexivity |]. split; [reflexivity |].
  split; [reflexivity |].
  apply (query_and_body_are_disjoint sample_extractor add_note_info
           add_note_arguments _ _ eq_refl eq_refl).
  reflexivity.
Defined.

(** ** The catalog entry of a generated schema *)

Lemma dict_set_in (k k' : key) (v v' : value) (d : dict) :
  In (k, v) (dict_set k' v' d) -> In (k, v) d \/ v = v'.
Proof.
  induction d as [| [k0 v0] r IH]; simpl.
  - intros [H | []]. ret_inv H. now right.
  - destruct (key_eqb k' k0); simpl.
    + intros [H | H]; [ret_inv H; now right | left; now right].
    + intros [H | H]; [left; now left |].
      destruct (IH H) as [H' | H']; [left; now right | now right].
Qed.

Lemma parameter_step_dict_valued (st st' : dict * list value) (p : value) :
  dict_valued (fst st) ->
  mcp_server.parameter_step st p = Ret st' ->
  dict_valued (fst st').
Proof.
  unfold mcp_server.parameter_step. destruct st as [properties required].
  simpl. intros Hd H.
  bind_as H n Hn. bind_as H fragment Hf. bind_as H schema Hs.
  bind_as H k Hk. bind_as H mark Hm. ret_inv H. simpl.
  intros q v Hin. apply dict_set_in in Hin.
  destruct Hin as [Hin | ->]; [now apply (Hd q) | now eexists].
Qed.

Lemma schema_of_required (properties : dict) (required : list value) :
  py_get (schema_of properties required) "required" (VList [])
  = Ret (VList required).
Proof. reflexivity. Qed.

(** The loop of [format_for_llm] over properties that are dictionaries: one
    line for each of them. *)
Lemma describe_arguments_return (properties : dict) (required : list value)
  (entries : dict) :
  dict_valued entries ->
  forall lines, exists lines',
    for_each (orion.describe_argument (schema_of properties required))
      lines entries
    = Ret lines'
    /\ List.length lines' = (List.length lines + List.length entries)%nat.
Proof.
  induction entries as [| [k v] r IH]; intros Hd lines.
  - exists lines. split; [reflexivity | simpl; lia].
  - destruct (Hd k v (or_introl eq_refl)) as [d ->].
    assert (Hr : dict_valued r)
      by (intros q w Hq; apply (Hd q w); now right).
    cbn [for_each]. unfold orion.describe_argument at 1.
    cbn [py_get].
    destruct (dict_get (KStr "description") d) as [text |]; cbn [bind];
      rewrite schema_of_required; cbn [bind py_in];
      match goal with
      | |- context [for_each _ ?l r] =>
          destruct (IH Hr l) as [lines' [Hl Hlen]]
      end;
      exists lines'; (split; [exact Hl |]);
      rewrite Hlen, length_app; simpl; lia.
Qed.

(** The properties of an operation without a request body are the ones of
    its parameters, which are dictionaries. *)
Lemma parameters_dict_valued (operation schema : value) :
  mcp_server._extract_parameters operation = Ret schema ->
  py_in (KStr "requestBody") operation = Ret false ->
  exists properties required,
    schema = schema_of properties required /\ dict_valued properties.
Proof.
  intros H Hno.
  destruct (_extract_parameters_inv _ _ H)
    as [params [st0 [st [Hst0 [-> Hst]]]]].
  destruct Hst as [[_ ->] | [request_body [Hyes _]]];
    [| rewrite Hno in Hyes; discriminate].
  exists (fst st0), (snd st0). split; [reflexivity |].
  revert Hst0. apply (for_each_invariant (fun s => dict_valued (fst s))).
  - intros s a s' _. apply parameter_step_dict_valued.
  - intros k v [].
Qed.

Lemma format_for_llm_returns (properties : dict) (required : list value)
  (tool_name : string) (tool_description : value) :
  dict_valued properties ->
  exists lines,
    List.length lines = List.length properties
    /\ orion.format_for_llm
         {| orion.name := tool_name;
            orion.description := tool_description;
            orion.input_schema := schema_of properties required |}
       = Ret (nl ++ "Tool: " ++ tool_name ++ nl
              ++ "Description: " ++ py_str tool_description ++ nl
              ++ "Arguments:" ++ nl
              ++ join nl lines ++ nl).
Proof.
  intros Hd.
  destruct (describe_arguments_return properties required properties Hd [])
    as [lines [Hlines Hlen]].
  exists lines. split; [exact Hlen |].
  unfold orion.format_for_llm.
  cbn [orion.input_schema orion.name orion.description].
  change (py_in (KStr "properties") (schema_of properties required))
    with (Ret true).
  cbn [bind].
  change (py_getitem (schema_of properties required) "properties")
    with (Ret (VDict properties)).
  cbn [bind py_items]. rewrite Hlines. reflexivity.
Qed.

(** X11: the schema that [_extract_parameters] makes of an operation without
    a request body can be rendered for the prompt: its properties are
    dictionaries, and [format_for_llm] returns the header of the tool
    followed by one line for each property. *)
Theorem generated_schema_is_rendered (operation schema : value)
  (tool_name : string) (tool_description : value) :
  mcp_server._extract_parameters operation = Ret schema ->
  py_in (KStr "requestBody") operation = Ret false ->
  exists properties required lines,
    schema = schema_of properties required
    /\ dict_valued properties
    /\ List.length lines = List.length properties
    /\ orion.format_for_llm
         {| orion.name := tool_name;
            orion.description := tool_description;
            orion.input_schema := schema |}
       = Ret (nl ++ "Tool: " ++ tool_name ++ nl
              ++ "Description: " ++ py_str tool_description ++ nl
              ++ "Arguments:" ++ nl
              ++ join nl lines ++ nl).
Proof.
  intros H Hno.
  destruct (parameters_dict_valued operation schema H Hno)
    as [properties [required [-> Hd]]].
  destruct (format_for_llm_returns properties required tool_name
              tool_description Hd) as [lines [Hlen Hlines]].
  exists properties, required, lines. auto.
Qed.

Lemma generated_schema_is_rendered_witness :
  exists lines,
    List.length lines = 1%nat
    /\ orion.format_for_llm
         {| orion.name := "get_user";
            orion.description := VNone;
            orion.input_schema := schema_of [(KStr "verbose", VDict [])] [] |}
       = Ret (nl ++ "Tool: get_user" ++ nl
              ++ "Description: None" ++ nl
              ++ "Arguments:" ++ nl
              ++ join nl lines ++ nl).
Proof.
  destruct (generated_schema_is_rendered op_get_user _ "get_user" VNone
              eq_refl eq_refl)
    as [properties [required [lines [Hs [_ [Hlen H]]]]]].
  vm_compute in Hs. injection Hs as <- _.
  exists lines. split; [exact Hlen | exact H].
Defined.

(** A body property that is no dictionary cannot be rendered. *)
Example body_property_breaks_the_rendering :
  exists schema,
    mcp_server._extract_parameters op_shadowed_parameter = Ret schema
    /\ orion.format_for_llm
         {| orion.name := "create_user";
            orion.description := VNone;
            orion.input_schema := schema |}
       = Raise AttributeError.
Proof. eexists. split; reflexivity. Qed.

(** ** The calls of a turn *)

Lemma call_tool_events {world : orion.Collaborators} (self : orion.Orion)
  (tool_name arguments : value) (h h' : orion.history) (r : exc string) :
  orion.call_tool self tool_name arguments h = (h', r) ->
  (h' = h /\ exists e, r = Raise e)
  \/ (h' = (h ++ [orion.CallTool tool_name arguments])%list
      /\ exists text, r = Ret text).
Proof.
  unfold orion.call_tool. destruct (orion.session self); cbn [negb].
  - destruct (orion.session_call_tool h tool_name arguments) as [result | msg].
    + destruct (orion.content result); intros H; ret_inv H; right;
        (split; [reflexivity | now eexists]).
    + intros H. ret_inv H. right. split; [reflexivity | now eexists].
  - intros H. ret_inv H. left. split; [reflexivity | now eexists].
Qed.

Ltac turn_case :=
  match goal with
  | |- context [match ?x with Ret _ => _ | Raise _ => _ end] =>
      destruct x; cbv beta iota
  end.

Ltac turn_done :=
  let H := fresh in
  intros H; ret_inv H; rewrite <- ?app_assoc;
  eexists; split; reflexivity.

Lemma attempt_events {world : orion.Collaborators} (self : orion.Orion)
  (system_prompt query : string) (h h' : orion.history) (r : exc string) :
  orion.attempt self system_prompt query h = (h', r) ->
  exists events, h' = (h ++ events)%list /\ turn_shape events = true.
Proof.
  cbv beta iota zeta
    delta [orion.attempt orion.tbind orion.lift orion.invoke orion.tret].
  turn_case; [| turn_done].
  turn_case; [| turn_done].
  match goal with
  | |- context [truthy ?tool_call] => destruct (truthy tool_call)
  end; [| turn_done].
  turn_case; [| turn_done].
  turn_case; [| turn_done].
  match goal with
  | |- context [orion.call_tool ?s ?n ?a ?h1] =>
      destruct (orion.call_tool s n a h1) as [h2 r2] eqn:Hcall
  end.
  destruct (call_tool_events _ _ _ _ _ _ Hcall)
    as [[-> [e ->]] | [-> [text ->]]]; cbv beta iota.
  - turn_done.
  - turn_case; turn_done.
Qed.

(** X12: one turn of [process_query] makes at most three calls out of the
    process, in this order: a generation, a tool call, a generation.  The
    history grows by nothing, by one generation, by a generation and a tool
    call, or by these and the follow-up generation; there is never a second
    tool call, and no tool call without a generation before it. *)
Theorem a_turn_makes_at_most_three_calls {world : orion.Collaborators}
  (self : orion.Orion) (query : string) (h h' : orion.history)
  (r : exc string) :
  orion.process_query self query h = (h', r) ->
  exists events, h' = (h ++ events)%list /\ turn_shape events = true.
Proof.
  unfold orion.process_query. destruct (orion.llm self); cbn [negb].
  - unfold orion.tbind at 1. unfold orion.lift at 1.
    destruct (orion._format_tools_for_prompt self) as [tools_text | e].
    + unfold orion.try_except, orion.tret.
      destruct (orion.attempt self (orion.system_prompt_of tools_text) query h)
        as [h1 [answer | e]] eqn:Ha;
        intros H; ret_inv H; exact (attempt_events _ _ _ _ _ _ Ha).
    + intros H. ret_inv H. exists []. now rewrite app_nil_r.
  - unfold orion.tret. intros H. ret_inv H. exists [].
    now rewrite app_nil_r.
Qed.

Lemma a_turn_makes_at_most_three_calls_witness :
  exists events,
    fst (orion.process_query (world := weather_world) connected_agent
           "Weather in Paris?" [orion.Generate "earlier"])
    = ([orion.Generate "earlier"] ++ events)%list
    /\ turn_shape events = true.
Proof.
  apply (a_turn_makes_at_most_three_calls (world := weather_world)
           connected_agent "Weather in Paris?" [orion.Generate "earlier"]
           _ _ (surjective_pairing _)).
Defined.

(** ** A turn over a generated catalog *)

Lemma format_tools_return (catalog : list orion.Tool) :
  Forall generated catalog ->
  forall acc, exists text,
    for_each (fun acc tool => t <- orion.format_for_llm tool ;; Ret (acc ++ t))
      acc catalog
    = Ret text.
Proof.
  induction 1 as [| tool r [operation [Hop Hno]] _ IH]; intros acc.
  - now exists acc.
  - destruct tool as [tool_name tool_description schema].
    cbn [orion.input_schema] in Hop.
    destruct (parameters_dict_valued operation schema Hop Hno)
      as [properties [required [-> Hd]]].
    destruct (format_for_llm_returns properties required tool_name
                tool_description Hd) as [lines [_ Hlines]].
    cbn [for_each]. rewrite Hlines. cbn [bind]. apply IH.
Qed.

(** X13: with a catalog whose schemas were generated from operations without
    a request body, the system prompt is rendered and [process_query]
    returns a string: the turn raises nothing, whatever the model, the
    session and the JSON codec do. *)
Theorem turn_over_a_generated_catalog_returns {world : orion.Collaborators}
  (self : orion.Orion) (query : string) (h : orion.history) :
  Forall generated (orion.tools self) ->
  (exists tools_text, orion._format_tools_for_prompt self = Ret tools_text)
  /\ exists h' answer, orion.process_query self query h = (h', Ret answer).
Proof.
  intros Hg.
  assert (Htools : exists tools_text,
             orion._format_tools_for_prompt self = Ret tools_text).
  { unfold orion._format_tools_for_prompt.
    destruct (orion.tools self) as [| tool r] eqn:Ht; [now eexists |].
    destruct (format_tools_return (tool :: r) Hg "Available tools:")
      as [text Htext].
    rewrite Htext. cbn [bind]. now eexists. }
  split; [exact Htools |]. destruct Htools as [tools_text Htools].
  destruct (orion.llm self) eqn:Hllm.
  - rewrite (process_query_catches self query h tools_text Hllm Htools).
    destruct (orion.attempt self (orion.system_prompt_of tools_text) query h)
      as [h' [answer | e]]; now eexists; eexists.
  - unfold orion.process_query. rewrite Hllm. cbn [negb].
    now eexists; eexists.
Qed.

Lemma turn_over_a_generated_catalog_returns_witness :
  exists h' answer,
    orion.process_query (world := weather_world) get_user_agent
      "Weather in Paris?" []
    = (h', Ret answer).
Proof.
  apply (turn_over_a_generated_catalog_returns (world := weather_world)
           get_user_agent "Weather in Paris?" []).
  constructor; [| constructor].
  exists op_get_user. split; reflexivity.
Defined.

(** ** A turn with a tool call *)

Lemma extract_from_braces {world : orion.Collaborators}
  (pre mid post : string) (parsed tool_call : value) :
  str_contains "{" pre = false ->
  str_contains "}" post = false ->
  orion.json_loads ("{" ++ mid ++ "}") = Ret parsed ->
  py_getitem parsed "tool_call" = Ret tool_call ->
  orion._extract_tool_call (pre ++ "{" ++ mid ++ "}" ++ post) = Ret tool_call.
Proof.
  intros Hpre Hpost Hloads Hget.
  unfold orion._extract_tool_call. cbv zeta.
  change (py_slice (pre ++ "{" ++ mid ++ "}" ++ post)
            (py_find "{" (pre ++ "{" ++ mid ++ "}" ++ post))
            (py_rfind "}" (pre ++ "{" ++ mid ++ "}" ++ post) + 1))
    with (between_braces (pre ++ "{" ++ mid ++ "}" ++ post)).
  rewrite (between_braces_spec pre mid post Hpre Hpost), Hloads.
  assert (Hfind : (py_find "{" (pre ++ "{" ++ mid ++ "}" ++ post) =? -1)%Z
                  = false).
  { unfold py_find.
    change (pre ++ "{" ++ mid ++ "}" ++ post)
      with (pre ++ String "{" (mid ++ String "}" post)).
    rewrite (find_from_first _ _ _ 0%Z Hpre). apply Z.eqb_neq. lia. }
  assert (Hrfind : (py_rfind "}" (pre ++ "{" ++ mid ++ "}" ++ post) =? -1)%Z
                   = false).
  { unfold py_rfind.
    change (pre ++ "{" ++ mid ++ "}" ++ post)
      with (pre ++ String "{" (mid ++ String "}" post)).
    replace (pre ++ String "{" (mid ++ String "}" post))
      with ((pre ++ String "{" mid) ++ String "}" post)
      by (now rewrite append_assoc).
    rewrite (rfind_from_last _ _ _ 0%Z ltac:(lia) Hpost).
    apply Z.eqb_neq. lia. }
  rewrite Hfind, Hrfind. cbn [negb andb bind].
  destruct parsed; try discriminate. cbn [py_getitem] in Hget.
  cbn [py_in bind]. unfold dict_mem.
  destruct (dict_get (KStr "tool_call") d) as [x |] eqn:Hd; [| discriminate].
  ret_inv Hget. cbn [py_getitem]. rewrite Hd. reflexivity.
Qed.



(** X15: a [tool_call] that is empty ([null], an empty object, an empty
    string, zero, [false]) is no tool call: the reply, with its JSON text, is
    returned as the answer after the one generation. *)
Theorem empty_tool_call_is_a_direct_answer {world : orion.Collaborators}
  (self : orion.Orion) (query : string) (h : orion.history)
  (tools_text pre mid post : string) (parsed tool_call : value) :
  let first_prompt :=
    orion.full_prompt_of (orion.system_prompt_of tools_text) query in
  orion.llm self = true ->
  orion._format_tools_for_prompt self = Ret tools_text ->
  orion.llm_invoke h first_prompt = Ret (pre ++ "{" ++ mid ++ "}" ++ post) ->
  str_contains "{" pre = false ->
  str_contains "}" post = false ->
  orion.json_loads ("{" ++ mid ++ "}") = Ret parsed ->
  py_getitem parsed "tool_call" = Ret tool_call ->
  truthy tool_call = false ->
  orion.process_query self query h
  = ((h ++ [orion.Generate first_prompt])%list,
     Ret (pre ++ "{" ++ mid ++ "}" ++ post)).
Proof.
  intros first_prompt Hllm Htools Hreply Hpre Hpost Hloads Hget Hfalsy.
  rewrite (process_query_catches self query h tools_text Hllm Htools).
  unfold orion.attempt.
  unfold orion.tbind at 1. unfold orion.invoke at 1.
  fold first_prompt. rewrite Hreply.
  unfold orion.tbind at 1. unfold orion.lift at 1.
  rewrite (extract_from_braces pre mid post parsed tool_call
             Hpre Hpost Hloads Hget), Hfalsy.
  reflexivity.
Qed.

Lemma empty_tool_call_is_a_direct_answer_witness :
  orion.process_query (world := odd_call_world null_call_json)
    connected_agent "Hello" []
  = ([orion.Generate (orion.full_prompt_of sample_system_prompt "Hello")],
     Ret null_call_json).
Proof.
  apply (empty_tool_call_is_a_direct_answer
           (world := odd_call_world null_call_json)
           connected_agent "Hello" [] "No tools available."
           "" (quoted "tool_call" ++ ": null") ""
           (obj [("tool_call", VNone)]) VNone);
    reflexivity.
Defined.

(** X16: a [tool_call] that is not empty and is no object (a string, a
    number, a list) ends the turn with the apology, after the one generation
    and without any tool call: [tool_call.get] raises inside the [try]. *)
Theorem tool_call_that_is_no_object_gives_the_apology
  {world : orion.Collaborators}
  (self : orion.Orion) (query : string) (h : orion.history)
  (tools_text pre mid post : string) (parsed tool_call : value) :
  let first_prompt :=
    orion.full_prompt_of (orion.system_prompt_of tools_text) query in
  orion.llm self = true ->
  orion._format_tools_for_prompt self = Ret tools_text ->
  orion.llm_invoke h first_prompt = Ret (pre ++ "{" ++ mid ++ "}" ++ post) ->
  str_contains "{" pre = false ->
  str_contains "}" post = false ->
  orion.json_loads ("{" ++ mid ++ "}") = Ret parsed ->
  py_getitem parsed "tool_call" = Ret tool_call ->
  truthy tool_call = true ->
  (forall d, tool_call <> VDict d) ->
  orion.process_query self query h
  = ((h ++ [orion.Generate first_prompt])%list, Ret orion.apology).
Proof.
  intros first_prompt Hllm Htools Hreply Hpre Hpost Hloads Hget Htruthy Hno.
  rewrite (process_query_catches self query h tools_text Hllm Htools).
  unfold orion.attempt.
  unfold orion.tbind at 1. unfold orion.invoke at 1.
  fold first_prompt. rewrite Hreply.
  unfold orion.tbind at 1. unfold orion.lift at 1.
  rewrite (extract_from_braces pre mid post parsed tool_call
             Hpre Hpost Hloads Hget), Htruthy.
  unfold orion.tbind at 1. unfold orion.lift at 1.
  destruct tool_call; try reflexivity. now elim (Hno d).
Qed.

Lemma tool_call_that_is_no_object_gives_the_apology_witness :
  orion.process_query (world := odd_call_world text_call_json)
    connected_agent "Weather in Paris?" []
  = ([orion.Generate
        (orion.full_prompt_of sample_system_prompt "Weather in Paris?")],
     Ret orion.apology).
Proof.
  apply (tool_call_that_is_no_object_gives_the_apology
           (world := odd_call_world text_call_json)
           connected_agent "Weather in Paris?" [] "No tools available."
           "" (quoted "tool_call" ++ ": " ++ quoted "get_weather") ""
           (obj [("tool_call", VStr "get_weather")]) (VStr "get_weather"));
    try reflexivity.
  intros d. discriminate.
Defined.

(** ** The service: the lock and the connection *)

Lemma step_holder (s s' : state) (l : label) :
  step s l s' ->
  locked s' = true -> exists i, inside (calls s' i) = true.
Proof.
  intros H. step_cases H; intros Hheld; try discriminate;
    exists who; now rewrite set_call_same.
Qed.

(** The lock is held only while a call is in the block. *)
Lemma run_holder (s s' : state) (t : list label) :
  run s t s' ->
  (locked s = true -> exists i, inside (calls s i) = true) ->
  locked s' = true -> exists i, inside (calls s' i) = true.
Proof.
  induction 1 as [s | s l s1 t s2 Hstep _ IH]; intros Hs.
  - exact Hs.
  - apply IH. now apply (step_holder s s1 l).
Qed.

(** From every place in the block, the steps of [way_out] lead the call out
    of the block and free the lock. *)
Lemma way_out_runs (s : state) (i : nat) :
  inside (calls s i) = true ->
  exists s',
    run s (way_out (connected s) i (calls s i)) s'
    /\ locked s' = false
    /\ calls s' i = Finished.
Proof.
  intros Hin.
  assert (Hleave : forall s0, calls s0 i = Leaving ->
            exists s',
              run s0 [Release i] s' /\ locked s' = false
              /\ calls s' i = Finished).
  { intros s0 H0. eexists. split; [| split].
    - eapply run_cons; [apply release; exact H0 | apply run_nil].
    - reflexivity.
    - apply set_call_same. }
  assert (Hnext : forall s0 l,
            step s0 l (move s0 i Leaving) ->
            exists s',
              run s0 [l; Release i] s' /\ locked s' = false
              /\ calls s' i = Finished).
  { intros s0 l Hstep.
    destruct (Hleave (move s0 i Leaving)
                (set_call_same i Leaving (calls s0)))
      as [s' [Hrun Hs']].
    exists s'. split; [| exact Hs'].
    now apply (run_cons s0 l (move s0 i Leaving)). }
  destruct (calls s i) eqn:Hpc; try discriminate; cbn [way_out].
  - destruct (connected s) eqn:Hc.
    + destruct (Hnext (move s i Querying) (Internal i)
                  (query_without_generation (move s i Querying) i
                     (set_call_same i Querying (calls s))))
        as [s' [Hrun Hs']].
      exists s'. split; [| exact Hs'].
      eapply run_cons; [now apply already_connected | exact Hrun].
    + destruct (Hnext (move s i Connecting) (Connect i)
                  (connect_raises (move s i Connecting) i
                     (set_call_same i Connecting (calls s))))
        as [s' [Hrun Hs']].
      exists s'. split; [| exact Hs'].
      eapply run_cons; [now apply not_connected | exact Hrun].
  - apply Hnext. now apply connect_raises.
  - apply Hnext. now apply query_without_generation.
  - apply Hnext. now apply tool_raises.
  - apply Hnext. now apply generate_follow_up.
  - now apply Hleave.
Qed.

(** X17: the lock is never leaked.  In every state that the calls of [chat]
    can reach, a held lock has its holder in the block, and from there the
    holder can leave the block and free the lock, also on the ways on which
    the connection, the turn or the tool call raises. *)
Theorem lock_is_never_leaked (is_connected : bool) (t : list label)
  (s : state) :
  run (initial is_connected) t s ->
  locked s = true ->
  exists i s',
    inside (calls s i) = true
    /\ run s (way_out (connected s) i (calls s i)) s'
    /\ locked s' = false
    /\ calls s' i = Finished.
Proof.
  intros Hrun Hl.
  destruct (run_holder _ _ _ Hrun ltac:(discriminate) Hl) as [i Hi].
  destruct (way_out_runs s i Hi) as [s' Hs'].
  exists i, s'. split; [exact Hi | exact Hs'].
Qed.

Lemma lock_is_never_leaked_witness :
  exists s,
    run (initial false) [Acquire 0; Internal 0] s
    /\ exists i s',
         inside (calls s i) = true
         /\ run s (way_out (connected s) i (calls s i)) s'
         /\ locked s' = false
         /\ calls s' i = Finished.
Proof.
  assert (R : exists s,
             run (initial false) [Acquire 0; Internal 0] s
             /\ locked s = true).
  { eexists. split.
    - eapply run_cons; [apply acquire; reflexivity |].
      eapply run_cons; [apply not_connected; reflexivity |].
      apply run_nil.
    - reflexivity. }
  destruct R as [s [R L]]. exists s.
  split; [exact R | exact (lock_is_never_leaked false _ s R L)].
Defined.

(** *** One connection *)

(** While a call is in [await self.connect()], the service is not
    connected. *)
Lemma step_connecting (s s' : state) (l : label) :
  exclusive s ->
  (forall i, calls s i = Connecting -> connected s = false) ->
  step s l s' ->
  forall i, calls s' i = Connecting -> connected s' = false.
Proof.
  intros [_ Hone] Hinv H.
  step_cases H; intros k Hk;
    (destruct (Nat.eq_dec k who) as [-> | Nk];
     [rewrite set_call_same in Hk; try discriminate; try assumption
     | rewrite set_call_other in Hk by exact Nk]);
    try now apply (Hinv k).
  elim Nk. apply Hone; [now rewrite Hk | now rewrite Hpc].
Qed.

Lemma run_connecting (s s' : state) (t : list label) :
  run s t s' ->
  exclusive s ->
  (forall i, calls s i = Connecting -> connected s = false) ->
  forall i, calls s' i = Connecting -> connected s' = false.
Proof.
  induction 1 as [s | s l s1 t s2 Hstep _ IH]; intros Hex Hinv.
  - exact Hinv.
  - apply IH.
    + now apply (step_exclusive s s1 l).
    + now apply (step_connecting s s1 l).
Qed.

(** Once the service is connected and no call is connecting, no step is a
    [Connect] and the service stays so. *)
Lemma step_settled (s s' : state) (l : label) :
  settled s -> step s l s' -> settled s' /\ is_connect l = false.
Proof.
  intros [Hcon Hno] H.
  step_cases H;
    try (now elim (Hno who)); try (rewrite Hcon in *; discriminate);
    (split; [split; [exact Hcon |] | reflexivity]);
    simpl; intros k Hk;
    (destruct (Nat.eq_dec k who) as [-> | Nk];
     [rewrite set_call_same in Hk; discriminate
     | rewrite set_call_other in Hk by exact Nk; now elim (Hno k)]).
Qed.

(** X18: the service connects at most once.  In every state that the calls
    of [chat] can reach with [self.connected] set, whatever the calls do
    afterwards, no call connects again and [self.connected] stays set. *)
Theorem service_connects_at_most_once (is_connected : bool)
  (t t' : list label) (s s' : state) :
  run (initial is_connected) t s ->
  connected s = true ->
  run s t' s' ->
  connected s' = true /\ existsb is_connect t' = false.
Proof.
  intros Hrun Hc Hrun'.
  assert (Hs : settled s).
  { split; [exact Hc |]. intros i Hi.
    rewrite (run_connecting _ _ _ Hrun (initial_exclusive is_connected)
               ltac:(discriminate) i Hi) in Hc.
    discriminate. }
  clear Hrun Hc. induction Hrun' as [s | s l s1 t' s2 Hstep _ IH].
  - split; [apply Hs | reflexivity].
  - destruct (step_settled s s1 l Hs Hstep) as [Hs1 Hl].
    destruct (IH Hs1) as [Hc2 Ht']. split; [exact Hc2 |].
    simpl. now rewrite Hl, Ht'.
Qed.

Lemma service_connects_at_most_once_witness :
  exists s s',
    run (initial false) [Acquire 0; Internal 0; Connect 0] s
    /\ run s [Generate 0; Release 0; Acquire 1; Internal 1; Generate 1] s'
    /\ connected s' = true.
Proof.
  assert (R : exists s s',
             run (initial false) [Acquire 0; Internal 0; Connect 0] s
             /\ connected s = true
             /\ run s [Generate 0; Release 0; Acquire 1; Internal 1;
                       Generate 1] s').
  { eexists. eexists. split; [| split].
    - eapply run_cons; [apply acquire; reflexivity |].
      eapply run_cons; [apply not_connected; reflexivity |].
      eapply run_cons; [apply connect_returns; reflexivity |].
      apply run_nil.
    - reflexivity.
    - eapply run_cons; [apply generate_answer; reflexivity |].
      eapply run_cons; [apply release; reflexivity |].
      eapply run_cons; [apply acquire; reflexivity |].
      eapply run_cons; [apply already_connected; reflexivity |].
      eapply run_cons; [apply generate_answer; reflexivity |].
      apply run_nil. }
  destruct R as [s [s' [R [C R']]]]. exists s, s'.
  split; [exact R |]. split; [exact R' |].
  exact (proj1 (service_connects_at_most_once false _ _ s s' R C R')).
Defined.

(** ** From the document to the request *)

(** After the walk, every returned tool has a registry entry under its name,
    and the operation of every entry went through [_extract_parameters]. *)
Lemma returned_tools_are_registered (spec : value)
  (reg : mcp_server.registry) (out : list mcp_server.mcp_types.Tool) :
  mcp_server.extract_tools spec [] = Ret (reg, out) ->
  forall t,
    In t out ->
    exists info,
      mcp_server.registry_get (mcp_server.mcp_types.name t) reg = Some info
      /\ mcp_server._extract_parameters (mcp_server.operation info)
         = Ret (mcp_server.input_schema info).
Proof.
  intros H.
  assert (Hinv :
    (forall n info,
        mcp_server.registry_get n reg = Some info ->
        mcp_server._extract_parameters (mcp_server.operation info)
        = Ret (mcp_server.input_schema info))
    /\ (forall t,
          In t out ->
          exists info,
            mcp_server.registry_get (mcp_server.mcp_types.name t) reg
            = Some info)).
  { apply (extract_tools_invariant
             (fun st =>
                (forall n info,
                    mcp_server.registry_get n (fst st) = Some info ->
                    mcp_server._extract_parameters (mcp_server.operation info)
                    = Ret (mcp_server.input_schema info))
                /\ (forall t,
                      In t (snd st) ->
                      exists info,
                        mcp_server.registry_get (mcp_server.mcp_types.name t)
                          (fst st)
                        = Some info))
             spec (reg, out)); [| | exact H].
    - intros path_key [tools0 out0] [method_key operation] s' [Hreg Hout]
        Hstep.
      simpl in Hreg, Hout.
      destruct (operation_step_inv _ _ _ _ _ _ Hstep)
        as [[_ ->] | [_ [m [p [tn [d [schema [_ [_ [_ [Hs ->]]]]]]]]]]];
        [now split |].
      split; simpl.
      + intros n info. rewrite registry_get_set.
        destruct (String.eqb n (normalize tn)).
        * intros Hi. ret_inv Hi. exact Hs.
        * apply Hreg.
      + intros t Hin. rewrite registry_get_set.
        destruct (String.eqb (mcp_server.mcp_types.name t) (normalize tn))
          eqn:Hname; [now eexists |].
        apply in_app_or in Hin. destruct Hin as [Hin | [<- | []]].
        * now apply Hout.
        * simpl in Hname. rewrite String.eqb_refl in Hname. discriminate.
    - split; simpl; [discriminate | intros t []]. }
  destruct Hinv as [Hreg Hout]. intros t Hin.
  destruct (Hout t Hin) as [info Hinfo]. exists info.
  split; [exact Hinfo | exact (Hreg _ info Hinfo)].
Qed.

(** X19: every tool that [extract_tools] returns can be executed.  With the
    registry of the walk and a base URL that is a string, [execute_tool]
    called with the name of a returned tool and any arguments finds an entry,
    builds the request of the entry and returns what the request gives; it
    raises nothing, whatever the transport does.  (The entry is the one of
    the last operation that was given this name.) *)
Theorem returned_tools_are_executable {client : mcp_server.HttpClient}
  (spec : value) (reg : mcp_server.registry)
  (out : list mcp_server.mcp_types.Tool) (self : mcp_server.extractor)
  (base : string) :
  mcp_server.extract_tools spec [] = Ret (reg, out) ->
  mcp_server.tools self = reg ->
  bind (mcp_server._get_base_url self) as_str = Ret base ->
  forall t,
    In t out ->
    forall arguments,
      exists info rq,
        mcp_server.registry_get (mcp_server.mcp_types.name t) reg = Some info
        /\ mcp_server.build_request self info arguments = Ret rq
        /\ mcp_server.execute_tool self (mcp_server.mcp_types.name t) arguments
           = Ret (mcp_server.perform_request rq).
Proof.
  intros H Hreg Hbase t Hin arguments.
  destruct (returned_tools_are_registered spec reg out H t Hin)
    as [info [Hinfo Hop]].
  destruct (build_request_returns self info arguments _ base Hop Hbase)
    as [rq Hrq].
  exists info, rq. split; [exact Hinfo |]. split; [exact Hrq |].
  unfold mcp_server.execute_tool. rewrite Hreg, Hinfo, Hrq. reflexivity.
Qed.

Lemma returned_tools_are_executable_witness :
  exists rq,
    mcp_server.build_request notes_extractor add_note_info add_note_arguments
    = Ret rq
    /\ mcp_server.execute_tool (client := refusing_client) notes_extractor
         "post__users_id_notes" add_note_arguments
       = Ret (VDict [(KStr "success", VBool false);
                     (KStr "error", VStr "All connection attempts failed");
                     (KStr "status_code", VNone)]).
Proof.
  destruct (returned_tools_are_executable (client := refusing_client)
              notes_document _ _ notes_extractor "http://api.test/"
              eq_refl eq_refl eq_refl _ (or_introl eq_refl)
              add_note_arguments)
    as [info [rq [Hinfo [Hrq Hrun]]]].
  exists rq. split.
  - vm_compute in Hinfo. ret_inv Hinfo. exact Hrq.
  - etransitivity; [exact Hrun | reflexivity].
Defined.

(** *** The two kinds of result *)

(** X20: whatever [execute_tool] returns is a dictionary with a boolean
    [success]: a success holds [data] and the status code of the response
    and no [error]; a failure holds the message under [error] and no
    [data]. *)
Theorem results_are_successes_or_failures {client : mcp_server.HttpClient}
  (self : mcp_server.extractor) (tool_name : string) (arguments : dict)
  (result : value) :
  mcp_server.execute_tool self tool_name arguments = Ret result ->
  exists d b,
    result = VDict d
    /\ dict_get (KStr "success") d = Some (VBool b)
    /\ (b = true ->
        dict_mem (KStr "data") d = true
        /\ dict_mem (KStr "error") d = false
        /\ exists z, dict_get (KStr "status_code") d = Some (VInt z))
    /\ (b = false ->
        dict_mem (KStr "data") d = false
        /\ exists msg, dict_get (KStr "error") d = Some (VStr msg)).
Proof.
  unfold mcp_server.execute_tool.
  destruct (mcp_server.registry_get tool_name (mcp_server.tools self))
    as [info |]; [| discriminate].
  intros H. bind_as H rq Hrq. ret_inv H.
  unfold mcp_server.perform_request.
  destruct (mcp_server.client_request rq) as [r | msg status | msg].
  - destruct (mcp_server.raise_for_status r) as [msg |].
    + eexists. exists false. split; [reflexivity |].
      split; [reflexivity |]. split; [discriminate |].
      intros _. split; [reflexivity | now eexists].
    + eexists. exists true. split; [reflexivity |].
      split; [reflexivity |]. split; [| discriminate].
      intros _. split; [reflexivity |]. split; [reflexivity | now eexists].
  - eexists. exists false. split; [reflexivity |].
    split; [reflexivity |]. split; [discriminate |].
    intros _. split; [reflexivity | now eexists].
  - eexists. exists false. split; [reflexivity |].
    split; [reflexivity |]. split; [discriminate |].
    intros _. split; [reflexivity | now eexists].
Qed.

Lemma results_are_successes_or_failures_witness :
  exists d,
    mcp_server.execute_tool (client := plain_text_client) sample_extractor
      "get_user" get_user_arguments
    = Ret (VDict d)
    /\ dict_get (KStr "success") d = Some (VBool true)
    /\ dict_mem (KStr "error") d = false.
Proof.
  destruct (results_are_successes_or_failures (client := plain_text_client)
              sample_extractor "get_user" get_user_arguments _ eq_refl)
    as [d [b [Hd [Hs [Hok _]]]]].
  vm_compute in Hd. ret_inv Hd.
  vm_compute in Hs. ret_inv Hs.
  eexists. split; [reflexivity |]. split; [reflexivity |].
  exact (proj1 (proj2 (Hok eq_refl))).
Defined.
